(** * pyqtPiperTTS: task orchestration and playback control

    A shallow embedding of [functions.py] and of the orchestration code of
    [pyqt/window.py] (class [MainWindow]), and the properties of the
    design document that can be stated over it.

    Conventions.
    - A Python [str] is the list of its code points.
    - A call that can raise returns a [Res]; code that also talks to the
      file system, the inference backend or the audio device runs in the
      monad [Py], which records the external calls in order.
    - Third-party and operating-system behaviour (pathlib, onnxruntime,
      piper, sounddevice) is not part of the repository: it is the
      [Platform] every definition is parameterised by. *)

From Stdlib Require Import ZArith NArith List String Ascii Bool Lia.
From Stdlib Require Import Permutation Sorted DecimalString.
From Stdlib.Strings Require Byte.
Import ListNotations.

Set Implicit Arguments.
Local Open Scope list_scope.

(** ** Python strings *)

Definition str := list N.

(** The code points of a literal. *)
Definition py (s : string) : str := map N_of_ascii (list_ascii_of_string s).

Fixpoint str_eqb (a b : str) : bool :=
  match a, b with
  | [], [] => true
  | x :: a', y :: b' => N.eqb x y && str_eqb a' b'
  | _, _ => false
  end.

(** [a <= b] on [str]: code point by code point, a prefix first. *)
Fixpoint str_leb (a b : str) : bool :=
  match a, b with
  | [], _ => true
  | _ :: _, [] => false
  | x :: a', y :: b' =>
      if N.ltb x y then true else if N.eqb x y then str_leb a' b' else false
  end.

Definition endswith (s suf : str) : bool :=
  Nat.leb (List.length suf) (List.length s)
  && str_eqb (skipn (List.length s - List.length suf) s) suf.

(** [str.isspace] for one character (the Unicode white space of CPython). *)
Definition isspace (c : N) : bool :=
  ((9 <=? c) && (c <=? 13) || (28 <=? c) && (c <=? 32)
   || (c =? 133) || (c =? 160) || (c =? 5760)
   || (8192 <=? c) && (c <=? 8202)
   || (c =? 8232) || (c =? 8233) || (c =? 8239) || (c =? 8287)
   || (c =? 12288))%N.

Fixpoint lstrip (s : str) : str :=
  match s with
  | c :: s' => if isspace c then lstrip s' else s
  | [] => []
  end.

Definition rstrip (s : str) : str := rev (lstrip (rev s)).

(** [s.strip()] *)
Definition strip (s : str) : str := rstrip (lstrip s).

(** [f"{n}"] for an [int]. *)
Definition str_of_int (n : Z) : str := py (NilZero.string_of_int (Z.to_int n)).

(** [sorted] on a list of [str]. *)
Fixpoint insert_sorted (x : str) (l : list str) : list str :=
  match l with
  | [] => [x]
  | y :: l' => if str_leb x y then x :: l else y :: insert_sorted x l'
  end.

Fixpoint sorted (l : list str) : list str :=
  match l with
  | [] => []
  | x :: l' => insert_sorted x (sorted l')
  end.

(** ** Exceptions *)

(** The argument of [SystemExit]. *)
Inductive ExitCode :=
| CodeNone
| CodeInt (n : Z)
| CodeStr (s : str).

(** What a call raises: [Exception msg] is any instance of [Exception]
    with [str(e) = msg]; the other two are [BaseException]s that
    [except Exception] does not catch. *)
Inductive Exc :=
| Exception (msg : str)
| SystemExit (code : ExitCode)
| KeyboardInterrupt.

Inductive Res (A : Type) :=
| Ret (a : A)
| Raise (e : Exc).
Arguments Ret {A} a.
Arguments Raise {A} e.

(** ** The standard library: [struct], [wave], [numpy.frombuffer] *)

Local Open Scope Z_scope.

(** Bytes of a [bytes] object or of a file. *)
Definition bytes := list Byte.byte.

(** One call on a [wave.Wave_write] object. *)
Inductive WaveCall :=
| setframerate (framerate : Z)
| setsampwidth (sampwidth : Z)
| setnchannels (nchannels : Z)
| writeframes (data : bytes).

Definition rbind {A B} (c : Res A) (k : A -> Res B) : Res B :=
  match c with
  | Ret a => k a
  | Raise e => Raise e
  end.

Notation "x <~ c1 ;; c2" := (rbind c1 (fun x => c2))
  (at level 61, c1 at next level, right associativity).

Definition byte_of_Z (n : Z) : Byte.byte :=
  match Byte.of_N (Z.to_N (n mod 256)) with
  | Some b => b
  | None => Byte.x00
  end.

Definition Z_of_byte (b : Byte.byte) : Z := Z.of_N (Byte.to_N b).

(** [k] bytes of [n], least significant first. *)
Fixpoint le_bytes (k : nat) (n : Z) : bytes :=
  match k with
  | O => []
  | S k' => byte_of_Z n :: le_bytes k' (n / 256)
  end.

Fixpoint le_value (bs : bytes) : Z :=
  match bs with
  | [] => 0
  | b :: bs' => Z_of_byte b + 256 * le_value bs'
  end.

(** [struct.pack("<L", n)] and [struct.pack("<H", n)]: [struct.error] when
    [n] does not fit. *)
Definition pack_L (n : Z) : Res bytes :=
  if (0 <=? n)%Z && (n <? 4294967296)%Z then Ret (le_bytes 4 n)
  else Raise (Exception (py "'L' format requires 0 <= number <= 4294967295")).

Definition pack_H (n : Z) : Res bytes :=
  if (0 <=? n)%Z && (n <? 65536)%Z then Ret (le_bytes 2 n)
  else Raise (Exception (py "'H' format requires 0 <= number <= 65535")).

(** The bytes of an ASCII literal. *)
Definition b (s : string) : bytes := map byte_of_ascii (list_ascii_of_string s).

Fixpoint bytes_eqb (x y : bytes) : bool :=
  match x, y with
  | [], [] => true
  | c :: x', d :: y' => Byte.eqb c d && bytes_eqb x' y'
  | _, _ => false
  end.

Definition wave_Error (msg : string) : Exc := Exception (py msg).

(** [wave.Wave_write], on a file that starts empty. *)
Record Wave_write := {
  _nchannels : Z;
  _sampwidth : Z;
  _framerate : Z;
  _nframes : Z;
  _nframeswritten : Z;
  _datawritten : Z;
  _datalength : Z;
  _headerwritten : bool;
  _file : bytes;
}.

Definition Wave_write_init : Wave_write :=
  {| _nchannels := 0; _sampwidth := 0; _framerate := 0; _nframes := 0;
     _nframeswritten := 0; _datawritten := 0; _datalength := 0;
     _headerwritten := false; _file := [] |}.

Definition Z_len (x : bytes) : Z := Z.of_nat (List.length x).

Definition do_setnchannels (nchannels : Z) (w : Wave_write) : Res Wave_write :=
  if negb (_datawritten w =? 0)%Z then
    Raise (wave_Error "cannot change parameters after starting to write")
  else if (nchannels <? 1)%Z then Raise (wave_Error "bad # of channels")
  else Ret {| _nchannels := nchannels; _sampwidth := _sampwidth w;
              _framerate := _framerate w; _nframes := _nframes w;
              _nframeswritten := _nframeswritten w;
              _datawritten := _datawritten w; _datalength := _datalength w;
              _headerwritten := _headerwritten w; _file := _file w |}.

Definition do_setsampwidth (sampwidth : Z) (w : Wave_write) : Res Wave_write :=
  if negb (_datawritten w =? 0)%Z then
    Raise (wave_Error "cannot change parameters after starting to write")
  else if (sampwidth <? 1)%Z || (4 <? sampwidth)%Z then
    Raise (wave_Error "bad sample width")
  else Ret {| _nchannels := _nchannels w; _sampwidth := sampwidth;
              _framerate := _framerate w; _nframes := _nframes w;
              _nframeswritten := _nframeswritten w;
              _datawritten := _datawritten w; _datalength := _datalength w;
              _headerwritten := _headerwritten w; _file := _file w |}.

Definition do_setframerate (framerate : Z) (w : Wave_write) : Res Wave_write :=
  if negb (_datawritten w =? 0)%Z then
    Raise (wave_Error "cannot change parameters after starting to write")
  else if (framerate <=? 0)%Z then Raise (wave_Error "bad frame rate")
  else Ret {| _nchannels := _nchannels w; _sampwidth := _sampwidth w;
              _framerate := framerate; _nframes := _nframes w;
              _nframeswritten := _nframeswritten w;
              _datawritten := _datawritten w; _datalength := _datalength w;
              _headerwritten := _headerwritten w; _file := _file w |}.

(** The 40 bytes [struct.pack("<L4s4sLHHLLHH4s", ...)] of [_write_header]. *)
Definition pack_header (w : Wave_write) (datalength : Z) : Res bytes :=
  riff_len <~ pack_L (36 + datalength) ;;
  fmt_len <~ pack_L 16 ;;
  tag <~ pack_H 1 ;;
  nch <~ pack_H (_nchannels w) ;;
  rate <~ pack_L (_framerate w) ;;
  avg <~ pack_L (_nchannels w * _framerate w * _sampwidth w) ;;
  align <~ pack_H (_nchannels w * _sampwidth w) ;;
  bits <~ pack_H (_sampwidth w * 8) ;;
  Ret (riff_len ++ b "WAVE" ++ b "fmt " ++ fmt_len ++ tag ++ nch ++ rate
       ++ avg ++ align ++ bits ++ b "data").

Definition _write_header (initlength : Z) (w : Wave_write) : Res Wave_write :=
  let nframes :=
    if (_nframes w =? 0)%Z then initlength / (_nchannels w * _sampwidth w)
    else _nframes w in
  let datalength := nframes * _nchannels w * _sampwidth w in
  hdr <~ pack_header w datalength ;;
  len <~ pack_L datalength ;;
  Ret {| _nchannels := _nchannels w; _sampwidth := _sampwidth w;
         _framerate := _framerate w; _nframes := nframes;
         _nframeswritten := _nframeswritten w;
         _datawritten := _datawritten w; _datalength := datalength;
         _headerwritten := true;
         _file := _file w ++ b "RIFF" ++ hdr ++ len |}.

Definition _ensure_header_written (datasize : Z) (w : Wave_write)
  : Res Wave_write :=
  if _headerwritten w then Ret w
  else if (_nchannels w =? 0)%Z then
    Raise (wave_Error "# channels not specified")
  else if (_sampwidth w =? 0)%Z then
    Raise (wave_Error "sample width not specified")
  else if (_framerate w =? 0)%Z then
    Raise (wave_Error "sampling rate not specified")
  else _write_header datasize w.

(** [file.seek(pos); file.write(new)] inside the file. *)
Definition overwrite (pos : nat) (new file : bytes) : bytes :=
  firstn pos file ++ new ++ skipn (pos + List.length new) file.

(** [_form_length_pos] is 4 and [_data_length_pos] is 40: the file starts
    empty and the header is the first thing written. *)
Definition _patchheader (w : Wave_write) : Res Wave_write :=
  if (_datawritten w =? _datalength w)%Z then Ret w
  else
    form_len <~ pack_L (36 + _datawritten w) ;;
    data_len <~ pack_L (_datawritten w) ;;
    Ret {| _nchannels := _nchannels w; _sampwidth := _sampwidth w;
           _framerate := _framerate w; _nframes := _nframes w;
           _nframeswritten := _nframeswritten w;
           _datawritten := _datawritten w; _datalength := _datawritten w;
           _headerwritten := _headerwritten w;
           _file := overwrite 40 data_len (overwrite 4 form_len (_file w)) |}.

Definition writeframesraw (data : bytes) (w : Wave_write) : Res Wave_write :=
  w1 <~ _ensure_header_written (Z_len data) w ;;
  let nframes := Z_len data / (_sampwidth w1 * _nchannels w1) in
  Ret {| _nchannels := _nchannels w1; _sampwidth := _sampwidth w1;
         _framerate := _framerate w1; _nframes := _nframes w1;
         _nframeswritten := _nframeswritten w1 + nframes;
         _datawritten := _datawritten w1 + Z_len data;
         _datalength := _datalength w1;
         _headerwritten := _headerwritten w1;
         _file := _file w1 ++ data |}.

Definition do_writeframes (data : bytes) (w : Wave_write) : Res Wave_write :=
  w1 <~ writeframesraw data w ;;
  if negb (_datalength w1 =? _datawritten w1)%Z then _patchheader w1
  else Ret w1.

Definition Wave_write_close (w : Wave_write) : Res Wave_write :=
  w1 <~ _ensure_header_written 0 w ;;
  if negb (_datalength w1 =? _datawritten w1)%Z then _patchheader w1
  else Ret w1.

Definition do_call (c : WaveCall) (w : Wave_write) : Res Wave_write :=
  match c with
  | setframerate r => do_setframerate r w
  | setsampwidth n => do_setsampwidth n w
  | setnchannels n => do_setnchannels n w
  | writeframes d => do_writeframes d w
  end.

Fixpoint do_calls (cs : list WaveCall) (w : Wave_write) : Res Wave_write :=
  match cs with
  | [] => Ret w
  | c :: cs' => w1 <~ do_call c w ;; do_calls cs' w1
  end.

(** The writer as [_write_header] leaves it when [struct.pack] raises:
    [RIFF] is in the file, and the 40 bytes after it when it was the
    length of the data that did not fit; the lengths are set and the
    header does not count as written. *)
Definition _write_header_raised (initlength : Z) (w : Wave_write)
  : Wave_write :=
  let nframes :=
    if (_nframes w =? 0)%Z then initlength / (_nchannels w * _sampwidth w)
    else _nframes w in
  let datalength := nframes * _nchannels w * _sampwidth w in
  {| _nchannels := _nchannels w; _sampwidth := _sampwidth w;
     _framerate := _framerate w; _nframes := nframes;
     _nframeswritten := _nframeswritten w;
     _datawritten := _datawritten w; _datalength := datalength;
     _headerwritten := false;
     _file := _file w ++ b "RIFF"
              ++ match pack_header w datalength with
                 | Ret hdr => hdr
                 | Raise _ => []
                 end |}.

(** The writer after the call [c] raised.  A setter raises before it
    assigns.  [writeframes] raises in [_ensure_header_written] (before
    anything is done when a parameter is missing, in [_write_header]
    otherwise) or, the frames written, in [_patchheader], which then has
    changed no attribute. *)
Definition raised_in (c : WaveCall) (w : Wave_write) : Wave_write :=
  match c with
  | setframerate _ | setsampwidth _ | setnchannels _ => w
  | writeframes data =>
      match writeframesraw data w with
      | Ret w1 => w1
      | Raise _ =>
          if _headerwritten w || (_nchannels w =? 0)%Z
             || (_sampwidth w =? 0)%Z || (_framerate w =? 0)%Z
          then w
          else _write_header_raised (Z_len data) w
      end
  end.

(** The writer when the first of the calls [cs] that raises has raised. *)
Fixpoint state_when_raised (cs : list WaveCall) (w : Wave_write)
  : Wave_write :=
  match cs with
  | [] => w
  | c :: cs' =>
      match do_call c w with
      | Ret w1 => state_when_raised cs' w1
      | Raise _ => raised_in c w
      end
  end.

(** [with wave.open(f, "wb") as wf: body], where [body] makes the calls
    [cs] on [wf] and then raises [exc], if any: the bytes of [f] when the
    block ends normally.  [__exit__] closes [wf] also when the block
    raised, be it in the body or in one of the calls on [wf], and an
    exception of [close] then replaces the one of the block. *)
Definition with_wave_write (body : list WaveCall * option Exc) : Res bytes :=
  match do_calls (fst body) Wave_write_init, snd body with
  | Ret w, None => w1 <~ Wave_write_close w ;; Ret (_file w1)
  | Ret w, Some e => _ <~ Wave_write_close w ;; Raise e
  | Raise e, _ =>
      _ <~ Wave_write_close (state_when_raised (fst body) Wave_write_init) ;;
      Raise e
  end.

(** The 16 bytes of the [fmt] chunk of a PCM file, and the 44 bytes
    [Wave_write] puts in front of the frames. *)
Definition fmt_body (nchannels sampwidth framerate : Z) : bytes :=
  le_bytes 2 1 ++ le_bytes 2 nchannels ++ le_bytes 4 framerate
  ++ le_bytes 4 (nchannels * framerate * sampwidth)
  ++ le_bytes 2 (nchannels * sampwidth) ++ le_bytes 2 (sampwidth * 8).

Definition riff_header (nchannels sampwidth framerate datalength : Z)
  : bytes :=
  b "RIFF" ++ le_bytes 4 (36 + datalength) ++ b "WAVE" ++ b "fmt "
  ++ le_bytes 4 16 ++ fmt_body nchannels sampwidth framerate
  ++ b "data" ++ le_bytes 4 datalength.

(** The calls of piper's [synthesize_wav] for audio that comes in the
    chunks [chunks] of 16-bit mono samples at [rate] Hz: the format is set
    at the first chunk, and every chunk is written. *)
Definition piper_calls (rate : Z) (chunks : list bytes) : list WaveCall :=
  match chunks with
  | [] => []
  | _ :: _ =>
      [setframerate rate; setsampwidth 2; setnchannels 1]
      ++ map writeframes chunks
  end.

(** The writer once piper's format is set and the frames [data] are
    written, the header saying so. *)
Definition written (rate : Z) (data : bytes) (w : Wave_write) : Prop :=
  _nchannels w = 1 /\ _sampwidth w = 2 /\ _framerate w = rate
  /\ _headerwritten w = true
  /\ _datawritten w = Z_len data /\ _datalength w = Z_len data
  /\ _file w = riff_header 1 2 rate (Z_len data) ++ data.

(** [wave.Wave_read]: what [initfp] finds in a file. *)
Record Wave_read := {
  rd_nchannels : Z;
  rd_framerate : Z;
  rd_sampwidth : Z;
  rd_nframes : Z;
  rd_data_chunk : bytes;
}.

Record fmt_chunk := {
  fmt_nchannels : Z;
  fmt_framerate : Z;
  fmt_sampwidth : Z;
}.

Definition EOFError : Exc := Exception [].

(** [_read_fmt_chunk] on the bytes of the chunk. *)
Definition _read_fmt_chunk (chunk : bytes) : Res fmt_chunk :=
  let head := firstn 14 chunk in
  if Nat.ltb (List.length head) 14 then Raise EOFError
  else
    let wFormatTag := le_value (firstn 2 head) in
    let nchannels := le_value (firstn 2 (skipn 2 head)) in
    let framerate := le_value (firstn 4 (skipn 4 head)) in
    if wFormatTag =? 1 then
      let bits := firstn 2 (skipn 14 chunk) in
      if Nat.ltb (List.length bits) 2 then Raise EOFError
      else
        let sampwidth := (le_value bits + 7) / 8 in
        if sampwidth =? 0 then Raise (wave_Error "bad sample width")
        else if nchannels =? 0 then Raise (wave_Error "bad # of channels")
        else Ret {| fmt_nchannels := nchannels; fmt_framerate := framerate;
                    fmt_sampwidth := sampwidth |}
    else Raise (wave_Error "unknown format").

(** The loop of [initfp] over the chunks of the RIFF body.  A chunk is its
    4-byte name, its 4-byte size and that many bytes, padded to an even
    length; [fuel] bounds the number of chunks. *)
Fixpoint read_chunks (fuel : nat) (rest : bytes) (fmt : option fmt_chunk)
  : Res Wave_read :=
  match fuel with
  | O => Raise (wave_Error "fmt chunk and/or data chunk missing")
  | S fuel' =>
      if Nat.ltb (List.length rest) 8 then
        Raise (wave_Error "fmt chunk and/or data chunk missing")
      else
        let chunkname := firstn 4 rest in
        let chunksize := Z.to_nat (le_value (firstn 4 (skipn 4 rest))) in
        let body := skipn 8 rest in
        let next := skipn (chunksize + Nat.modulo chunksize 2) body in
        if bytes_eqb chunkname (b "fmt ") then
          f <~ _read_fmt_chunk (firstn chunksize body) ;;
          read_chunks fuel' next (Some f)
        else if bytes_eqb chunkname (b "data") then
          match fmt with
          | None => Raise (wave_Error "data chunk before fmt chunk")
          | Some f =>
              let framesize := fmt_nchannels f * fmt_sampwidth f in
              Ret {| rd_nchannels := fmt_nchannels f;
                     rd_framerate := fmt_framerate f;
                     rd_sampwidth := fmt_sampwidth f;
                     rd_nframes := Z.of_nat chunksize / framesize;
                     rd_data_chunk := firstn chunksize body |}
          end
        else read_chunks fuel' next fmt
  end.

(** [wave.open(f, "rb")] on a file with the bytes [file]. *)
Definition Wave_read_open (file : bytes) : Res Wave_read :=
  if Nat.ltb (List.length file) 8 then Raise EOFError
  else if negb (bytes_eqb (firstn 4 file) (b "RIFF")) then
    Raise (wave_Error "file does not start with RIFF id")
  else
    let riffsize := Z.to_nat (le_value (firstn 4 (skipn 4 file))) in
    let riff := firstn riffsize (skipn 8 file) in
    if negb (bytes_eqb (firstn 4 riff) (b "WAVE")) then
      Raise (wave_Error "not a WAVE file")
    else read_chunks (S (List.length riff)) (skipn 4 riff) None.

Definition getframerate (rf : Wave_read) : Z := rd_framerate rf.
Definition getnframes (rf : Wave_read) : Z := rd_nframes rf.

(** [rf.readframes(nframes)], called once, right after [open]. *)
Definition readframes (rf : Wave_read) (nframes : Z) : bytes :=
  firstn (Z.to_nat (nframes * (rd_nchannels rf * rd_sampwidth rf)))
         (rd_data_chunk rf).

(** A signed 16-bit sample from its two bytes. *)
Definition int16 (lo hi : Byte.byte) : Z :=
  let u := Z_of_byte lo + 256 * Z_of_byte hi in
  if u <? 32768 then u else u - 65536.

Fixpoint int16_samples (raw : bytes) : list Z :=
  match raw with
  | lo :: hi :: raw' => int16 lo hi :: int16_samples raw'
  | _ => []
  end.

(** [np.frombuffer(raw, dtype=np.int16)] on a little-endian machine. *)
Definition frombuffer_int16 (raw : bytes) : Res (list Z) :=
  if Nat.eqb (Nat.modulo (List.length raw) 2) 0 then Ret (int16_samples raw)
  else Raise (Exception
                (py "buffer size must be a multiple of element size")).

(** ** The platform *)

(** [piper.config.SynthesisConfig], the fields the program sets. *)
Record SynthesisConfig (F : Type) := {
  cfg_volume : F;
  cfg_length_scale : F;
  cfg_noise_scale : F;
  cfg_noise_w_scale : F;
  cfg_normalize_audio : bool;
}.

(** A file object that [sys.stdout] can be bound to. *)
Inductive Stream :=
| FileStream (fd : Z)
| StringIO (id : nat).

(** The process-wide names [download_voice_model] rebinds. *)
Record SysGlobals := {
  sys_argv : list str;
  sys_stdout : Stream;
  sys_stderr : Stream;
}.

(** What a run of [piper_dl.main()] does: how it leaves the globals, what
    it printed into the [StringIO] it was given, and how it ended. *)
Record MainRun := {
  main_globals : SysGlobals;
  main_printed : str;
  main_result : Res unit;
}.

Class Platform := {
  (** types of the libraries *)
  PiperVoice : Type;
  Path : Type;
  float : Type;
  (** float arithmetic *)
  fadd : float -> float -> float;
  fmul : float -> float -> float;
  float_of_int : Z -> float;
  (** pathlib *)
  MODELS_DIR : Path;
  Path_of : str -> Path;
  joinpath : Path -> str -> Path;
  Path_suffix : Path -> str;
  Path_with_suffix : Path -> str -> Res Path;
  Path_name : Path -> str;
  Path_str : Path -> str;
  Path_exists : Path -> Res bool;
  (** the names of the entries of [MODELS_DIR], in the order of the OS *)
  MODELS_DIR_entries : list str;
  (** [builtins.open(path, "wb")], as far as it can fail *)
  open_wb : str -> Res unit;
  (** [ort.get_available_providers()]; [None] when onnxruntime is missing *)
  ort_providers : option (list str);
  (** piper: [PiperVoice.load], [voice.config.sample_rate], and the calls
      [voice.synthesize_wav(text, wf, cfg)] makes on [wf], with the
      exception that ends them, if any *)
  PiperVoice_load : str -> str -> bool -> Res PiperVoice;
  voice_sample_rate : PiperVoice -> option Z;
  synthesize_wav :
    PiperVoice -> str -> SynthesisConfig float -> list WaveCall * option Exc;
  (** [piper.download_voices.main] *)
  piper_dl_main : SysGlobals -> MainRun;
  (** sounddevice *)
  sd_play : list Z -> Z -> Res unit;
  sd_wait : Res unit;
}.

Section Functions.
Context {P : Platform}.

(** ** External calls and the monad of the function bodies *)

Inductive Call :=
| CallExists (p : Path)
| CallPiperLoad (model_path config_path : str) (use_cuda : bool).

(** The external calls made so far, and the value or the exception. *)
Definition Py (A : Type) : Type := (list Call * Res A)%type.

Definition ret {A} (a : A) : Py A := ([], Ret a).

Definition bind {A B} (c : Py A) (k : A -> Py B) : Py B :=
  match c with
  | (t, Ret a) => let (t', r) := k a in (t ++ t', r)
  | (t, Raise e) => (t, Raise e)
  end.

Notation "x <- c1 ;; c2" := (bind c1 (fun x => c2))
  (at level 61, c1 at next level, right associativity).

(** A library call that touches nothing we trace. *)
Definition lift {A} (r : Res A) : Py A := ([], r).

(** [try: c  except Exception as e: h (str e)] *)
Definition try_except {A} (c : Py A) (h : str -> Py A) : Py A :=
  match c with
  | (t, Raise (Exception msg)) => let (t', r) := h msg in (t ++ t', r)
  | _ => c
  end.

Definition exists_ (p : Path) : Py bool := ([CallExists p], Path_exists p).

Definition load (model_path config_path : str) (use_cuda : bool)
  : Py PiperVoice :=
  ([CallPiperLoad model_path config_path use_cuda],
   PiperVoice_load model_path config_path use_cuda).

(** ** [functions.py] *)

(** [is_cuda_available]: the answer is computed once and cached in
    [_CUDA_AVAILABLE]; with a fixed platform it is this value. *)
Definition is_cuda_available : bool :=
  match ort_providers with
  | Some providers => existsb (str_eqb (py "CUDAExecutionProvider")) providers
  | None => false
  end.

(** The names [p.name] of [MODELS_DIR.glob("*.onnx")]: the entries of the
    directory whose name matches the pattern. *)
Definition glob_onnx_names : list str :=
  filter (fun n => endswith n (py ".onnx")) MODELS_DIR_entries.

Definition list_models : list str :=
  let models := sorted glob_onnx_names in
  match models with
  | [] => [py "No models"]
  | _ :: _ => models
  end.

Definition get_config_path (model_path : Path) : Res Path :=
  Path_with_suffix model_path (Path_suffix model_path ++ py ".json").

(** [if sr] for [sr] an [int] or [None]. *)
Definition truthy (sr : option Z) : bool :=
  match sr with
  | Some n => negb (Z.eqb n 0)
  | None => false
  end.

Definition fmt_sr (sr : option Z) : str :=
  match sr with
  | Some n => str_of_int n
  | None => py "None"
  end.

Definition load_voice_model (model_name : str) (use_cuda : bool)
  : Py (option PiperVoice * str) :=
  if str_eqb model_name (py "No models") then
    ret (None, py "No models found")
  else
    let model_path := joinpath MODELS_DIR model_name in
    cfg_path <- lift (get_config_path model_path) ;;
    model_there <- exists_ model_path ;;
    if negb model_there then
      ret (None, py "Model not found: " ++ model_name)
    else
      cfg_there <- exists_ cfg_path ;;
      if negb cfg_there then
        ret (None, py "Missing config: " ++ Path_name cfg_path)
      else
        try_except
          (voice <- load (Path_str model_path) (Path_str cfg_path)
                         (use_cuda && is_cuda_available) ;;
           let sr := voice_sample_rate voice in
           let device :=
             if use_cuda && is_cuda_available then py "CUDA" else py "CPU" in
           let status :=
             (py "Loaded: " ++ model_name ++ py " (" ++ device ++ py ")")
             ++ (if truthy sr then py " @ " ++ fmt_sr sr ++ py " Hz" else [])
           in
           ret (Some voice, status))
          (fun e => ret (None, py "Load error: " ++ e)).

(** [download_voice_model] in a process whose globals are [g]; [fresh] is
    the identity of the [io.StringIO()] it allocates.  The second component
    is the globals when the call is over, whichever way it ends. *)
Definition download_voice_model (voice_id : str) (fresh : nat)
    (g : SysGlobals) : Res (bool * str) * SysGlobals :=
  let argv0 := sys_argv g in
  let out0 := sys_stdout g in
  let err0 := sys_stderr g in
  let buf := StringIO fresh in
  (* try: *)
  let g1 :=
    {| sys_argv := [py "piper.download_voices"; voice_id; py "--data-dir";
                    Path_str MODELS_DIR];
       sys_stdout := buf; sys_stderr := buf |} in
  let run := piper_dl_main g1 in
  let inner : Res bool :=
    match main_result run with
    | Ret _ => Ret true
    | Raise (SystemExit code) =>
        Ret match code with
            | CodeNone => true
            | CodeInt n => n =? 0
            | CodeStr s => match s with [] => true | _ :: _ => false end
            end
    | Raise e => Raise e
    end in
  let body : Res (bool * str) :=
    match inner with
    | Ret ok =>
        let text := strip (main_printed run) in
        if ok then Ret (true, py "Downloaded: " ++ voice_id)
        else Ret (false,
                  match text with
                  | [] => py "Download failed: " ++ voice_id
                  | _ :: _ => text
                  end)
    (* except Exception as e: *)
    | Raise (Exception e) => Ret (false, py "Download error: " ++ e)
    | Raise e => Raise e
    end in
  (* finally: *)
  (body, {| sys_argv := argv0; sys_stdout := out0; sys_stderr := err0 |}).

(** What a call left of the file it was to write. *)
Inductive FileEffect :=
| NotOpened
| Written (content : bytes)
| Damaged.

(** [voice.synthesize_wav(text, wf, cfg)] for the object the caller
    passed as [voice]: on [None] the attribute lookup raises before any
    call on [wf]. *)
Definition call_synthesize_wav (voice : option PiperVoice) (text : str)
    (cfg : SynthesisConfig float) : list WaveCall * option Exc :=
  match voice with
  | Some v => synthesize_wav v text cfg
  | None =>
      ([], Some (Exception
                   (py "'NoneType' object has no attribute 'synthesize_wav'")))
  end.

Definition synthesize_to_wav (voice : option PiperVoice)
    (text output_path : str)
    (volume speed noise noise_w : float) (normalize : bool)
  : Res (bool * str) * FileEffect :=
  let cfg :=
    {| cfg_volume := volume; cfg_length_scale := speed;
       cfg_noise_scale := noise; cfg_noise_w_scale := noise_w;
       cfg_normalize_audio := normalize |} in
  let except (e : Exc) : Res (bool * str) :=
    match e with
    | Exception msg => Ret (false, py "Export error: " ++ msg)
    | _ => Raise e
    end in
  match open_wb output_path with
  | Raise e => (except e, NotOpened)
  | Ret _ =>
      match with_wave_write (call_synthesize_wav voice text cfg) with
      | Ret content =>
          (Ret (true, py "Saved: " ++ Path_name (Path_of output_path)),
           Written content)
      | Raise e => (except e, Damaged)
      end
  end.

(** The part of [synthesize_to_audio_array] after the buffer is written:
    [wave.open(buf, "rb")], [getframerate], [readframes], [frombuffer]. *)
Definition read_audio (buf : bytes) : Res (list Z * Z) :=
  rf <~ Wave_read_open buf ;;
  let sample_rate := getframerate rf in
  let raw := readframes rf (getnframes rf) in
  audio <~ frombuffer_int16 raw ;;
  Ret (audio, sample_rate).

Definition synthesize_to_audio_array (voice : PiperVoice) (text : str)
    (volume speed noise noise_w : float) (normalize : bool)
  : Res (option (list Z) * Z * str) :=
  let cfg :=
    {| cfg_volume := volume; cfg_length_scale := speed;
       cfg_noise_scale := noise; cfg_noise_w_scale := noise_w;
       cfg_normalize_audio := normalize |} in
  let body :=
    buf <~ with_wave_write (synthesize_wav voice text cfg) ;;
    read_audio buf in
  match body with
  | Ret (audio, sample_rate) => Ret (Some audio, sample_rate, py "Success")
  | Raise (Exception e) => Ret (None, 0, py "Synthesis error: " ++ e)
  | Raise e => Raise e
  end.

(** *** [class AudioPlayer] *)

Record AudioPlayer := {
  playing : bool;
  stopped : bool;
}.

(** A call on the [sounddevice] module. *)
Inductive SdCall :=
| SdPlay (audio_data : list Z) (samplerate : Z)
| SdStop
| SdWait.

Definition AudioPlayer_init : AudioPlayer :=
  {| playing := false; stopped := false |}.

(** Each method gives the player after the call and the device calls it
    made; [play] and [wait] also say how the call ended. *)
Definition AudioPlayer_play (audio_data : list Z) (sample_rate : Z)
    (self : AudioPlayer) : AudioPlayer * list SdCall * Res unit :=
  ({| playing := true; stopped := false |},
   [SdPlay audio_data sample_rate],
   sd_play audio_data sample_rate).

Definition AudioPlayer_stop (self : AudioPlayer)
  : AudioPlayer * list SdCall :=
  if playing self then ({| playing := false; stopped := true |}, [SdStop])
  else (self, []).

Definition AudioPlayer_wait (self : AudioPlayer)
  : AudioPlayer * list SdCall * Res bool :=
  match sd_wait with
  | Ret _ =>
      ({| playing := false; stopped := stopped self |}, [SdWait],
       Ret (stopped self))
  | Raise e => (self, [SdWait], Raise e)
  end.

Definition AudioPlayer_is_playing (self : AudioPlayer) : bool := playing self.

End Functions.

(** ** [pyqt/widgets.py] and [pyqt/window.py] *)

Section Window.
Context {P : Platform}.

(** [FloatSlider]: its configuration and the position of the [QSlider]. *)
Record FloatSlider := {
  min_val : float;
  step : float;
  slider : Z;
}.

(** [FloatSlider.value] *)
Definition value (self : FloatSlider) : float :=
  fadd (min_val self) (fmul (float_of_int (slider self)) (step self)).

Definition setValue (pos : Z) (self : FloatSlider) : FloatSlider :=
  {| min_val := min_val self; step := step self; slider := pos |}.

(** The object a [finished] signal carries. *)
Inductive Payload :=
| LoadResult (voice : option PiperVoice) (status : str)
| BoolMsg (flag : bool) (message : str).

(** An emission of one of the three signals of [WorkerSignals]. *)
Inductive Emission :=
| Emit_finished (result : Payload)
| Emit_error (msg : str)
| Emit_status (msg : str).

(** The closure a thread was started on: which method built it and the
    values of the local variables it captured. *)
Inductive Task :=
| LoadTask (model_name : str) (use_cuda : bool)
| DownloadTask (voice_id : str)
| ExportTask (voice : option PiperVoice) (text file_path : str)
    (volume speed noise noise_w : float) (normalize : bool)
| PlayTask (voice : PiperVoice) (text : str)
    (volume speed noise noise_w : float) (normalize : bool).

(** Where a thread is: not yet scheduled, blocked in [sd.wait()] (a play
    thread only), or over. *)
Inductive Pc :=
| Started
| Waiting
| Done.

(** The attributes of [MainWindow] the orchestration reads or writes. *)
Record MainWindow := {
  voice : option PiperVoice;
  audio_player : AudioPlayer;
  use_cuda : bool;
  model_items : list str;
  model_current : str;
  text_edit : str;
  volume : FloatSlider;
  speed : FloatSlider;
  noise : FloatSlider;
  noise_w : FloatSlider;
  normalize : bool;
  status_label : str;
  log : list str;
  play_btn : str;
}.

(** The process: the window, the threads started so far (a thread is
    known by its index), the signals emitted by threads and not yet
    delivered to the interactive thread (oldest first), the calls made on
    the audio device, the files exports wrote, and [sys]. *)
Record World := {
  win : MainWindow;
  threads : list (Task * Pc);
  queue : list (nat * Emission);
  sd_calls : list SdCall;
  files : list (str * FileEffect);
  sys : SysGlobals;
  next_id : nat;
}.

Definition with_win (f : MainWindow -> MainWindow) (w : World) : World :=
  {| win := f (win w); threads := threads w; queue := queue w;
     sd_calls := sd_calls w; files := files w; sys := sys w;
     next_id := next_id w |}.

Definition with_threads (f : list (Task * Pc) -> list (Task * Pc))
    (w : World) : World :=
  {| win := win w; threads := f (threads w); queue := queue w;
     sd_calls := sd_calls w; files := files w; sys := sys w;
     next_id := next_id w |}.

Definition with_queue (f : list (nat * Emission) -> list (nat * Emission))
    (w : World) : World :=
  {| win := win w; threads := threads w; queue := f (queue w);
     sd_calls := sd_calls w; files := files w; sys := sys w;
     next_id := next_id w |}.

Definition with_sd_calls (cs : list SdCall) (w : World) : World :=
  {| win := win w; threads := threads w; queue := queue w;
     sd_calls := sd_calls w ++ cs; files := files w; sys := sys w;
     next_id := next_id w |}.

Definition with_file (path : str) (e : FileEffect) (w : World) : World :=
  {| win := win w; threads := threads w; queue := queue w;
     sd_calls := sd_calls w; files := files w ++ [(path, e)]; sys := sys w;
     next_id := next_id w |}.

(** After a download: [sys] as the call left it, one more [StringIO]
    allocated. *)
Definition with_sys (g : SysGlobals) (w : World) : World :=
  {| win := win w; threads := threads w; queue := queue w;
     sd_calls := sd_calls w; files := files w; sys := g;
     next_id := S (next_id w) |}.

Definition set_voice (v : option PiperVoice) (m : MainWindow) : MainWindow :=
  {| voice := v; audio_player := audio_player m; use_cuda := use_cuda m;
     model_items := model_items m; model_current := model_current m;
     text_edit := text_edit m; volume := volume m; speed := speed m;
     noise := noise m; noise_w := noise_w m; normalize := normalize m;
     status_label := status_label m; log := log m; play_btn := play_btn m |}.

Definition set_audio_player (a : AudioPlayer) (m : MainWindow) : MainWindow :=
  {| voice := voice m; audio_player := a; use_cuda := use_cuda m;
     model_items := model_items m; model_current := model_current m;
     text_edit := text_edit m; volume := volume m; speed := speed m;
     noise := noise m; noise_w := noise_w m; normalize := normalize m;
     status_label := status_label m; log := log m; play_btn := play_btn m |}.

Definition set_use_cuda (c : bool) (m : MainWindow) : MainWindow :=
  {| voice := voice m; audio_player := audio_player m; use_cuda := c;
     model_items := model_items m; model_current := model_current m;
     text_edit := text_edit m; volume := volume m; speed := speed m;
     noise := noise m; noise_w := noise_w m; normalize := normalize m;
     status_label := status_label m; log := log m; play_btn := play_btn m |}.

Definition set_model_combo (items : list str) (current : str)
    (m : MainWindow) : MainWindow :=
  {| voice := voice m; audio_player := audio_player m;
     use_cuda := use_cuda m;
     model_items := items; model_current := current;
     text_edit := text_edit m; volume := volume m; speed := speed m;
     noise := noise m; noise_w := noise_w m; normalize := normalize m;
     status_label := status_label m; log := log m; play_btn := play_btn m |}.

Definition set_play_btn (text : str) (m : MainWindow) : MainWindow :=
  {| voice := voice m; audio_player := audio_player m;
     use_cuda := use_cuda m;
     model_items := model_items m; model_current := model_current m;
     text_edit := text_edit m; volume := volume m; speed := speed m;
     noise := noise m; noise_w := noise_w m; normalize := normalize m;
     status_label := status_label m; log := log m; play_btn := text |}.

(** What the user can do to the synthesis controls and to the text. *)
Inductive UiEdit :=
| SetVolume (pos : Z)
| SetSpeed (pos : Z)
| SetNoise (pos : Z)
| SetNoiseW (pos : Z)
| SetNormalize (checked : bool)
| SetText (text : str).

Definition edit (e : UiEdit) (m : MainWindow) : MainWindow :=
  {| voice := voice m; audio_player := audio_player m;
     use_cuda := use_cuda m;
     model_items := model_items m; model_current := model_current m;
     text_edit := match e with SetText t => t | _ => text_edit m end;
     volume := match e with SetVolume p => setValue p (volume m)
               | _ => volume m end;
     speed := match e with SetSpeed p => setValue p (speed m)
              | _ => speed m end;
     noise := match e with SetNoise p => setValue p (noise m)
              | _ => noise m end;
     noise_w := match e with SetNoiseW p => setValue p (noise_w m)
                | _ => noise_w m end;
     normalize := match e with SetNormalize c => c | _ => normalize m end;
     status_label := status_label m; log := log m; play_btn := play_btn m |}.

(** The two labels of the play button, a black square and a black
    right-pointing triangle before the word. *)
Definition btn_stop : str := 9632%N :: py " Stop".
Definition btn_play : str := 9654%N :: py " Play".

(** [threading.Thread(target=run_worker, daemon=True).start()] *)
Definition Thread_start (t : Task) (w : World) : World :=
  with_threads (fun ts => ts ++ [(t, Started)]) w.

(** *** Methods of [MainWindow] that run on the interactive thread *)

Definition _set_status (text : str) (w : World) : World :=
  with_win (fun m =>
    {| voice := voice m; audio_player := audio_player m;
       use_cuda := use_cuda m;
       model_items := model_items m; model_current := model_current m;
       text_edit := text_edit m; volume := volume m; speed := speed m;
       noise := noise m; noise_w := noise_w m; normalize := normalize m;
       status_label := text; log := log m ++ [text];
       play_btn := play_btn m |}) w.

Definition _on_model_changed (model_name : str) (w : World) : World :=
  let w := _set_status (py "Loading: " ++ model_name ++ py "...") w in
  let use_cuda := use_cuda (win w) in
  Thread_start (LoadTask model_name use_cuda) w.

Definition _on_model_loaded (result : Payload) (w : World) : World :=
  match result with
  | LoadResult voice status =>
      let w := with_win (set_voice voice) w in
      _set_status status w
  | BoolMsg _ _ => w
  end.

Definition _on_cuda_toggled (checked : bool) (w : World) : World :=
  let w := with_win (set_use_cuda checked) w in
  match voice (win w) with
  | Some _ =>
      let current_model := model_current (win w) in
      let w :=
        _set_status (py "Reloading with "
                     ++ (if use_cuda (win w) then py "CUDA" else py "CPU")
                     ++ py "...") w in
      _on_model_changed current_model w
  | None => w
  end.

Definition in_list (x : str) (l : list str) : bool := existsb (str_eqb x) l.

(** [clear()] and [addItems(models)] leave the first item current. *)
Definition _refresh_models (w : World) : World :=
  let current := model_current (win w) in
  let models := list_models in
  let now :=
    if in_list current models then current else hd [] models in
  let w := with_win (set_model_combo models now) w in
  let w :=
    if negb (in_list now [ [] ; py "No models" ]) then _on_model_changed now w
    else w in
  _set_status (py "Models refreshed") w.

(** [voice_id], [ok]: the answer of the input dialog.  The dialog is the
    first thing the method does: what happens while it is open is what
    happens before the call. *)
Definition _download_voice (voice_id : str) (ok : bool) (w : World) : World :=
  match ok, strip voice_id with
  | true, (_ :: _) as voice_id =>
      let w := _set_status (py "Downloading: " ++ voice_id ++ py "...") w in
      Thread_start (DownloadTask voice_id) w
  | _, _ => w
  end.

Definition _on_download_complete (result : Payload) (w : World) : World :=
  match result with
  | BoolMsg success message =>
      let w := _set_status message w in
      if success then _refresh_models w else w
  | LoadResult _ _ => w
  end.

Definition _play_audio (w : World) : World :=
  match voice (win w) with
  | None => _set_status (py "Load a voice model first") w
  | Some voice =>
      match strip (text_edit (win w)) with
      | [] => _set_status (py "Enter text to speak") w
      | (_ :: _) as text =>
          let w := _set_status (py "Synthesizing...") w in
          let w := with_win (set_play_btn btn_stop) w in
          let m := win w in
          Thread_start
            (PlayTask voice text
               (value (volume m)) (value (speed m)) (value (noise m))
               (value (noise_w m)) (normalize m)) w
      end
  end.

Definition _stop_playback (w : World) : World :=
  let (a, calls) := AudioPlayer_stop (audio_player (win w)) in
  let w := with_sd_calls calls (with_win (set_audio_player a) w) in
  _set_status (py "Stopping...") w.

Definition _play_stop (w : World) : World :=
  if AudioPlayer_is_playing (audio_player (win w)) then _stop_playback w
  else _play_audio w.

Definition _on_playback_complete (result : Payload) (w : World) : World :=
  match result with
  | BoolMsg _ message =>
      let w := _set_status message w in
      with_win (set_play_btn btn_play) w
  | LoadResult _ _ => w
  end.

Definition closeEvent (w : World) : World :=
  let (a, calls) := AudioPlayer_stop (audio_player (win w)) in
  with_sd_calls calls (with_win (set_audio_player a) w).

(** [get_cuda_info()["status"]], and [_check_cuda] as far as the status
    goes. *)
Definition _check_cuda (w : World) : World :=
  if is_cuda_available then
    _set_status (py "CUDA: " ++ py "Available (CUDA GPU)") w
  else w.

Definition _load_initial_model (w : World) : World :=
  match model_items (win w) with
  | [] => w
  | _ :: _ => _on_model_changed (model_current (win w)) w
  end.

(** [MainWindow.__init__] in a fresh process; the four sliders are given
    as [FloatSlider.__init__] leaves them. *)
Definition MainWindow_init (volume speed noise noise_w : FloatSlider)
    (g : SysGlobals) : World :=
  let m :=
    {| voice := None; audio_player := AudioPlayer_init; use_cuda := false;
       model_items := list_models; model_current := hd [] list_models;
       text_edit := py "Type or paste text here.";
       volume := volume; speed := speed; noise := noise; noise_w := noise_w;
       normalize := false;
       status_label := py "Ready"; log := []; play_btn := btn_play |} in
  let w :=
    {| win := m; threads := []; queue := []; sd_calls := []; files := [];
       sys := g; next_id := O |} in
  _load_initial_model (_check_cuda w).

(** *** The worker threads *)

(** [run_worker] of [_on_model_changed], [_download_voice] and
    [_export_wav]: what it emits when [worker()] ends as [result]. *)
Definition run_worker (result : Res Payload) : list Emission :=
  match result with
  | Ret r => [Emit_finished r]
  | Raise (Exception e) => [Emit_error e]
  | Raise _ => []
  end.

(** The [except] branch of [run_worker] of [_play_audio]. *)
Definition play_except (e : Exc) : list Emission :=
  match e with
  | Exception msg =>
      [Emit_error msg;
       Emit_finished (BoolMsg true (py "Playback error: " ++ msg))]
  | _ => []
  end.

Fixpoint set_nth {A} (i : nat) (x : A) (l : list A) : list A :=
  match l, i with
  | [], _ => []
  | _ :: l', O => x :: l'
  | y :: l', S i' => y :: set_nth i' x l'
  end.

Definition emit (i : nat) (ems : list Emission) (w : World) : World :=
  with_queue (fun q => q ++ map (pair i) ems) w.

Definition set_pc (i : nat) (t : Task) (pc : Pc) (w : World) : World :=
  with_threads (set_nth i (t, pc)) w.

(** Thread [i] runs until it blocks or ends.  A load, download or export
    thread runs in one piece.  A play thread runs up to [sd.wait()], and
    from there to its end when it is scheduled again, which is when the
    device lets [sd.wait()] return. *)
Definition run_thread (i : nat) (w : World) : World :=
  match nth_error (threads w) i with
  | Some (LoadTask model_name use_cuda as t, Started) =>
      let worker :=
        r <~ snd (load_voice_model model_name use_cuda) ;;
        Ret (LoadResult (fst r) (snd r)) in
      set_pc i t Done (emit i (run_worker worker) w)
  | Some (DownloadTask voice_id as t, Started) =>
      let (r, g) := download_voice_model voice_id (next_id w) (sys w) in
      let worker := r <~ r ;; Ret (BoolMsg (fst r) (snd r)) in
      set_pc i t Done (emit i (run_worker worker) (with_sys g w))
  | Some (ExportTask voice text file_path volume speed noise noise_w
            normalize as t, Started) =>
      let (r, eff) :=
        synthesize_to_wav voice text file_path volume speed noise noise_w
          normalize in
      let worker := r <~ r ;; Ret (BoolMsg (fst r) (snd r)) in
      set_pc i t Done (emit i (run_worker worker) (with_file file_path eff w))
  | Some (PlayTask voice text volume speed noise noise_w normalize as t,
          Started) =>
      let w := emit i [Emit_status (py "Playing...")] w in
      match synthesize_to_audio_array voice text volume speed noise noise_w
              normalize with
      | Raise e => set_pc i t Done (emit i (play_except e) w)
      | Ret (None, _, status) =>
          set_pc i t Done (emit i [Emit_finished (BoolMsg false status)] w)
      | Ret (Some audio, sample_rate, _) =>
          let '(a, calls, r) :=
            AudioPlayer_play audio sample_rate (audio_player (win w)) in
          let w := with_sd_calls calls (with_win (set_audio_player a) w) in
          match r with
          | Ret _ => set_pc i t Waiting w
          | Raise e => set_pc i t Done (emit i (play_except e) w)
          end
      end
  | Some (PlayTask _ _ _ _ _ _ _ as t, Waiting) =>
      let '(a, calls, r) := AudioPlayer_wait (audio_player (win w)) in
      let w := with_sd_calls calls (with_win (set_audio_player a) w) in
      match r with
      | Ret stopped =>
          let message :=
            if stopped then py "Stopped" else py "Playback complete" in
          set_pc i t Done
            (emit i [Emit_finished (BoolMsg stopped message)] w)
      | Raise e => set_pc i t Done (emit i (play_except e) w)
      end
  | _ => w
  end.

(** *** Signals and slots *)

(** The slot connected to the signal of [e] by the method that started a
    thread on [t]; nothing is ever connected to [error]. *)
Definition slot (t : Task) (e : Emission) : option (World -> World) :=
  match t, e with
  | LoadTask _ _, Emit_finished r => Some (_on_model_loaded r)
  | DownloadTask _, Emit_finished r => Some (_on_download_complete r)
  | ExportTask _ _ _ _ _ _ _ _, Emit_finished (BoolMsg _ message) =>
      Some (_set_status message)
  | PlayTask _ _ _ _ _ _ _, Emit_status msg => Some (_set_status msg)
  | PlayTask _ _ _ _ _ _ _, Emit_finished r => Some (_on_playback_complete r)
  | _, _ => None
  end.

(** The event loop takes the oldest emission and runs its slot. *)
Definition deliver (w : World) : World :=
  match queue w with
  | [] => w
  | (i, e) :: q =>
      let w := with_queue (fun _ => q) w in
      match nth_error (threads w) i with
      | Some (t, _) =>
          match slot t e with
          | Some f => f w
          | None => w
          end
      | None => w
      end
  end.

(** *** The save dialog of [_export_wav] *)

(** What happens while a modal dialog is open: the window takes no
    command, but threads run and the event loop of the dialog delivers the
    signals that are queued. *)
Inductive Meanwhile :=
| ThreadRuns (i : nat)
| SignalDelivered.

Definition meanwhile_step (s : Meanwhile) (w : World) : World :=
  match s with
  | ThreadRuns i => run_thread i w
  | SignalDelivered => deliver w
  end.

Fixpoint meanwhile (steps : list Meanwhile) (w : World) : World :=
  match steps with
  | [] => w
  | s :: steps' => meanwhile steps' (meanwhile_step s w)
  end.

(** [during]: what happens while [QFileDialog.getSaveFileName] is open;
    [file_path]: its answer, empty when cancelled.  The voice is tested
    and the text is read before the dialog; the voice for the task and the
    controls are read after it. *)
Definition _export_wav (during : list Meanwhile) (file_path : str)
    (w : World) : World :=
  match voice (win w) with
  | None => _set_status (py "Load a voice model first") w
  | Some _ =>
      match strip (text_edit (win w)) with
      | [] => _set_status (py "Enter text to speak") w
      | (_ :: _) as text =>
          let w := meanwhile during w in
          match file_path with
          | [] => w
          | _ :: _ =>
              let w := _set_status (py "Generating WAV...") w in
              let m := win w in
              Thread_start
                (ExportTask (voice m) text file_path
                   (value (volume m)) (value (speed m)) (value (noise m))
                   (value (noise_w m)) (normalize m)) w
          end
      end
  end.

(** An emission is a terminal result for the interactive thread when it is
    a [finished] that a slot receives. *)
Definition is_terminal (t : Task) (e : Emission) : bool :=
  match e, slot t e with
  | Emit_finished _, Some _ => true
  | _, _ => false
  end.

Definition terminal_results (t : Task) (ems : list Emission) : nat :=
  List.length (filter (is_terminal t) ems).

(** *** What can happen next *)

Inductive Action :=
| model_combo_currentTextChanged (model_name : str)
| cuda_checkbox_stateChanged (checked : bool)
| refresh_btn_clicked
| dl_btn_clicked (voice_id : str) (ok : bool)
| export_btn_clicked (during : list Meanwhile) (file_path : str)
| play_btn_clicked
| close_window
| Edit (e : UiEdit)
| Run (i : nat)
| Deliver.

Definition do_action (a : Action) (w : World) : World :=
  match a with
  | model_combo_currentTextChanged model_name =>
      _on_model_changed model_name
        (with_win (fun m => set_model_combo (model_items m) model_name m) w)
  | cuda_checkbox_stateChanged checked => _on_cuda_toggled checked w
  | refresh_btn_clicked => _refresh_models w
  | dl_btn_clicked voice_id ok => _download_voice voice_id ok w
  | export_btn_clicked during file_path => _export_wav during file_path w
  | play_btn_clicked => _play_stop w
  | close_window => closeEvent w
  | Edit e => with_win (edit e) w
  | Run i => run_thread i w
  | Deliver => deliver w
  end.

Fixpoint run (acts : list Action) (w : World) : World :=
  match acts with
  | [] => w
  | a :: acts' => run acts' (do_action a w)
  end.

(** *** Runs that differ in the controls only *)




(** *** Overlapping load requests *)

(** The load requests [names] are made, one after the other; the threads
    then complete in the order [order]; the event loop then delivers what
    they emitted. *)
Definition load_scenario (names : list str) (order : list nat)
  : list Action :=
  map model_combo_currentTextChanged names
  ++ map Run order
  ++ repeat Deliver (List.length order).

(** What the design document says the current voice is once the requests
    [names], made in this order, have all completed: the result of the
    last of them that succeeded, and the voice [before] them when none
    did.  This follows the document, not the code. *)
Definition spec_current_voice (use_cuda : bool) (before : option PiperVoice)
    (names : list str) : option PiperVoice :=
  fold_left
    (fun current name =>
       match snd (load_voice_model name use_cuda) with
       | Ret (Some v, _) => Some v
       | _ => current
       end)
    names before.

End Window.

(** ** A small concrete platform

    Two complete models ([a.onnx], [b.onnx]), one without its config
    ([c.onnx]) and one whose name is so long that the name of its config
    exceeds the 255 bytes a file name may have, so that [stat] on it fails
    with [ENAMETOOLONG], which [Path.exists] does not swallow. *)

Module Demo.

Definition slash : N := 47%N.

(** The part of a path after its last slash. *)
Fixpoint basename_from (acc rest : str) : str :=
  match rest with
  | [] => acc
  | c :: rest' =>
      if N.eqb c slash then basename_from [] rest'
      else basename_from (acc ++ [c]) rest'
  end.

Definition basename (p : str) : str := basename_from [] p.

Definition long_name : str := repeat 97%N 250 ++ py ".onnx".

Definition entries : list str :=
  [py "b.onnx"; py "a.onnx.json"; py "a.onnx"; py "notes.txt";
   py "b.onnx.json"; py "c.onnx"; long_name].

Definition exists_on_disk (p : str) : Res bool :=
  if Nat.ltb 255 (List.length (basename p)) then
    Raise (Exception (py "[Errno 36] File name too long"))
  else Ret (in_list p (map (fun n => py "models/" ++ n) entries)).

(** A model is the path it was loaded from; text of [n] characters gives
    [n] samples, scaled by the volume, at 22050 Hz. *)
Definition synthesize (voice text : str) (cfg : SynthesisConfig Z)
  : list WaveCall * option Exc :=
  ([setframerate 22050; setsampwidth 2; setnchannels 1;
    writeframes
      (List.concat
         (map (fun c => le_bytes 2 (Z.of_N c * cfg_volume cfg)) text))],
   None).

#[local] Instance platform : Platform := {|
  PiperVoice := str;
  Path := str;
  float := Z;
  fadd := Z.add;
  fmul := Z.mul;
  float_of_int := fun n => n;
  MODELS_DIR := py "models";
  Path_of := fun s => s;
  joinpath := fun d n => d ++ [slash] ++ n;
  Path_suffix := fun p => if endswith p (py ".onnx") then py ".onnx" else [];
  Path_with_suffix := fun p suf =>
    Ret ((if endswith p (py ".onnx")
          then firstn (List.length p - 5) p else p) ++ suf);
  Path_name := basename;
  Path_str := fun p => p;
  Path_exists := exists_on_disk;
  MODELS_DIR_entries := entries;
  open_wb := fun _ => Ret tt;
  ort_providers := Some [py "CPUExecutionProvider"];
  PiperVoice_load := fun model_path _ _ => Ret model_path;
  voice_sample_rate := fun _ => Some 22050;
  synthesize_wav := synthesize;
  piper_dl_main := fun g =>
    {| main_globals := g; main_printed := []; main_result := Ret tt |};
  sd_play := fun _ _ => Ret tt;
  sd_wait := Ret tt;
|}.

Definition a_slider (pos : Z) : FloatSlider :=
  {| min_val := 0; step := 1; slider := pos |}.

Definition globals : SysGlobals :=
  {| sys_argv := [py "app.py"];
     sys_stdout := FileStream 1; sys_stderr := FileStream 2 |}.

(** The application right after start: the load of the first model of
    the list is thread 0. *)
Definition started : World :=
  MainWindow_init (a_slider 1) (a_slider 1) (a_slider 1) (a_slider 1)
    globals.

(** The same once that load is over and its result was delivered. *)
Definition ready : World := run [Run 0%nat; Deliver] started.

(** A platform whose models directory holds no model. *)
Definition no_models : Platform := {|
  PiperVoice := str;
  Path := str;
  float := Z;
  fadd := Z.add;
  fmul := Z.mul;
  float_of_int := fun n => n;
  MODELS_DIR := py "models";
  Path_of := fun s => s;
  joinpath := fun d n => d ++ [slash] ++ n;
  Path_suffix := fun _ => [];
  Path_with_suffix := fun p suf => Ret (p ++ suf);
  Path_name := basename;
  Path_str := fun p => p;
  Path_exists := fun _ => Ret false;
  MODELS_DIR_entries := [py "notes.txt"];
  open_wb := fun _ => Ret tt;
  ort_providers := None;
  PiperVoice_load := fun model_path _ _ => Ret model_path;
  voice_sample_rate := fun _ => None;
  synthesize_wav := synthesize;
  piper_dl_main := fun g =>
    {| main_globals := g; main_printed := []; main_result := Ret tt |};
  sd_play := fun _ _ => Ret tt;
  sd_wait := Ret tt;
|}.

End Demo.

(** ** More of [functions.py] and of [MainWindow] *)

Section CopyModels.
Context {P : Platform}.

(** The file system as [shutil.copy2] sees and changes it. *)
Variable FS : Type.
Variable copy2 : FS -> str -> Path -> Res unit * FS.

(** [copy_model_files]: the loop, with the copies attempted so far (source
    and destination), the count and the file system.  An exception that is
    not an [Exception] ends the loop and the call. *)
Fixpoint copy_loop (file_paths : list str) (copied : Z) (fs : FS)
  : list (str * Path) * Res Z * FS :=
  match file_paths with
  | [] => ([], Ret copied, fs)
  | src :: rest =>
      let dst := joinpath MODELS_DIR (Path_name (Path_of src)) in
      match copy2 fs src dst with
      | (Ret _, fs') =>
          let '(calls, r, fs'') := copy_loop rest (copied + 1) fs' in
          ((src, dst) :: calls, r, fs'')
      | (Raise (Exception _), fs') =>
          let '(calls, r, fs'') := copy_loop rest copied fs' in
          ((src, dst) :: calls, r, fs'')
      | (Raise e, fs') => ([(src, dst)], Raise e, fs')
      end
  end.

Definition copy_model_files (file_paths : list str) (fs : FS)
  : list (str * Path) * Res Z * FS :=
  copy_loop file_paths 0 fs.

End CopyModels.

Section PlayerCalls.
Context {P : Platform}.

(** A call of a method of [AudioPlayer]. *)
Inductive PlayerCall :=
| Call_play (audio_data : list Z) (sample_rate : Z)
| Call_stop
| Call_wait.

(** The player and the device calls made so far, after one more call. *)
Definition player_call (c : PlayerCall) (st : AudioPlayer * list SdCall)
  : AudioPlayer * list SdCall :=
  let (self, calls) := st in
  match c with
  | Call_play audio_data sample_rate =>
      let '(self', cs, _) := AudioPlayer_play audio_data sample_rate self in
      (self', calls ++ cs)
  | Call_stop =>
      let (self', cs) := AudioPlayer_stop self in (self', calls ++ cs)
  | Call_wait =>
      let '(self', cs, _) := AudioPlayer_wait self in (self', calls ++ cs)
  end.

Definition player_calls (cs : list PlayerCall)
    (st : AudioPlayer * list SdCall) : AudioPlayer * list SdCall :=
  fold_left (fun st c => player_call c st) cs st.

Definition is_SdPlay (c : SdCall) : bool :=
  match c with SdPlay _ _ => true | _ => false end.

Definition is_SdStop (c : SdCall) : bool :=
  match c with SdStop => true | _ => false end.

(** [MainWindow._clear_log] *)
Definition _clear_log (w : World) : World :=
  with_win (fun m =>
    {| voice := voice m; audio_player := audio_player m;
       use_cuda := use_cuda m;
       model_items := model_items m; model_current := model_current m;
       text_edit := text_edit m; volume := volume m; speed := speed m;
       noise := noise m; noise_w := noise_w m; normalize := normalize m;
       status_label := status_label m; log := [];
       play_btn := play_btn m |}) w.

(** The label shows the last line of the log, when the log has one. *)
Definition status_shown (w : World) : Prop :=
  log (win w) = [] \/ last (log (win w)) [] = status_label (win w).

Definition is_finished (e : Emission) : bool :=
  match e with Emit_finished _ => true | _ => false end.

(** The step a thread is at, [None] when there is no such thread. *)
Definition pc_of (i : nat) (w : World) : option Pc :=
  option_map snd (nth_error (threads w) i).

End PlayerCalls.

Section Runs.
Context {P : Platform}.

(** Every thread of [w] is still there in [w'], at the same index and on
    the same closure, and is over in [w'] when it was over in [w]. *)
Definition tasks_kept (w w' : World) : Prop :=
  forall j t pc,
    nth_error (threads w) j = Some (t, pc) ->
    exists pc',
      nth_error (threads w') j = Some (t, pc') /\ (pc = Done -> pc' = Done).

(** What a step of thread [i] adds to the queue of signals. *)
Definition emitted_by_thread (i : nat) (w : World) : list (nat * Emission) :=
  skipn (List.length (queue w)) (queue (run_thread i w)).

(** What is emitted while a dialog is open. *)
Fixpoint emitted_during (steps : list Meanwhile) (w : World)
  : list (nat * Emission) :=
  match steps with
  | [] => []
  | s :: steps' =>
      match s with
      | ThreadRuns i => emitted_by_thread i w
      | SignalDelivered => []
      end ++ emitted_during steps' (meanwhile_step s w)
  end.

(** What a step adds to the queue of signals: only a thread emits, on its
    own or while the save dialog of an export is open. *)
Definition emitted_by_step (a : Action) (w : World) : list (nat * Emission) :=
  match a with
  | Run i => emitted_by_thread i w
  | export_btn_clicked during _ =>
      match voice (win w), strip (text_edit (win w)) with
      | Some _, _ :: _ => emitted_during during w
      | _, _ => []
      end
  | _ => []
  end.

(** All the emissions of a run, in order, delivered or not. *)
Fixpoint emitted (acts : list Action) (w : World) : list (nat * Emission) :=
  match acts with
  | [] => []
  | a :: acts' => emitted_by_step a w ++ emitted acts' (do_action a w)
  end.

(** The [finished] emissions of thread [i] among [ems]. *)
Definition finished_of (i : nat) (ems : list (nat * Emission))
  : list (nat * Emission) :=
  filter (fun ke => Nat.eqb (fst ke) i && is_finished (snd ke)) ems.

End Runs.

(** ** Further concrete platforms *)

Module Cases.

(** As [Demo.platform], but for the engine, the audio device and the
    downloader. *)
Definition variant
    (syn : str -> str -> SynthesisConfig Z -> list WaveCall * option Exc)
    (play : list Z -> Z -> Res unit)
    (dl : SysGlobals -> MainRun) : Platform := {|
  PiperVoice := str;
  Path := str;
  float := Z;
  fadd := Z.add;
  fmul := Z.mul;
  float_of_int := fun n => n;
  MODELS_DIR := py "models";
  Path_of := fun s => s;
  joinpath := fun d n => d ++ [Demo.slash] ++ n;
  Path_suffix := fun p => if endswith p (py ".onnx") then py ".onnx" else [];
  Path_with_suffix := fun p suf =>
    Ret ((if endswith p (py ".onnx")
          then firstn (List.length p - 5) p else p) ++ suf);
  Path_name := Demo.basename;
  Path_str := fun p => p;
  Path_exists := Demo.exists_on_disk;
  MODELS_DIR_entries := Demo.entries;
  open_wb := fun _ => Ret tt;
  ort_providers := Some [py "CPUExecutionProvider"];
  PiperVoice_load := fun model_path _ _ => Ret model_path;
  voice_sample_rate := fun _ => Some 22050;
  synthesize_wav := syn;
  piper_dl_main := dl;
  sd_play := play;
  sd_wait := Ret tt;
|}.

Definition quiet_download (g : SysGlobals) : MainRun :=
  {| main_globals := g; main_printed := []; main_result := Ret tt |}.

(** The engine finds nothing to say and writes nothing. *)
Definition silent : Platform :=
  variant (fun _ _ _ => ([], None)) (fun _ _ => Ret tt) quiet_download.

(** The audio device refuses to play. *)
Definition no_device : Platform :=
  variant Demo.synthesize
    (fun _ _ => Raise (Exception (py "Error opening OutputStream")))
    quiet_download.

(** The downloader prints a message, leaves [sys.argv] changed and exits
    with status 1. *)
Definition failing_download : Platform :=
  variant Demo.synthesize (fun _ _ => Ret tt)
    (fun g =>
       {| main_globals :=
            {| sys_argv := []; sys_stdout := sys_stdout g;
               sys_stderr := sys_stderr g |};
          main_printed := py "  No such voice  ";
          main_result := Raise (SystemExit (CodeInt 1)) |}).

(** Engines that write like piper: two chunks, three bytes in all. *)
Definition odd_chunks : list bytes :=
  [ [Byte.x01; Byte.x00]; [Byte.xff] ].

Definition odd_engine : Platform :=
  variant (fun _ _ _ => (piper_calls 22050 odd_chunks, None))
    (fun _ _ => Ret tt) quiet_download.

Definition even_chunks : list bytes :=
  [ [Byte.x01; Byte.x00]; [Byte.xff; Byte.xff] ].

Definition even_engine : Platform :=
  variant (fun _ _ _ => (piper_calls 22050 even_chunks, None))
    (fun _ _ => Ret tt) quiet_download.

(** The application on each of these platforms, started and with the
    first model loaded. *)
Definition ready_on (syn : str -> str -> SynthesisConfig Z
                           -> list WaveCall * option Exc)
    (play : list Z -> Z -> Res unit) (dl : SysGlobals -> MainRun) : World :=
  let s := @Build_FloatSlider (variant syn play dl) 0 1 1 in
  @run (variant syn play dl) [Run 0%nat; Deliver]
    (@MainWindow_init (variant syn play dl) s s s s Demo.globals).

(** A file system for [copy_model_files]: the set of names present; a
    copy fails when the source is missing. *)
Definition copy2 (fs : list str) (src dst : str) : Res unit * list str :=
  if in_list src fs then (Ret tt, dst :: fs)
  else (Raise (Exception (py "[Errno 2] No such file or directory")), fs).

End Cases.

(** * Properties *)

Arguments py : simpl never.

(** Case analysis on the first [match] of the goal. *)
Ltac break_match :=
  match goal with
  | |- context [match ?x with _ => _ end] => destruct x eqn:?
  end.

(** ** Strings and lists *)

Lemma str_eqb_eq (a b : str) : str_eqb a b = true <-> a = b.
Proof.
  revert b; induction a as [|x a IH]; intros [|y b]; simpl;
    try (split; congruence).
  rewrite andb_true_iff, N.eqb_eq, IH. split.
  - intros [-> ->]; reflexivity.
  - intros H; injection H; auto.
Qed.

Lemma str_eqb_refl (a : str) : str_eqb a a = true.
Proof. apply str_eqb_eq; reflexivity. Qed.

Lemma insert_sorted_not_nil (x : str) (l : list str) :
  insert_sorted x l <> [].
Proof. destruct l as [|y l]; simpl; [|destruct (str_leb x y)]; discriminate. Qed.

Lemma sorted_nil (l : list str) : sorted l = [] -> l = [].
Proof.
  destruct l as [|x l]; simpl; [reflexivity|].
  intros H; destruct (insert_sorted_not_nil _ _ H).
Qed.

Lemma filter_none {A} (f : A -> bool) (l : list A) :
  (forall x, In x l -> f x = false) -> filter f l = [].
Proof.
  induction l as [|x l IH]; simpl; intros H; [reflexivity|].
  rewrite (H x (or_introl eq_refl)). apply IH; auto.
Qed.

Lemma nth_error_app_last {A} (l : list A) (x : A) :
  nth_error (l ++ [x]) (List.length l) = Some x.
Proof. induction l; simpl; auto. Qed.

Lemma set_nth_app_last {A} (l : list A) (x y : A) :
  set_nth (List.length l) y (l ++ [x]) = l ++ [y].
Proof. induction l; simpl; congruence. Qed.

(** ** [struct], [wave] and [frombuffer] *)

Arguments byte_of_Z : simpl never.
Arguments Z_of_byte : simpl never.

Lemma Z_of_byte_of_Z (n : Z) : Z_of_byte (byte_of_Z n) = n mod 256.
Proof.
  unfold Z_of_byte, byte_of_Z.
  assert (H : 0 <= n mod 256 < 256) by (apply Z.mod_pos_bound; lia).
  destruct (Byte.of_N (Z.to_N (n mod 256))) as [c|] eqn:E.
  - apply Byte.to_of_N in E. rewrite E. apply Z2N.id. lia.
  - apply Byte.of_N_None_iff in E. lia.
Qed.

Lemma le_value_le_bytes (k : nat) :
  forall n, le_value (le_bytes k n) = n mod 256 ^ Z.of_nat k.
Proof.
  induction k as [|k IH]; intros n.
  - simpl. rewrite Z.mod_1_r. reflexivity.
  - cbn [le_bytes le_value]. rewrite Z_of_byte_of_Z, IH.
    rewrite Nat2Z.inj_succ, Z.pow_succ_r by lia.
    rewrite Z.rem_mul_r by lia. reflexivity.
Qed.

Lemma le_value_4 (n : Z) :
  0 <= n < 4294967296 -> le_value (le_bytes 4 n) = n.
Proof. intros H. rewrite le_value_le_bytes. apply Z.mod_small. simpl. lia. Qed.

Lemma le_value_2 (n : Z) :
  0 <= n < 65536 -> le_value (le_bytes 2 n) = n.
Proof. intros H. rewrite le_value_le_bytes. apply Z.mod_small. simpl. lia. Qed.

Lemma riff_header_length (nch sw rate len : Z) :
  List.length (riff_header nch sw rate len) = 44%nat.
Proof. reflexivity. Qed.


Lemma firstn_app_exact {A} (x y : list A) (n : nat) :
  List.length x = n -> firstn n (x ++ y) = x.
Proof.
  intros <-. rewrite firstn_app, firstn_all, Nat.sub_diag. simpl.
  apply app_nil_r.
Qed.

Lemma skipn_app_exact {A} (x y : list A) (n : nat) :
  List.length x = n -> skipn n (x ++ y) = y.
Proof.
  intros <-. rewrite skipn_app, skipn_all, Nat.sub_diag. reflexivity.
Qed.

Lemma le_value_2_cons (n : Z) :
  0 <= n < 65536 -> le_value [byte_of_Z n; byte_of_Z (n / 256)] = n.
Proof. exact (@le_value_2 n). Qed.

Lemma le_value_4_cons (n : Z) :
  0 <= n < 4294967296 ->
  le_value [byte_of_Z n; byte_of_Z (n / 256); byte_of_Z (n / 256 / 256);
            byte_of_Z (n / 256 / 256 / 256)] = n.
Proof. exact (@le_value_4 n). Qed.

(** The [fmt] chunk [Wave_write] writes is read back as it was set. *)
Lemma read_fmt_chunk_written (nch sw rate : Z) :
  1 <= nch < 65536 -> 1 <= sw <= 4 -> 0 <= rate < 4294967296 ->
  _read_fmt_chunk (fmt_body nch sw rate)
  = Ret {| fmt_nchannels := nch; fmt_framerate := rate;
           fmt_sampwidth := sw |}.
Proof.
  intros Hn Hs Hr. unfold _read_fmt_chunk, fmt_body.
  cbn [le_bytes app firstn skipn List.length Nat.ltb Nat.leb].
  rewrite !le_value_2_cons, le_value_4_cons by lia.
  cbn [Z.eqb Pos.eqb].
  replace ((sw * 8 + 7) / 8) with sw by (apply Z.div_unique with 7; lia).
  destruct (sw =? 0) eqn:E1; [apply Z.eqb_eq in E1; lia|].
  destruct (nch =? 0) eqn:E2; [apply Z.eqb_eq in E2; lia|].
  reflexivity.
Qed.

Arguments b : simpl never.
Arguments le_bytes : simpl never.

(** One turn of the loop of [initfp]: a chunk is met. *)
Lemma read_chunks_step (fuel : nat) (name rest : bytes) (size : Z)
    (fmt : option fmt_chunk) :
  List.length name = 4%nat -> 0 <= size < 4294967296 ->
  read_chunks (S fuel) (name ++ le_bytes 4 size ++ rest) fmt
  = let chunksize := Z.to_nat size in
    let next := skipn (chunksize + Nat.modulo chunksize 2) rest in
    if bytes_eqb name (b "fmt ") then
      f <~ _read_fmt_chunk (firstn chunksize rest) ;;
      read_chunks fuel next (Some f)
    else if bytes_eqb name (b "data") then
      match fmt with
      | None => Raise (wave_Error "data chunk before fmt chunk")
      | Some f =>
          Ret {| rd_nchannels := fmt_nchannels f;
                 rd_framerate := fmt_framerate f;
                 rd_sampwidth := fmt_sampwidth f;
                 rd_nframes :=
                   Z.of_nat chunksize / (fmt_nchannels f * fmt_sampwidth f);
                 rd_data_chunk := firstn chunksize rest |}
      end
    else read_chunks fuel next fmt.
Proof.
  intros Hname Hsize. cbn [read_chunks].
  assert (Hlen : Nat.ltb (List.length (name ++ le_bytes 4 size ++ rest)) 8
                 = false).
  { apply Nat.ltb_ge. rewrite !length_app, Hname.
    change (List.length (le_bytes 4 size)) with 4%nat. lia. }
  rewrite Hlen.
  rewrite (@firstn_app_exact _ name _ 4 Hname).
  rewrite (@skipn_app_exact _ name _ 4 Hname).
  rewrite (@firstn_app_exact _ (le_bytes 4 size) rest 4) by reflexivity.
  rewrite le_value_4 by exact Hsize.
  replace (skipn 8 (name ++ le_bytes 4 size ++ rest)) with rest.
  - reflexivity.
  - rewrite app_assoc. symmetry. apply skipn_app_exact.
    rewrite length_app, Hname. reflexivity.
Qed.

(** A file as [Wave_write] leaves it is opened again. *)
Lemma Wave_read_open_written (nch sw rate : Z) (data : bytes) :
  1 <= nch < 65536 -> 1 <= sw <= 4 -> 0 <= rate < 4294967296 ->
  36 + Z_len data < 4294967296 ->
  Wave_read_open (riff_header nch sw rate (Z_len data) ++ data)
  = Ret {| rd_nchannels := nch; rd_framerate := rate; rd_sampwidth := sw;
           rd_nframes := Z_len data / (nch * sw); rd_data_chunk := data |}.
Proof.
  intros Hn Hs Hr Hd. unfold Wave_read_open, riff_header.
  assert (Hpos : 0 <= Z_len data) by (unfold Z_len; lia).
  rewrite <- !app_assoc.
  set (body := b "WAVE" ++ b "fmt " ++ le_bytes 4 16 ++ fmt_body nch sw rate
               ++ b "data" ++ le_bytes 4 (Z_len data) ++ data).
  assert (Hbody : List.length body = Z.to_nat (36 + Z_len data)).
  { unfold body, fmt_body. rewrite !length_app.
    change (List.length (b "WAVE")) with 4%nat.
    change (List.length (b "fmt ")) with 4%nat.
    change (List.length (b "data")) with 4%nat.
    change (List.length (le_bytes 4 16)) with 4%nat.
    change (List.length (le_bytes 2 1)) with 2%nat.
    change (List.length (le_bytes 2 nch)) with 2%nat.
    change (List.length (le_bytes 4 rate)) with 4%nat.
    change (List.length (le_bytes 4 (nch * rate * sw))) with 4%nat.
    change (List.length (le_bytes 2 (nch * sw))) with 2%nat.
    change (List.length (le_bytes 2 (sw * 8))) with 2%nat.
    change (List.length (le_bytes 4 (Z_len data))) with 4%nat.
    unfold Z_len. lia. }
  assert (Hlen : Nat.ltb (List.length
                            (b "RIFF" ++ le_bytes 4 (36 + Z_len data) ++ body))
                         8 = false).
  { apply Nat.ltb_ge. rewrite !length_app.
    change (List.length (b "RIFF")) with 4%nat.
    change (List.length (le_bytes 4 (36 + Z_len data))) with 4%nat. lia. }
  rewrite Hlen.
  rewrite (@firstn_app_exact _ (b "RIFF") _ 4) by reflexivity.
  change (bytes_eqb (b "RIFF") (b "RIFF")) with true. cbn [negb].
  rewrite (@skipn_app_exact _ (b "RIFF") _ 4) by reflexivity.
  rewrite (@firstn_app_exact _ (le_bytes 4 (36 + Z_len data)) body 4)
    by reflexivity.
  rewrite le_value_4 by lia.
  replace (skipn 8 (b "RIFF" ++ le_bytes 4 (36 + Z_len data) ++ body))
    with body
    by (rewrite app_assoc; symmetry; apply skipn_app_exact; reflexivity).
  rewrite <- Hbody, firstn_all. rewrite Hbody. unfold body.
  rewrite (@firstn_app_exact _ (b "WAVE") _ 4) by reflexivity.
  change (bytes_eqb (b "WAVE") (b "WAVE")) with true. cbn [negb].
  rewrite (@skipn_app_exact _ (b "WAVE") _ 4) by reflexivity.
  rewrite read_chunks_step by (reflexivity || lia). cbv zeta.
  change (bytes_eqb (b "fmt ") (b "fmt ")) with true. cbv iota.
  change (Z.to_nat 16) with 16%nat.
  rewrite (@firstn_app_exact _ (fmt_body nch sw rate) _ 16)
    by reflexivity.
  rewrite read_fmt_chunk_written by assumption. cbn [rbind].
  change (16 + Nat.modulo 16 2)%nat with 16%nat.
  rewrite (@skipn_app_exact _ (fmt_body nch sw rate) _ 16)
    by reflexivity.
  replace (Z.to_nat (36 + Z_len data)) with (S (Z.to_nat (35 + Z_len data)))
    by lia.
  rewrite read_chunks_step by (reflexivity || lia). cbv zeta.
  change (bytes_eqb (b "data") (b "fmt ")) with false.
  change (bytes_eqb (b "data") (b "data")) with true. cbv iota.
  cbn [fmt_nchannels fmt_framerate fmt_sampwidth].
  unfold Z_len. rewrite !Nat2Z.id, firstn_all. reflexivity.
Qed.

Lemma pack_L_ok (n : Z) : 0 <= n < 4294967296 -> pack_L n = Ret (le_bytes 4 n).
Proof.
  intros H. unfold pack_L.
  destruct (0 <=? n) eqn:E1; [|apply Z.leb_gt in E1; lia].
  destruct (n <? 4294967296) eqn:E2; [|apply Z.ltb_ge in E2; lia].
  reflexivity.
Qed.

Lemma pack_H_ok (n : Z) : 0 <= n < 65536 -> pack_H n = Ret (le_bytes 2 n).
Proof.
  intros H. unfold pack_H.
  destruct (0 <=? n) eqn:E1; [|apply Z.leb_gt in E1; lia].
  destruct (n <? 65536) eqn:E2; [|apply Z.ltb_ge in E2; lia].
  reflexivity.
Qed.

Lemma Z_len_app (x y : bytes) : Z_len (x ++ y) = Z_len x + Z_len y.
Proof. unfold Z_len. rewrite length_app. lia. Qed.

Lemma Z_len_nonneg (x : bytes) : 0 <= Z_len x.
Proof. unfold Z_len. lia. Qed.

(** Patching the two lengths of a header gives the header of the new
    length. *)
Lemma riff_header_patch (rate len len' : Z) (data : bytes) :
  overwrite 40 (le_bytes 4 len')
    (overwrite 4 (le_bytes 4 (36 + len')) (riff_header 1 2 rate len ++ data))
  = riff_header 1 2 rate len' ++ data.
Proof. reflexivity. Qed.

Ltac wave_cbn :=
  cbn [Wave_write_init _nchannels _sampwidth _framerate _nframes
       _nframeswritten _datawritten _datalength _headerwritten _file
       rbind negb orb Z.eqb Z.ltb Z.compare Pos.compare Pos.compare_cont
       Pos.eqb].

(** The first [writeframes] after the format is set. *)
Lemma writeframes_first (rate : Z) (c : bytes) :
  0 < rate -> 2 * rate < 4294967296 -> 36 + Z_len c < 4294967296 ->
  exists w,
    do_calls [setframerate rate; setsampwidth 2; setnchannels 1;
              writeframes c] Wave_write_init = Ret w
    /\ written rate c w.
Proof.
  intros Hr Hr2 Hc. pose proof (Z_len_nonneg c) as Hpos.
  cbn [do_calls do_call]. unfold do_setframerate at 1. wave_cbn.
  destruct (rate <=? 0) eqn:E; [apply Z.leb_le in E; lia|]. wave_cbn.
  unfold do_setsampwidth, do_setnchannels. wave_cbn.
  unfold do_writeframes, writeframesraw, _ensure_header_written. wave_cbn.
  destruct (rate =? 0) eqn:E0; [apply Z.eqb_eq in E0; lia|].
  unfold _write_header, pack_header. wave_cbn.
  change (1 * 2) with 2. change (2 * 8) with 16.
  set (dl := Z_len c / 2 * 1 * 2).
  assert (Hdl : 0 <= dl <= Z_len c).
  { unfold dl. pose proof (Z.mul_div_le (Z_len c) 2).
    pose proof (Z.div_pos (Z_len c) 2). lia. }
  rewrite !pack_L_ok, !pack_H_ok by lia. wave_cbn.
  destruct (dl =? 0 + Z_len c) eqn:Edl.
  - apply Z.eqb_eq in Edl. wave_cbn.
    eexists. split; [reflexivity|].
    unfold written. wave_cbn.
    rewrite Edl. replace (0 + Z_len c) with (Z_len c) by lia.
    repeat split; try lia; reflexivity.
  - wave_cbn. unfold _patchheader. wave_cbn.
    rewrite Z.eqb_sym, Edl.
    rewrite !pack_L_ok by lia. wave_cbn.
    eexists. split; [reflexivity|].
    unfold written. wave_cbn.
    replace (0 + Z_len c) with (Z_len c) by lia.
    repeat split; try lia; try apply riff_header_patch.
Qed.

(** A further [writeframes]. *)
Lemma writeframes_more (rate : Z) (d c : bytes) (w : Wave_write) :
  written rate d w -> 36 + Z_len (d ++ c) < 4294967296 ->
  exists w', do_writeframes c w = Ret w' /\ written rate (d ++ c) w'.
Proof.
  intros H Hlen. destruct w as [nch sw fr nf nfw dw dl hw f].
  unfold written in H. cbn in H.
  destruct H as (-> & -> & -> & -> & -> & -> & ->).
  rewrite Z_len_app in *.
  pose proof (Z_len_nonneg d). pose proof (Z_len_nonneg c).
  unfold do_writeframes, writeframesraw, _ensure_header_written. wave_cbn.
  destruct (Z_len d =? Z_len d + Z_len c) eqn:E.
  - wave_cbn. eexists. split; [reflexivity|].
    unfold written. wave_cbn. apply Z.eqb_eq in E.
    assert (c = []) as ->.
    { destruct c; [reflexivity|]. unfold Z_len in E. simpl in E. lia. }
    rewrite !app_nil_r.
    repeat split; try lia; try reflexivity;
      try (rewrite <- app_assoc; reflexivity).
  - wave_cbn. unfold _patchheader. wave_cbn.
    rewrite Z.eqb_sym, E. rewrite !pack_L_ok by lia. wave_cbn.
    eexists. split; [reflexivity|].
    unfold written. wave_cbn. rewrite Z_len_app.
    repeat split; try lia;
      try (rewrite <- app_assoc; apply riff_header_patch).
Qed.

Lemma do_calls_writeframes (rate : Z) (chunks : list bytes) :
  forall (d : bytes) (w : Wave_write),
    written rate d w ->
    36 + Z_len (d ++ List.concat chunks) < 4294967296 ->
    exists w',
      do_calls (map writeframes chunks) w = Ret w'
      /\ written rate (d ++ List.concat chunks) w'.
Proof.
  induction chunks as [|c chunks IH]; intros d w H Hlen.
  - cbn [List.concat map do_calls]. rewrite app_nil_r. eauto.
  - cbn [List.concat map do_calls do_call] in Hlen |- *.
    rewrite app_assoc in Hlen |- *.
    destruct (@writeframes_more rate d c w H) as (w1 & Hw1 & H1).
    { rewrite !Z_len_app in Hlen. rewrite Z_len_app.
      pose proof (Z_len_nonneg (List.concat chunks)). lia. }
    rewrite Hw1. cbn [rbind]. apply IH; assumption.
Qed.

(** What piper's calls leave in the file. *)
Lemma with_wave_write_piper (rate : Z) (chunks : list bytes) :
  chunks <> [] ->
  0 < rate -> 2 * rate < 4294967296 ->
  36 + Z_len (List.concat chunks) < 4294967296 ->
  with_wave_write (piper_calls rate chunks, None)
  = Ret (riff_header 1 2 rate (Z_len (List.concat chunks))
         ++ List.concat chunks).
Proof.
  intros Hne Hr Hr2 Hlen. destruct chunks as [|c chunks]; [congruence|].
  unfold with_wave_write, piper_calls. cbn [fst snd].
  cbn [List.concat] in *.
  destruct (@writeframes_first rate c Hr Hr2) as (w1 & Hw1 & H1).
  { rewrite Z_len_app in Hlen.
    pose proof (Z_len_nonneg (List.concat chunks)). lia. }
  destruct (@do_calls_writeframes rate chunks c w1 H1 Hlen) as (w2 & Hw2 & H2).
  assert (Hcalls :
    do_calls ([setframerate rate; setsampwidth 2; setnchannels 1]
              ++ map writeframes (c :: chunks)) Wave_write_init = Ret w2).
  { cbn [app map do_calls] in Hw1 |- *.
    destruct (do_call (setframerate rate) Wave_write_init) as [s1|];
      [|discriminate]. cbn [rbind] in Hw1 |- *.
    destruct (do_call (setsampwidth 2) s1) as [s2|]; [|discriminate].
    cbn [rbind] in Hw1 |- *.
    destruct (do_call (setnchannels 1) s2) as [s3|]; [|discriminate].
    cbn [rbind] in Hw1 |- *.
    destruct (do_call (writeframes c) s3) as [s4|]; [|discriminate].
    cbn [rbind] in Hw1 |- *. injection Hw1 as ->. exact Hw2. }
  rewrite Hcalls.
  destruct w2 as [nch sw fr nf nfw dw dl hw f].
  unfold written in H2. cbn in H2.
  destruct H2 as (-> & -> & -> & -> & -> & -> & ->).
  unfold Wave_write_close, _ensure_header_written. wave_cbn.
  rewrite Z.eqb_refl. reflexivity.
Qed.

(** Reading back what piper's calls wrote: the samples written, at the
    rate set. *)
Lemma read_audio_written (rate : Z) (data : bytes) :
  0 <= rate < 4294967296 -> 36 + Z_len data < 4294967296 ->
  Nat.modulo (List.length data) 2 = 0%nat ->
  read_audio (riff_header 1 2 rate (Z_len data) ++ data)
  = Ret (int16_samples data, rate).
Proof.
  intros Hr Hlen Heven. unfold read_audio.
  rewrite Wave_read_open_written by lia. cbn [rbind].
  unfold readframes, getnframes, getframerate.
  cbn [rd_nframes rd_nchannels rd_sampwidth rd_data_chunk rd_framerate].
  change (1 * 2) with 2.
  assert (Hall : Z.to_nat (Z_len data / 2 * 2) = List.length data).
  { unfold Z_len.
    pose proof (Z.div_mod (Z.of_nat (List.length data)) 2) as Hdm.
    pose proof (Nat2Z.inj_mod (List.length data) 2) as Hmod.
    rewrite Heven in Hmod. change (Z.of_nat 2) with 2 in Hmod.
    change (Z.of_nat 0) with 0 in Hmod.
    replace (Z.of_nat (List.length data) / 2 * 2)
      with (Z.of_nat (List.length data)) by lia.
    apply Nat2Z.id. }
  rewrite Hall, firstn_all. unfold frombuffer_int16.
  rewrite Heven. reflexivity.
Qed.

Lemma int16_samples_length (data : bytes) :
  List.length (int16_samples data) = Nat.div (List.length data) 2.
Proof.
  assert (H : forall n (d : bytes), (List.length d <= n)%nat ->
            List.length (int16_samples d) = Nat.div (List.length d) 2).
  { induction n as [|n IH]; intros [|lo [|hi d]] Hd; try reflexivity.
    - simpl in Hd. lia.
    - cbn [int16_samples List.length]. rewrite IH by (simpl in Hd; lia).
      change (S (S (List.length d))) with (1 * 2 + List.length d)%nat.
      rewrite Nat.div_add_l by lia. reflexivity. }
  apply (H (List.length data)). lia.
Qed.

(** The round trip through the container, for audio as piper writes it:
    the file holds the header and the chunks, and it reads back as the
    samples of the chunks, half as many as there are bytes, at the rate
    that was set. *)
Lemma piper_wav_roundtrip (rate : Z) (chunks : list bytes) :
  chunks <> [] ->
  0 < rate -> 2 * rate < 4294967296 ->
  36 + Z_len (List.concat chunks) < 4294967296 ->
  Nat.modulo (List.length (List.concat chunks)) 2 = 0%nat ->
  exists file,
    with_wave_write (piper_calls rate chunks, None) = Ret file
    /\ read_audio file = Ret (int16_samples (List.concat chunks), rate).
Proof.
  intros Hne Hr Hr2 Hlen Heven. eexists. split.
  - apply with_wave_write_piper; assumption.
  - apply read_audio_written; [lia|assumption|assumption].
Qed.

(** ** [functions.py] *)

Section FunctionsFacts.
Context {P : Platform}.

(** Every name [list_models] reads from the directory ends in [.onnx], so
    none of them is the sentinel. *)
Lemma sentinel_is_no_model : ~ In (py "No models") glob_onnx_names.
Proof.
  unfold glob_onnx_names. rewrite filter_In. intros [_ H].
  vm_compute in H. discriminate.
Qed.

(** C9. [list_models] never returns an empty list; when no entry of the
    models directory is named [*.onnx] it returns exactly the one entry
    "No models"; and [load_voice_model] called with that name returns
    [(None, "No models found")] after no external call at all: no
    [exists] on a path and no [PiperVoice.load]. *)
Theorem list_models_sentinel (use_cuda : bool) :
  list_models <> []
  /\ ((forall n, In n MODELS_DIR_entries -> endswith n (py ".onnx") = false)
      -> list_models = [py "No models"])
  /\ load_voice_model (py "No models") use_cuda
     = ([], Ret (None, py "No models found")).
Proof.
  split; [|split].
  - unfold list_models. destruct (sorted glob_onnx_names); discriminate.
  - intros H. unfold list_models, glob_onnx_names.
    rewrite (filter_none _ _ H). reflexivity.
  - reflexivity.
Qed.

(** C10. Whatever [piper_dl.main] does and however it ends (return,
    [SystemExit] with any code, another exception, [KeyboardInterrupt]),
    [sys.argv], [sys.stdout] and [sys.stderr] are, after
    [download_voice_model], what they were before it. *)
Theorem download_restores_globals (voice_id : str) (fresh : nat)
    (g : SysGlobals) :
  snd (download_voice_model voice_id fresh g) = g.
Proof. destruct g; reflexivity. Qed.

(** The four ways out of [download_voice_model]. *)
Lemma download_paths (voice_id : str) (fresh : nat) (g : SysGlobals) :
  let run :=
    piper_dl_main
      {| sys_argv := [py "piper.download_voices"; voice_id; py "--data-dir";
                      Path_str MODELS_DIR];
         sys_stdout := StringIO fresh; sys_stderr := StringIO fresh |} in
  let r := fst (download_voice_model voice_id fresh g) in
  match main_result run with
  | Ret _ => r = Ret (true, py "Downloaded: " ++ voice_id)
  | Raise (SystemExit _) => exists ok msg, r = Ret (ok, msg)
  | Raise (Exception e) => r = Ret (false, py "Download error: " ++ e)
  | Raise KeyboardInterrupt => r = Raise KeyboardInterrupt
  end.
Proof.
  unfold download_voice_model; simpl.
  destruct (main_result _) as [u|[e|c|]]; simpl; auto.
  destruct c as [|n|[|c s]]; simpl; eauto.
  destruct (n =? 0); eauto.
Qed.

End FunctionsFacts.

(** ** [pyqt/window.py] *)

Section WindowFacts.
Context {P : Platform}.

Lemma load_failure_messages (model_name msg : str) (use_cuda : bool)
    (calls : list Call) :
  load_voice_model model_name use_cuda = (calls, Ret (None, msg)) ->
  msg = py "No models found"
  \/ msg = py "Model not found: " ++ model_name
  \/ (exists c, msg = py "Missing config: " ++ c)
  \/ (exists e, msg = py "Load error: " ++ e).
Proof.
  unfold load_voice_model, bind, lift, exists_, load, try_except, ret.
  destruct (str_eqb model_name (py "No models")).
  { intros H; injection H as _ <-; auto. }
  destruct (get_config_path _) as [cfg|e]; [|discriminate].
  destruct (Path_exists (joinpath _ _)) as [[|]|e]; simpl;
    [| intros H; injection H as _ <-; auto | discriminate].
  destruct (Path_exists cfg) as [[|]|e]; simpl;
    [| intros H; injection H as _ <-; eauto | discriminate].
  destruct (PiperVoice_load _ _ _) as [v|[e| |]]; simpl;
    try discriminate.
  intros H; injection H as _ <-; eauto.
Qed.

(** C2, as the code has it.  A load request whose [load_voice_model]
    returns no voice reports the failure message of that call as the
    status, and that message is one of "No models found",
    "Model not found: ...", "Missing config: ..." and "Load error: ...";
    the current voice is then [None], whatever it was before. *)
Theorem failed_load_clears_voice (w : World) (model_name msg : str)
    (calls : list Call) :
  queue w = [] ->
  load_voice_model model_name (use_cuda (win w)) = (calls, Ret (None, msg)) ->
  let w' :=
    run [model_combo_currentTextChanged model_name;
         Run (List.length (threads w)); Deliver] w in
  voice (win w') = None
  /\ status_label (win w') = msg
  /\ log (win w')
     = log (win w) ++ [py "Loading: " ++ model_name ++ py "..."; msg]
  /\ (msg = py "No models found"
      \/ msg = py "Model not found: " ++ model_name
      \/ (exists c, msg = py "Missing config: " ++ c)
      \/ (exists e, msg = py "Load error: " ++ e)).
Proof.
  intros Hq Hload.
  pose proof (load_failure_messages _ _ Hload) as Hmsg.
  cbv zeta. unfold run, do_action, _on_model_changed, Thread_start.
  unfold run_thread; simpl.
  rewrite nth_error_app_last, Hload; simpl.
  unfold deliver; simpl. rewrite Hq; simpl.
  rewrite set_nth_app_last, nth_error_app_last; simpl.
  rewrite <- app_assoc. auto.
Qed.

(** C6, as the code has it.  With the player idle, [AudioPlayer.stop]
    changes nothing and calls nothing, and so does [closeEvent];
    [_stop_playback] leaves the player, the device, the threads and the
    queue as they are, but it does report the status "Stopping...". *)
Theorem stop_playback_while_idle (w : World) :
  playing (audio_player (win w)) = false ->
  AudioPlayer_stop (audio_player (win w)) = (audio_player (win w), [])
  /\ closeEvent w = w
  /\ let w' := _stop_playback w in
     audio_player (win w') = audio_player (win w)
     /\ sd_calls w' = sd_calls w
     /\ threads w' = threads w
     /\ queue w' = queue w
     /\ files w' = files w
     /\ voice (win w') = voice (win w)
     /\ status_label (win w') = py "Stopping..."
     /\ log (win w') = log (win w) ++ [py "Stopping..."].
Proof.
  intros H. unfold closeEvent, _stop_playback, AudioPlayer_stop.
  rewrite H. destruct w as [m ts q sd fs g n]; destruct m; simpl.
  unfold with_sd_calls, with_win; simpl. rewrite app_nil_r. auto 12.
Qed.

(** While the player says it is playing, the play button stops: it starts
    no thread, and the one device call is [sd.stop()]. *)
Lemma play_stop_while_playing (w : World) :
  playing (audio_player (win w)) = true ->
  threads (_play_stop w) = threads w
  /\ sd_calls (_play_stop w) = sd_calls w ++ [SdStop]
  /\ playing (audio_player (win (_play_stop w))) = false.
Proof.
  intros H. unfold _play_stop, AudioPlayer_is_playing, _stop_playback,
    AudioPlayer_stop. rewrite H. simpl. auto.
Qed.

(** The play button pressed twice before the first thread has reached
    [AudioPlayer.play] starts two play threads. *)
Lemma play_stop_twice (w : World) (v : PiperVoice) :
  voice (win w) = Some v ->
  strip (text_edit (win w)) <> [] ->
  playing (audio_player (win w)) = false ->
  exists t,
    threads (_play_stop (_play_stop w))
    = threads w ++ [(t, Started); (t, Started)]
    /\ play_btn (win (_play_stop w)) = btn_stop.
Proof.
  intros Hv Ht Hp.
  unfold _play_stop, AudioPlayer_is_playing, _play_audio.
  rewrite Hp, Hv. destruct (strip (text_edit (win w))) as [|c t] eqn:E;
    [congruence|]. simpl. rewrite Hp, Hv, E. simpl.
  eexists. rewrite <- app_assoc. split; reflexivity.
Qed.

(** The three [run_worker]s that are alike deliver one terminal result
    when the body returns and none when it raises; the one of
    [_play_audio] delivers one when the body raises, too. *)
Lemma run_worker_returns (t : Task) (r : Payload) :
  slot t (Emit_finished r) <> None ->
  terminal_results t (run_worker (Ret r)) = 1%nat.
Proof.
  intros H. unfold terminal_results, run_worker, is_terminal; simpl.
  destruct (slot t (Emit_finished r)); [reflexivity|congruence].
Qed.

Lemma run_worker_raises (t : Task) (e : Exc) :
  terminal_results t (run_worker (Raise e)) = 0%nat.
Proof. destruct e, t; reflexivity. Qed.

Lemma play_except_delivers (voice : PiperVoice) (text msg : str)
    (volume speed noise noise_w : float) (normalize : bool) :
  terminal_results
    (PlayTask voice text volume speed noise noise_w normalize)
    (play_except (Exception msg)) = 1%nat.
Proof. reflexivity. Qed.

End WindowFacts.

(** *** Export *)

Section ExportFacts.
Context {P : Platform}.

Lemma synthesize_to_wav_result (v : option PiperVoice)
    (text file_path msg : str)
    (volume speed noise noise_w : float) (normalize ok : bool)
    (eff : FileEffect) :
  synthesize_to_wav v text file_path volume speed noise noise_w normalize
  = (Ret (ok, msg), eff) ->
  (ok = true /\ msg = py "Saved: " ++ Path_name (Path_of file_path)
   /\ exists content, eff = Written content)
  \/ (ok = false /\ (exists e, msg = py "Export error: " ++ e)
      /\ (eff = NotOpened \/ eff = Damaged)).
Proof.
  unfold synthesize_to_wav.
  destruct (open_wb file_path) as [u|[e| |]]; try discriminate.
  - destruct (with_wave_write _) as [content|[e| |]]; try discriminate;
      intros H; injection H as <- <- <-; [left|right];
      (split; [reflexivity|split]);
      first [reflexivity | eexists; reflexivity | auto].
  - intros H; injection H as <- <- <-; right.
    split; [reflexivity|split]; [eexists; reflexivity|auto].
Qed.

(** An export without a voice: the file is opened, the call on [None]
    raises, and closing the writer, which was told no format, raises in
    its place. *)
Lemma synthesize_to_wav_no_voice (text file_path : str)
    (volume speed noise noise_w : float) (normalize : bool) (u : unit) :
  open_wb file_path = Ret u ->
  synthesize_to_wav None text file_path volume speed noise noise_w normalize
  = (Ret (false, py "Export error: # channels not specified"), Damaged).
Proof. intros H. unfold synthesize_to_wav. rewrite H. reflexivity. Qed.

(** C7, as the code has it.  [_export_wav] with no voice, or with text
    that is empty once stripped, reports a validation message at once; a
    report starts no thread, queues nothing and writes no file.  With a
    voice and text it opens the save dialog; when the dialog is cancelled
    the method does nothing more.  Otherwise it reports
    "Generating WAV..." and starts one thread on [synthesize_to_wav], with
    the text read before the dialog and with the voice and the controls
    as they are when the dialog closes; when that call returns
    [(ok, msg)], running the thread and delivering its signal leaves [msg]
    as the status, which is "Saved: <name>" with the file written when
    [ok], and "Export error: ..." with no complete file otherwise.  The
    latter is what happens when a load that failed was delivered while
    the dialog was open: the export then runs without a voice. *)
Theorem export_wav_cases (w : World) (during : list Meanwhile)
    (file_path : str) :
  (voice (win w) = None ->
   _export_wav during file_path w
   = _set_status (py "Load a voice model first") w)
  /\ (voice (win w) <> None -> strip (text_edit (win w)) = [] ->
      _export_wav during file_path w
      = _set_status (py "Enter text to speak") w)
  /\ (forall msg,
        threads (_set_status msg w) = threads w
        /\ queue (_set_status msg w) = queue w
        /\ files (_set_status msg w) = files w)
  /\ (voice (win w) <> None -> strip (text_edit (win w)) <> [] ->
      file_path = [] -> _export_wav during file_path w = meanwhile during w)
  /\ (forall ok msg eff,
        voice (win w) <> None ->
        strip (text_edit (win w)) <> [] ->
        file_path <> [] ->
        let w0 := meanwhile during w in
        queue w0 = [] ->
        synthesize_to_wav (voice (win w0)) (strip (text_edit (win w)))
          file_path
          (value (volume (win w0))) (value (speed (win w0)))
          (value (noise (win w0))) (value (noise_w (win w0)))
          (normalize (win w0))
        = (Ret (ok, msg), eff) ->
        let w1 := _export_wav during file_path w in
        let w2 := run [Run (List.length (threads w0)); Deliver] w1 in
        status_label (win w1) = py "Generating WAV..."
        /\ threads w1
           = threads w0
             ++ [(ExportTask (voice (win w0)) (strip (text_edit (win w)))
                    file_path
                    (value (volume (win w0))) (value (speed (win w0)))
                    (value (noise (win w0))) (value (noise_w (win w0)))
                    (normalize (win w0)), Started)]
        /\ files w1 = files w0
        /\ status_label (win w2) = msg
        /\ files w2 = files w0 ++ [(file_path, eff)]
        /\ ((ok = true
             /\ msg = py "Saved: " ++ Path_name (Path_of file_path)
             /\ exists content, eff = Written content)
            \/ (ok = false /\ (exists e, msg = py "Export error: " ++ e)
                /\ (eff = NotOpened \/ eff = Damaged)))
        /\ (voice (win w0) = None ->
            ok = false
            /\ (eff = NotOpened
                \/ msg = py "Export error: # channels not specified"))).
Proof.
  unfold _export_wav.
  split; [intros ->; reflexivity|].
  split.
  { destruct (voice (win w)); [|congruence]. intros _ ->. reflexivity. }
  split; [intros msg; repeat split|].
  split.
  { destruct (voice (win w)); [|congruence].
    destruct (strip (text_edit (win w))); [congruence|].
    intros _ _ ->. reflexivity. }
  intros ok msg eff Hv Ht Hf.
  destruct (voice (win w)) as [v|]; [clear Hv|congruence].
  destruct (strip (text_edit (win w))) as [|c t] eqn:E;
    [congruence|]. destruct file_path as [|c' fp]; [congruence|].
  cbv zeta. set (w0 := meanwhile during w). intros Hq Hs.
  unfold run, do_action, run_thread, Thread_start; simpl.
  rewrite nth_error_app_last, Hs; simpl.
  unfold deliver; simpl. rewrite Hq; simpl.
  rewrite set_nth_app_last, nth_error_app_last; simpl.
  repeat (split; [reflexivity|]).
  split; [apply (synthesize_to_wav_result _ _ _ _ _ _ _ _ Hs)|].
  intros Hn. rewrite Hn in Hs. revert Hs.
  destruct (open_wb (c' :: fp)) as [u|[e| |]] eqn:Ho.
  - rewrite (@synthesize_to_wav_no_voice _ (c' :: fp) _ _ _ _ _ u Ho).
    intros H. injection H as <- <- _. auto.
  - unfold synthesize_to_wav. rewrite Ho.
    intros H. injection H as <- _ <-. auto.
  - unfold synthesize_to_wav. rewrite Ho. discriminate.
  - unfold synthesize_to_wav. rewrite Ho. discriminate.
Qed.

(** *** Values captured when a task is submitted *)

Lemma export_task_captures (w : World) (during : list Meanwhile)
    (file_path : str) :
  voice (win w) <> None ->
  strip (text_edit (win w)) <> [] ->
  file_path <> [] ->
  let w0 := meanwhile during w in
  nth_error (threads (_export_wav during file_path w))
    (List.length (threads w0))
  = Some (ExportTask (voice (win w0)) (strip (text_edit (win w))) file_path
            (value (volume (win w0))) (value (speed (win w0)))
            (value (noise (win w0))) (value (noise_w (win w0)))
            (normalize (win w0)), Started).
Proof.
  intros Hv Ht Hf. unfold _export_wav.
  destruct (voice (win w)); [|congruence].
  destruct (strip (text_edit (win w))); [congruence|].
  destruct file_path; [congruence|].
  unfold Thread_start; simpl. apply nth_error_app_last.
Qed.

Lemma play_task_captures (w : World) (v : PiperVoice) :
  voice (win w) = Some v ->
  strip (text_edit (win w)) <> [] ->
  nth_error (threads (_play_audio w)) (List.length (threads w))
  = Some (PlayTask v (strip (text_edit (win w)))
            (value (volume (win w))) (value (speed (win w)))
            (value (noise (win w))) (value (noise_w (win w)))
            (normalize (win w)), Started).
Proof.
  intros Hv Ht. unfold _play_audio. rewrite Hv.
  destruct (strip (text_edit (win w))); [congruence|].
  unfold Thread_start; simpl. apply nth_error_app_last.
Qed.








End ExportFacts.

(** *** Overlapping load requests *)

Section LoadFacts.
Context {P : Platform}.

Lemma run_app (acts1 acts2 : list Action) (w : World) :
  run (acts1 ++ acts2) w = run acts2 (run acts1 w).
Proof. revert w; induction acts1; simpl; auto. Qed.

Lemma nth_error_set_nth_other {A} (l : list A) (i j : nat) (x : A) :
  i <> j -> nth_error (set_nth i x l) j = nth_error l j.
Proof.
  revert i j; induction l as [|y l IH]; intros [|i] [|j] H; simpl; auto.
  congruence.
Qed.

Lemma nth_error_set_nth_same {A} (l : list A) (i : nat) (x y : A) :
  nth_error l i = Some y -> nth_error (set_nth i x l) i = Some x.
Proof.
  revert i; induction l as [|z l IH]; intros [|i]; simpl; auto; discriminate.
Qed.

(** The requests start one thread each, in order, and deliver nothing. *)
Lemma submit_loads (names : list str) :
  forall w,
    let w' := run (map model_combo_currentTextChanged names) w in
    threads w'
    = threads w
      ++ map (fun n => (LoadTask n (use_cuda (win w)), Started)) names
    /\ queue w' = queue w.
Proof.
  induction names as [|n names IH]; intros w; cbv zeta.
  - simpl. rewrite app_nil_r. auto.
  - change (run (map model_combo_currentTextChanged (n :: names)) w)
      with (run (map model_combo_currentTextChanged names)
              (do_action (model_combo_currentTextChanged n) w)).
    destruct (IH (do_action (model_combo_currentTextChanged n) w))
      as [Ht Hq].
    rewrite Ht, Hq. simpl. rewrite <- app_assoc. auto.
Qed.

(** One load thread runs: it ends, and what it emits is queued. *)
Lemma run_load_thread (w : World) (k : nat) (n : str) (c : bool) :
  nth_error (threads w) k = Some (LoadTask n c, Started) ->
  exists ems,
    run_thread k w = set_pc k (LoadTask n c) Done (emit k ems w)
    /\ (List.length ems <= 1)%nat
    /\ (forall v s, snd (load_voice_model n c) = Ret (v, s) ->
        ems = [Emit_finished (LoadResult v s)]).
Proof.
  intros H. unfold run_thread. rewrite H.
  eexists. split; [reflexivity|].
  destruct (snd (load_voice_model n c)) as [[v s]|[e| |]]; simpl;
    split; auto; intros; try discriminate.
  congruence.
Qed.

(** Load threads complete in some order: the window is untouched, every
    thread keeps its task, the other threads are where they were, and the
    queue grows by at most one emission per thread, each from one of
    them. *)
Lemma run_load_threads (order : list nat) :
  forall w,
    NoDup order ->
    (forall k, In k order ->
       exists n c, nth_error (threads w) k = Some (LoadTask n c, Started)) ->
    let w' := run (map Run order) w in
    win w' = win w
    /\ (forall j, ~ In j order ->
        nth_error (threads w') j = nth_error (threads w) j)
    /\ (forall j t pc, nth_error (threads w) j = Some (t, pc) ->
        exists pc', nth_error (threads w') j = Some (t, pc'))
    /\ exists q,
        queue w' = queue w ++ q
        /\ (List.length q <= List.length order)%nat
        /\ (forall ke, In ke q -> In (fst ke) order).
Proof.
  induction order as [|k order IH]; intros w Hnd Hall.
  - simpl. repeat split; eauto. exists []. rewrite app_nil_r.
    repeat split; auto.
  - inversion Hnd as [|? ? Hk Hnd']; subst.
    destruct (Hall k (or_introl eq_refl)) as (n & c & Hkth).
    destruct (run_load_thread _ _ Hkth) as (ems & Hrun & Hlen & _).
    simpl. rewrite Hrun.
    set (w1 := set_pc k (LoadTask n c) Done (emit k ems w)).
    assert (Hother : forall j, j <> k ->
              nth_error (threads w1) j = nth_error (threads w) j).
    { intros j Hj. unfold w1; simpl.
      apply nth_error_set_nth_other; congruence. }
    destruct (IH w1 Hnd') as (Hwin & Hout & Hkeep & q & Hq & Hqlen & Hqin).
    { intros k' Hk'. rewrite Hother; [|intros ->; contradiction].
      apply Hall; right; exact Hk'. }
    split; [rewrite Hwin; reflexivity|]. split; [|split].
    + intros j Hj. rewrite Hout; [|intros Hj'; apply Hj; right; exact Hj'].
      apply Hother. intros ->. apply Hj; left; reflexivity.
    + intros j t pc Hjth. destruct (Nat.eq_dec j k) as [->|Hjk].
      * rewrite Hkth in Hjth. injection Hjth as <- <-.
        apply Hkeep with (pc := Done). unfold w1; simpl.
        eapply nth_error_set_nth_same; eassumption.
      * apply Hkeep with (pc := pc). rewrite Hother; assumption.
    + exists (map (pair k) ems ++ q). split; [|split].
      * rewrite Hq. unfold w1; simpl. rewrite <- app_assoc. reflexivity.
      * rewrite length_app, length_map. simpl. lia.
      * intros ke Hin. apply in_app_or in Hin as [Hin|Hin].
        -- apply in_map_iff in Hin as (e & <- & _). left; reflexivity.
        -- right. apply Hqin; exact Hin.
Qed.

(** The event loop delivers an emission of a load thread: the threads
    stay, the emission leaves the queue, and a [finished] puts its voice
    in the slot and its status on the label. *)
Lemma deliver_load (w : World) (k : nat) (e : Emission)
    (q : list (nat * Emission)) (n : str) (c : bool) (pc : Pc) :
  queue w = (k, e) :: q ->
  nth_error (threads w) k = Some (LoadTask n c, pc) ->
  threads (deliver w) = threads w
  /\ queue (deliver w) = q
  /\ (forall v s, e = Emit_finished (LoadResult v s) ->
      voice (win (deliver w)) = v /\ status_label (win (deliver w)) = s).
Proof.
  intros Hq Hk. unfold deliver. rewrite Hq; simpl. rewrite Hk.
  destruct e as [[v s|ok msg]|msg|msg]; simpl;
    (split; [reflexivity|split; [reflexivity|]]);
    intros v' s' Heq; try discriminate Heq.
  injection Heq as <- <-. split; reflexivity.
Qed.

Lemma deliver_nothing (m : nat) (w : World) :
  queue w = [] -> run (repeat Deliver m) w = w.
Proof.
  intros H. induction m as [|m IH]; simpl; [reflexivity|].
  unfold deliver. rewrite H. exact IH.
Qed.

(** A queue of emissions of load threads that ends with a [finished] is
    delivered: what is left is the voice and the status of that last
    one. *)
Lemma deliver_loads (q : list (nat * Emission)) :
  forall (w : World) (last extra : nat) (v : option PiperVoice) (s : str),
    queue w = q ++ [(last, Emit_finished (LoadResult v s))] ->
    (forall ke, In ke (queue w) ->
       exists n c pc,
         nth_error (threads w) (fst ke) = Some (LoadTask n c, pc)) ->
    let w' := run (repeat Deliver (List.length q + 1 + extra)) w in
    voice (win w') = v /\ status_label (win w') = s /\ queue w' = [].
Proof.
  induction q as [|[k e] q IH]; intros w last extra v s Hq Hall.
  - simpl in Hq |- *.
    destruct (Hall (last, Emit_finished (LoadResult v s)))
      as (n & c & pc & Hth); [rewrite Hq; left; reflexivity|].
    destruct (deliver_load _ Hq Hth) as (_ & Hq' & Hv).
    rewrite (deliver_nothing _ _ Hq').
    destruct (Hv v s eq_refl); auto.
  - simpl in Hq.
    destruct (Hall (k, e)) as (n & c & pc & Hth);
      [rewrite Hq; left; reflexivity|].
    destruct (deliver_load _ Hq Hth) as (Hts & Hq' & _).
    change (run (repeat Deliver (List.length ((k, e) :: q) + 1 + extra)) w)
      with (run (repeat Deliver (List.length q + 1 + extra)) (deliver w)).
    apply IH with (last := last); [exact Hq'|].
    intros ke Hin. rewrite Hts. apply Hall. rewrite Hq. right.
    rewrite <- Hq'. exact Hin.
Qed.

(** C1, as the code has it.  Load requests are made while none has
    completed, the load threads complete in any order, and everything
    they emitted is delivered.  If the thread that completed last returned
    from [load_voice_model], then the current voice is the voice of that
    call ([None] when it failed) and the status is its message, whatever
    the other requests were and whenever they were made: the last to
    complete wins, not the last submitted, and there is no sequence
    number. *)
Theorem last_completed_load_wins (w : World) (names : list str)
    (order earlier : list nat) (last : nat) (name : str)
    (v : option PiperVoice) (s : str) :
  queue w = [] ->
  Permutation order (seq (List.length (threads w)) (List.length names)) ->
  order = earlier ++ [last] ->
  nth_error names (last - List.length (threads w)) = Some name ->
  snd (load_voice_model name (use_cuda (win w))) = Ret (v, s) ->
  let w' := run (load_scenario names order) w in
  voice (win w') = v /\ status_label (win w') = s /\ queue w' = [].
Proof.
  intros Hq Hperm Horder Hname Hload. cbv zeta.
  unfold load_scenario. rewrite !run_app.
  destruct (submit_loads names w) as [Hts1 Hq1].
  set (w1 := run (map model_combo_currentTextChanged names) w) in *.
  assert (Hnd : NoDup order).
  { apply Permutation_NoDup with (1 := Permutation_sym Hperm).
    apply seq_NoDup. }
  assert (Hrange : forall k, In k order ->
            (List.length (threads w) <= k
             < List.length (threads w) + List.length names)%nat).
  { intros k Hk. apply in_seq.
    apply Permutation_in with (1 := Hperm). exact Hk. }
  assert (Hth : forall k, In k order ->
            exists n, nth_error names (k - List.length (threads w)) = Some n
                      /\ nth_error (threads w1) k
                         = Some (LoadTask n (use_cuda (win w)), Started)).
  { intros k Hk. destruct (Hrange k Hk) as [Hlo Hhi].
    destruct (nth_error names (k - List.length (threads w))) as [n|] eqn:E.
    - exists n. split; [reflexivity|]. rewrite Hts1.
      rewrite nth_error_app2 by exact Hlo.
      rewrite nth_error_map, E. reflexivity.
    - apply nth_error_None in E. lia. }
  assert (Hlast : In last order).
  { rewrite Horder. apply in_or_app. right. left. reflexivity. }
  (* the threads before the last one *)
  assert (Hnd' : NoDup earlier /\ ~ In last earlier).
  { rewrite Horder in Hnd. apply NoDup_remove in Hnd.
    rewrite app_nil_r in Hnd. exact Hnd. }
  destruct Hnd' as [Hnd' Hnotin].
  rewrite Horder, map_app, run_app.
  destruct (run_load_threads (order := earlier) w1 Hnd')
    as (Hwin2 & Hout2 & Hkeep2 & q2 & Hq2 & Hlen2 & Hin2).
  { intros k Hk. destruct (Hth k) as (n & _ & Hn).
    - rewrite Horder. apply in_or_app. left. exact Hk.
    - eauto. }
  set (w2 := run (map Run earlier) w1) in *.
  (* the last one *)
  destruct (Hth last Hlast) as (n & Hn & Hnth).
  assert (n = name) by congruence. subst n.
  rewrite <- Hout2 in Hnth by exact Hnotin.
  destruct (run_load_thread _ _ Hnth) as (ems & Hrun & _ & Hems).
  specialize (Hems v s Hload). subst ems.
  change (run (map Run [last]) w2) with (run_thread last w2).
  rewrite Hrun.
  set (w3 := set_pc last (LoadTask name (use_cuda (win w))) Done
               (emit last [Emit_finished (LoadResult v s)] w2)).
  assert (Hq3 : queue w3 = q2 ++ [(last, Emit_finished (LoadResult v s))]).
  { unfold w3; simpl. rewrite Hq2, Hq1, Hq. reflexivity. }
  rewrite length_app. simpl List.length.
  replace (List.length earlier + 1)%nat
    with (List.length q2 + 1 + (List.length earlier - List.length q2))%nat
    by lia.
  apply deliver_loads with (last := last); [exact Hq3|].
  intros [k e] Hin. rewrite Hq3 in Hin. simpl.
  assert (Hk : In k order).
  { apply in_app_or in Hin as [Hin|[Hin|[]]].
    - rewrite Horder. apply in_or_app. left. apply (Hin2 _ Hin).
    - injection Hin as <- _. exact Hlast. }
  destruct (Nat.eq_dec k last) as [->|Hne].
  - exists name, (use_cuda (win w)), Done. unfold w3; simpl.
    eapply nth_error_set_nth_same; eassumption.
  - destruct (Hth k Hk) as (n & _ & Hn').
    destruct (Hkeep2 _ _ _ Hn') as (pc' & Hpc').
    exists n, (use_cuda (win w)), pc'. unfold w3; simpl.
    rewrite nth_error_set_nth_other by congruence. exact Hpc'.
Qed.

End LoadFacts.

(** C3 on the concrete platform.  With a model loaded, the play button is
    pressed; it now reads "Stop"; it is pressed again before thread 1 has
    synthesized; both threads then run up to [sd.wait()].  Two play
    threads are blocked in [sd.wait()] and [sd.play] was called twice,
    with no [sd.stop()] in between. *)
Theorem second_play_while_synthesizing :
  let w1 := run [play_btn_clicked] Demo.ready in
  let w := run [play_btn_clicked; Run 1%nat; Run 2%nat] w1 in
  play_btn (win w1) = btn_stop
  /\ playing (audio_player (win w1)) = false
  /\ map snd (threads w) = [Done; Waiting; Waiting]
  /\ exists audio,
       sd_calls w = [SdPlay audio 22050; SdPlay audio 22050].
Proof. vm_compute. repeat split. eexists; reflexivity. Qed.

(** C4 on the concrete platform.  The model with the long name is
    selected and its load thread runs: [exists] on the config path raises
    in [load_voice_model], the thread ends having emitted [error] only,
    no slot is connected to it, and delivering it changes nothing: the
    load never gets a terminal status and the window still says
    "Loading: ...". *)
Theorem load_exception_delivers_nothing :
  let t := LoadTask Demo.long_name false in
  let w1 :=
    run [model_combo_currentTextChanged Demo.long_name; Run 1%nat]
      Demo.ready in
  let w2 := run [Deliver] w1 in
  nth_error (threads w1) 1 = Some (t, Done)
  /\ queue w1 = [(1%nat, Emit_error (py "[Errno 36] File name too long"))]
  /\ terminal_results t (map snd (queue w1)) = 0%nat
  /\ queue w2 = []
  /\ win w2 = win w1
  /\ status_label (win w2) = py "Loading: " ++ Demo.long_name ++ py "...".
Proof. vm_compute. repeat split. Qed.

(** C2 fails as stated: with [a.onnx] loaded, selecting a model that is
    not there fails and the voice is gone. *)
Lemma failed_load_counterexample :
  let w :=
    run [model_combo_currentTextChanged (py "gone.onnx"); Run 1%nat; Deliver]
      Demo.ready in
  voice (win Demo.ready) = Some (py "models/a.onnx")
  /\ status_label (win w) = py "Model not found: gone.onnx"
  /\ voice (win w) <> voice (win Demo.ready).
Proof. vm_compute. repeat split. discriminate. Qed.

(** An instance of C2: the same failed load. *)
Lemma failed_load_clears_voice_witness :
  voice (win (run [model_combo_currentTextChanged (py "gone.onnx");
                   Run 1%nat; Deliver] Demo.ready)) = None.
Proof.
  refine (proj1 (@failed_load_clears_voice Demo.platform Demo.ready
                   (py "gone.onnx") (py "Model not found: gone.onnx")
                   [@CallExists Demo.platform (py "models/gone.onnx")] _ _)).
  - reflexivity.
  - vm_compute. reflexivity.
Defined.

(** C6 fails as stated: with nothing playing, [_stop_playback] reports a
    status. *)
Lemma stop_playback_idle_counterexample :
  playing (audio_player (win Demo.ready)) = false
  /\ log (win (_stop_playback Demo.ready))
     = log (win Demo.ready) ++ [py "Stopping..."]
  /\ _stop_playback Demo.ready <> Demo.ready.
Proof.
  split; [reflexivity|]. split; [reflexivity|].
  intros H. apply (f_equal (fun w => List.length (log (win w)))) in H.
  vm_compute in H. discriminate.
Qed.

(** An instance of C6. *)
Lemma stop_playback_while_idle_witness :
  playing (audio_player (win Demo.ready)) = false
  /\ closeEvent Demo.ready = Demo.ready.
Proof.
  split; [reflexivity|].
  refine (proj1 (proj2 (@stop_playback_while_idle Demo.platform Demo.ready _))).
  reflexivity.
Defined.

(** An instance of C9: in a directory with one text file only. *)
Lemma list_models_sentinel_witness :
  @list_models Demo.no_models = [py "No models"].
Proof.
  apply (proj1 (proj2 (@list_models_sentinel Demo.no_models false))).
  intros n [<-|[]]. reflexivity.
Defined.

(** C1 fails as stated.  The application starts, which requests
    [a.onnx]; the user selects [b.onnx] while that load is running; the
    second load completes first.  Both loads succeed and both results are
    delivered; the current voice is then the one of [a.onnx], the first
    request, where the document promises the one of [b.onnx]. *)
Lemma last_submitted_counterexample :
  let names := [py "b.onnx"] in
  let w := run (load_scenario names [1%nat; 0%nat]) Demo.started in
  map snd (threads w) = [Done; Done]
  /\ queue w = []
  /\ map fst (threads w)
     = [LoadTask (py "a.onnx") false; LoadTask (py "b.onnx") false]
  /\ @spec_current_voice Demo.platform false None [py "a.onnx"; py "b.onnx"]
     = Some (py "models/b.onnx")
  /\ voice (win w) = Some (py "models/a.onnx")
  /\ voice (win w)
     <> spec_current_voice false None [py "a.onnx"; py "b.onnx"].
Proof. vm_compute. repeat split. discriminate. Qed.

(** An instance of C1: two requests made once the first model is loaded,
    [c.onnx] (which has no config) and then [b.onnx]; the load of
    [b.onnx] completes first, the failed one last, and the voice is
    gone. *)
Lemma last_completed_load_wins_witness :
  voice (win (run (load_scenario [py "c.onnx"; py "b.onnx"]
                     [2%nat; 1%nat]) Demo.ready)) = None.
Proof.
  refine (proj1 (@last_completed_load_wins Demo.platform Demo.ready
                   [py "c.onnx"; py "b.onnx"] [2%nat; 1%nat] [2%nat] 1%nat
                   (py "c.onnx") None (py "Missing config: c.onnx.json")
                   _ _ _ _ _)).
  - reflexivity.
  - apply perm_swap.
  - reflexivity.
  - reflexivity.
  - vm_compute. reflexivity.
Defined.

(** C7 fails as stated: with a model loaded and text in the box, the
    export does nothing when the save dialog is cancelled: no status, no
    thread, no file. *)
Lemma export_cancelled_counterexample :
  voice (win Demo.ready) = Some (py "models/a.onnx")
  /\ strip (text_edit (win Demo.ready)) = py "Type or paste text here."
  /\ _export_wav [] [] Demo.ready = Demo.ready.
Proof. vm_compute. repeat split. Qed.

(** An instance of C7: an export to [out.wav] that succeeds. *)
Lemma export_wav_cases_witness :
  status_label
    (win (run [Run 1%nat; Deliver]
            (_export_wav [] (py "out.wav") Demo.ready)))
  = py "Saved: out.wav".
Proof.
  refine (let H :=
            proj2 (proj2 (proj2 (proj2
              (@export_wav_cases Demo.platform Demo.ready []
                 (py "out.wav")))))
              true (py "Saved: out.wav") _ _ _ _ _ _ in
          proj1 (proj2 (proj2 (proj2 H)))).
  - vm_compute. discriminate.
  - vm_compute. discriminate.
  - vm_compute. discriminate.
  - reflexivity.
  - vm_compute. reflexivity.
Defined.

(** The voice is read again when the dialog closes.  A model that does
    not exist is selected and the export is started before its load is
    over; the failed load is delivered while the save dialog is open, and
    the export runs without a voice. *)
Lemma export_without_voice :
  let w :=
    run [model_combo_currentTextChanged (py "zzz.onnx");
         export_btn_clicked [ThreadRuns 1%nat; SignalDelivered]
           (py "out.wav");
         Run 2%nat; Deliver] Demo.ready in
  voice (win Demo.ready) = Some (py "models/a.onnx")
  /\ status_label (win w) = py "Export error: # channels not specified"
  /\ files w = [(py "out.wav", Damaged)].
Proof. vm_compute. repeat split. Qed.


(** The controls do matter before the submission: the same move of the
    volume made first gives another file. *)
Lemma earlier_edits_matter :
  files (run [Edit (SetVolume 7); export_btn_clicked [] (py "out.wav");
              Run 1%nat] Demo.ready)
  <> files (run [export_btn_clicked [] (py "out.wav"); Run 1%nat]
              Demo.ready).
Proof. vm_compute. discriminate. Qed.

(** ** Export and synthesis in memory *)

(** A call on the writer that raises: [close] runs all the same and its
    exception is the one that leaves the [with] block. *)
Lemma writer_error_replaced_by_close :
  do_calls [setframerate 0] Wave_write_init
  = Raise (wave_Error "bad frame rate")
  /\ with_wave_write ([setframerate 0], None)
     = Raise (wave_Error "# channels not specified")
  /\ with_wave_write
       ([setframerate 22050; setsampwidth 2; setnchannels 1;
         setsampwidth 5], None)
     = Raise (wave_Error "bad sample width").
Proof. repeat split. Qed.

Lemma int16_samples_whole_frames (data : bytes) :
  int16_samples (firstn (2 * Nat.div (List.length data) 2) data)
  = int16_samples data.
Proof.
  assert (H : forall n (d : bytes), (List.length d <= n)%nat ->
            int16_samples (firstn (2 * Nat.div (List.length d) 2) d)
            = int16_samples d).
  { induction n as [|n IH]; intros [|lo [|hi d]] Hd; try reflexivity.
    - simpl in Hd. lia.
    - cbn [List.length].
      change (S (S (List.length d))) with (1 * 2 + List.length d)%nat.
      rewrite Nat.div_add_l by lia.
      replace (2 * (1 + Nat.div (List.length d) 2))%nat
        with (S (S (2 * Nat.div (List.length d) 2))) by lia.
      cbn [firstn int16_samples]. rewrite IH by (simpl in Hd; lia).
      reflexivity. }
  apply (H (List.length data)). lia.
Qed.

(** Reading back what piper's calls wrote, whatever the number of bytes:
    a last byte that is half a sample is not read. *)
Lemma read_audio_written_any (rate : Z) (data : bytes) :
  0 <= rate < 4294967296 -> 36 + Z_len data < 4294967296 ->
  read_audio (riff_header 1 2 rate (Z_len data) ++ data)
  = Ret (int16_samples data, rate).
Proof.
  intros Hr Hlen. unfold read_audio.
  rewrite Wave_read_open_written by lia. cbn [rbind].
  unfold readframes, getnframes, getframerate.
  cbn [rd_nframes rd_nchannels rd_sampwidth rd_data_chunk rd_framerate].
  change (1 * 2) with 2.
  assert (Hall : Z.to_nat (Z_len data / 2 * 2)
                 = (2 * Nat.div (List.length data) 2)%nat).
  { unfold Z_len. change 2 with (Z.of_nat 2) at 1.
    rewrite <- Nat2Z.inj_div. change 2 with (Z.of_nat 2).
    rewrite <- Nat2Z.inj_mul, Nat2Z.id. lia. }
  rewrite Hall. unfold frombuffer_int16.
  assert (Heven : Nat.modulo
                    (List.length
                       (firstn (2 * Nat.div (List.length data) 2) data)) 2
                  = 0%nat).
  { rewrite length_firstn.
    pose proof (Nat.Div0.mul_div_le (List.length data) 2).
    rewrite Nat.min_l by lia.
    rewrite Nat.mul_comm. apply Nat.Div0.mod_mul. }
  rewrite Heven. cbn [Nat.eqb]. rewrite int16_samples_whole_frames.
  reflexivity.
Qed.

Section SynthesisFacts.
Context {P : Platform}.

(** C5.  Take an engine that writes as piper does: on the given voice,
    text and parameters it yields the chunks [chunks] of 16-bit mono
    audio at [rate] Hz, sets the format at the first chunk and writes
    every chunk (the same chunks whenever it is asked the same).  Then
    the export succeeds and writes a file; that file, read back the way
    [synthesize_to_audio_array] reads its buffer (open as WAV, take the
    frame rate, read all frames, view them as 16-bit samples), gives a
    buffer; and the synthesis in memory returns that very buffer at that
    very rate, which is the rate of the engine: the same samples, so the
    same sample count, one sample for every two bytes of audio. *)
Theorem export_then_read_back (voice : PiperVoice) (text output_path : str)
    (volume speed noise noise_w : float) (normalize : bool)
    (rate : Z) (chunks : list bytes) (u : unit) :
  open_wb output_path = Ret u ->
  synthesize_wav voice text
    {| cfg_volume := volume; cfg_length_scale := speed;
       cfg_noise_scale := noise; cfg_noise_w_scale := noise_w;
       cfg_normalize_audio := normalize |}
  = (piper_calls rate chunks, None) ->
  chunks <> [] ->
  0 < rate -> 2 * rate < 4294967296 ->
  36 + Z_len (List.concat chunks) < 4294967296 ->
  exists content audio,
    synthesize_to_wav (Some voice) text output_path volume speed noise
      noise_w normalize
    = (Ret (true, py "Saved: " ++ Path_name (Path_of output_path)),
       Written content)
    /\ read_audio content = Ret (audio, rate)
    /\ synthesize_to_audio_array voice text volume speed noise noise_w
         normalize
       = Ret (Some audio, rate, py "Success")
    /\ audio = int16_samples (List.concat chunks)
    /\ List.length audio = Nat.div (List.length (List.concat chunks)) 2.
Proof.
  intros Hopen Hsyn Hne Hr Hr2 Hlen.
  exists (riff_header 1 2 rate (Z_len (List.concat chunks))
          ++ List.concat chunks), (int16_samples (List.concat chunks)).
  assert (Hrd : read_audio
                  (riff_header 1 2 rate (Z_len (List.concat chunks))
                   ++ List.concat chunks)
                = Ret (int16_samples (List.concat chunks), rate))
    by (apply read_audio_written_any; lia).
  split; [|split; [exact Hrd|split; [|split]]].
  - unfold synthesize_to_wav, call_synthesize_wav.
    rewrite Hopen, Hsyn, with_wave_write_piper by assumption.
    reflexivity.
  - unfold synthesize_to_audio_array.
    rewrite Hsyn, with_wave_write_piper by assumption.
    cbn [rbind]. rewrite Hrd. reflexivity.
  - reflexivity.
  - apply int16_samples_length.
Qed.

End SynthesisFacts.

(** An instance of C5: an engine that gives three bytes in two chunks,
    which is one sample; the odd byte is in the file and is not read. *)
Lemma export_then_read_back_witness :
  exists content audio,
    @synthesize_to_wav Cases.odd_engine (Some (py "models/a.onnx"))
      (py "hi") (py "out.wav") 1 1 1 1 false
    = (Ret (true, py "Saved: " ++ py "out.wav"), Written content)
    /\ read_audio content = Ret (audio, 22050)
    /\ @synthesize_to_audio_array Cases.odd_engine (py "models/a.onnx")
         (py "hi") 1 1 1 1 false
       = Ret (Some audio, 22050, py "Success")
    /\ audio = [1]
    /\ List.length audio = 1%nat.
Proof.
  refine (@export_then_read_back Cases.odd_engine (py "models/a.onnx")
            (py "hi") (py "out.wav") 1 1 1 1 false 22050 Cases.odd_chunks
            tt _ _ _ _ _ _).
  - reflexivity.
  - reflexivity.
  - discriminate.
  - reflexivity.
  - reflexivity.
  - reflexivity.
Defined.

(** * Further properties of [functions.py] *)

(** ** [list_models] *)

Lemma str_leb_total (a : str) : forall b, str_leb a b = false -> str_leb b a = true.
Proof.
  induction a as [|x a IH]; intros [|y b]; simpl; try congruence.
  destruct (N.ltb x y) eqn:Hxy; [discriminate|].
  destruct (N.eqb x y) eqn:Exy.
  - apply N.eqb_eq in Exy; subst y. rewrite Hxy, N.eqb_refl. apply IH.
  - intros _. apply N.ltb_ge in Hxy. apply N.eqb_neq in Exy.
    destruct (N.ltb y x) eqn:Hyx; [reflexivity|].
    apply N.ltb_ge in Hyx. exfalso. apply Exy. apply N.le_antisymm; assumption.
Qed.

Lemma str_leb_trans (a : str) :
  forall b c, str_leb a b = true -> str_leb b c = true -> str_leb a c = true.
Proof.
  induction a as [|x a IH]; intros [|y b] [|z c]; simpl; try congruence.
  destruct (N.ltb x y) eqn:Hxy.
  - intros _. destruct (N.ltb y z) eqn:Hyz.
    + intros _. apply N.ltb_lt in Hxy, Hyz.
      assert (H : N.ltb x z = true) by (apply N.ltb_lt; lia).
      rewrite H. reflexivity.
    + destruct (N.eqb y z) eqn:Eyz; [|discriminate].
      apply N.eqb_eq in Eyz; subst z. rewrite Hxy. reflexivity.
  - destruct (N.eqb x y) eqn:Exy; [|discriminate].
    apply N.eqb_eq in Exy; subst y. intros Hab.
    destruct (N.ltb x z); [reflexivity|].
    destruct (N.eqb x z); [|discriminate]. apply IH; exact Hab.
Qed.

Lemma insert_sorted_perm (x : str) (l : list str) :
  Permutation (insert_sorted x l) (x :: l).
Proof.
  induction l as [|y l IH]; simpl; [reflexivity|].
  destruct (str_leb x y); [reflexivity|].
  rewrite IH. apply perm_swap.
Qed.

Lemma sorted_perm (l : list str) : Permutation (sorted l) l.
Proof.
  induction l as [|x l IH]; simpl; [reflexivity|].
  rewrite insert_sorted_perm, IH. reflexivity.
Qed.

Lemma insert_sorted_ordered (x : str) (l : list str) :
  StronglySorted (fun a b => str_leb a b = true) l ->
  StronglySorted (fun a b => str_leb a b = true) (insert_sorted x l).
Proof.
  induction 1 as [|y l Hl IH Hy]; simpl.
  - constructor; constructor.
  - destruct (str_leb x y) eqn:E.
    + constructor; [constructor; assumption|].
      constructor; [exact E|].
      apply Forall_impl with (2 := Hy). intros z Hz.
      apply str_leb_trans with y; assumption.
    + constructor; [exact IH|].
      apply Permutation_Forall
        with (1 := Permutation_sym (insert_sorted_perm x l)).
      constructor; [apply str_leb_total; exact E|exact Hy].
Qed.

Lemma sorted_ordered (l : list str) :
  StronglySorted (fun a b => str_leb a b = true) (sorted l).
Proof.
  induction l as [|x l IH]; simpl; [constructor|].
  apply insert_sorted_ordered; exact IH.
Qed.

Section ListModelsFacts.
Context {P : Platform}.

(** When the directory holds a model, [list_models] returns the names of
    its entries that end in [.onnx], all of them and no other name, each
    as often as the directory has it, in ascending order of code
    points. *)
Theorem list_models_sorted_names :
  (exists n, In n MODELS_DIR_entries /\ endswith n (py ".onnx") = true) ->
  Permutation list_models
    (filter (fun n => endswith n (py ".onnx")) MODELS_DIR_entries)
  /\ StronglySorted (fun a b => str_leb a b = true) list_models
  /\ (forall n, In n list_models <->
                In n MODELS_DIR_entries /\ endswith n (py ".onnx") = true).
Proof.
  intros (n & Hin & Hn).
  assert (Hne : glob_onnx_names <> []).
  { intros H. assert (Hn' : In n glob_onnx_names)
      by (apply filter_In; split; assumption).
    rewrite H in Hn'. exact Hn'. }
  assert (Hlm : list_models = sorted glob_onnx_names).
  { unfold list_models. destruct (sorted glob_onnx_names) eqn:E;
      [apply sorted_nil in E; contradiction|reflexivity]. }
  rewrite Hlm. split; [apply sorted_perm|]. split; [apply sorted_ordered|].
  intros m.
  rewrite <- (filter_In (fun n => endswith n (py ".onnx")) m
                MODELS_DIR_entries).
  split; intros H.
  - apply Permutation_in with (1 := sorted_perm _). exact H.
  - apply Permutation_in with (1 := Permutation_sym (sorted_perm _)). exact H.
Qed.

End ListModelsFacts.

(** An instance: the concrete directory. *)
Lemma list_models_sorted_names_witness :
  StronglySorted (fun a b => str_leb a b = true)
    (@list_models Demo.platform).
Proof.
  refine (proj1 (proj2 (@list_models_sorted_names Demo.platform _))).
  exists (py "a.onnx"). split; [right; right; left; reflexivity|reflexivity].
Defined.

(** ** [load_voice_model] *)

Section LoadModelFacts.
Context {P : Platform}.

(** Every way [load_voice_model] can end when the name is not the
    sentinel, by what pathlib, the file system and the backend answer. *)
Lemma load_voice_model_cases (model_name : str) (use_cuda : bool) :
  str_eqb model_name (py "No models") = false ->
  let model_path := joinpath MODELS_DIR model_name in
  let flag := use_cuda && is_cuda_available in
  load_voice_model model_name use_cuda
  = match get_config_path model_path with
    | Raise e => ([], Raise e)
    | Ret cfg_path =>
        match Path_exists model_path with
        | Raise e => ([CallExists model_path], Raise e)
        | Ret false =>
            ([CallExists model_path],
             Ret (None, py "Model not found: " ++ model_name))
        | Ret true =>
            match Path_exists cfg_path with
            | Raise e =>
                ([CallExists model_path; CallExists cfg_path], Raise e)
            | Ret false =>
                ([CallExists model_path; CallExists cfg_path],
                 Ret (None, py "Missing config: " ++ Path_name cfg_path))
            | Ret true =>
                let calls :=
                  [CallExists model_path; CallExists cfg_path;
                   CallPiperLoad (Path_str model_path) (Path_str cfg_path)
                     flag] in
                match PiperVoice_load (Path_str model_path)
                        (Path_str cfg_path) flag with
                | Ret voice =>
                    (calls,
                     Ret (Some voice,
                          (py "Loaded: " ++ model_name ++ py " ("
                           ++ (if flag then py "CUDA" else py "CPU")
                           ++ py ")")
                          ++ (if truthy (voice_sample_rate voice)
                              then py " @ "
                                   ++ fmt_sr (voice_sample_rate voice)
                                   ++ py " Hz"
                              else [])))
                | Raise (Exception e) =>
                    (calls, Ret (None, py "Load error: " ++ e))
                | Raise e => (calls, Raise e)
                end
            end
        end
    end.
Proof.
  intros Hn. cbv zeta.
  unfold load_voice_model, bind, lift, exists_, load, try_except, ret.
  rewrite Hn.
  destruct (get_config_path _) as [cfg|e]; [|reflexivity].
  destruct (Path_exists (joinpath _ _)) as [[|]|e]; try reflexivity.
  destruct (Path_exists cfg) as [[|]|e]; try reflexivity.
  destruct (PiperVoice_load _ _ _) as [v|[e| |]]; reflexivity.
Qed.

(** The backend is asked to load only when the model file and its config
    both exist, only once, as the last external call, and with CUDA only
    when it was requested and [onnxruntime] offers it. *)
Theorem backend_load_only_when_files_exist (model_name : str)
    (use_cuda : bool) (mp cp : str) (flag : bool) :
  In (CallPiperLoad mp cp flag) (fst (load_voice_model model_name use_cuda)) ->
  exists cfg_path,
    get_config_path (joinpath MODELS_DIR model_name) = Ret cfg_path
    /\ Path_exists (joinpath MODELS_DIR model_name) = Ret true
    /\ Path_exists cfg_path = Ret true
    /\ mp = Path_str (joinpath MODELS_DIR model_name)
    /\ cp = Path_str cfg_path
    /\ flag = use_cuda && is_cuda_available
    /\ fst (load_voice_model model_name use_cuda)
       = [CallExists (joinpath MODELS_DIR model_name); CallExists cfg_path;
          CallPiperLoad mp cp flag].
Proof.
  destruct (str_eqb model_name (py "No models")) eqn:Hn.
  { unfold load_voice_model. rewrite Hn. intros []. }
  rewrite (load_voice_model_cases _ _ Hn). cbv zeta.
  destruct (get_config_path _) as [cfg|e]; [|intros []].
  destruct (Path_exists (joinpath _ _)) as [[|]|e];
    try (intros [H|[]]; discriminate).
  destruct (Path_exists cfg) as [[|]|e] eqn:Hcfg;
    try (intros [H|[H|[]]]; discriminate).
  intros H. exists cfg.
  assert (Hc : CallPiperLoad (Path_str (joinpath MODELS_DIR model_name))
                 (Path_str cfg) (use_cuda && is_cuda_available)
               = CallPiperLoad mp cp flag).
  { destruct (PiperVoice_load _ _ _) as [v|[e| |]];
      destruct H as [H|[H|[H|[]]]]; try discriminate; exact H. }
  injection Hc as <- <- <-.
  split; [reflexivity|]. split; [reflexivity|]. split; [exact Hcfg|].
  repeat (split; [reflexivity|]).
  destruct (PiperVoice_load _ _ _) as [v|[e| |]]; reflexivity.
Qed.

(** An [Exception] of [PiperVoice.load] never leaves [load_voice_model]:
    when the function raises an [Exception], the backend was not called;
    the exception is the one pathlib raised for the model path or for the
    config path. *)
Theorem backend_exceptions_are_caught (model_name e : str)
    (use_cuda : bool) :
  snd (load_voice_model model_name use_cuda) = Raise (Exception e) ->
  (forall mp cp flag,
      ~ In (CallPiperLoad mp cp flag)
           (fst (load_voice_model model_name use_cuda)))
  /\ (get_config_path (joinpath MODELS_DIR model_name) = Raise (Exception e)
      \/ Path_exists (joinpath MODELS_DIR model_name) = Raise (Exception e)
      \/ exists cfg_path,
           get_config_path (joinpath MODELS_DIR model_name) = Ret cfg_path
           /\ Path_exists cfg_path = Raise (Exception e)).
Proof.
  destruct (str_eqb model_name (py "No models")) eqn:Hn.
  { unfold load_voice_model. rewrite Hn. discriminate. }
  rewrite (load_voice_model_cases _ _ Hn). cbv zeta.
  destruct (get_config_path _) as [cfg|e0].
  - destruct (Path_exists (joinpath _ _)) as [[|]|e1].
    + destruct (Path_exists cfg) as [[|]|e2] eqn:Hcfg.
      * destruct (PiperVoice_load _ _ _) as [v|[e3| |]]; discriminate.
      * discriminate.
      * simpl. intros H. injection H as ->. split.
        -- intros mp cp flag [H|[H|[]]]; discriminate.
        -- right; right. exists cfg. split; [reflexivity|exact Hcfg].
    + discriminate.
    + simpl. intros H. injection H as ->. split.
      * intros mp cp flag [H|[]]; discriminate.
      * auto.
  - simpl. intros H. injection H as ->. split; [intros mp cp flag []|auto].
Qed.


End LoadModelFacts.

(** Instances on the concrete platform: the load of [b.onnx]. *)
Lemma backend_load_only_when_files_exist_witness :
  @Path_exists Demo.platform (py "models/b.onnx") = Ret true.
Proof.
  destruct (@backend_load_only_when_files_exist Demo.platform (py "b.onnx")
              false (py "models/b.onnx") (py "models/b.onnx.json") false)
    as (cfg & _ & H & _).
  - vm_compute. right; right; left; reflexivity.
  - exact H.
Defined.

Lemma backend_exceptions_are_caught_witness :
  @get_config_path Demo.platform
    (@joinpath Demo.platform (@MODELS_DIR Demo.platform) Demo.long_name)
  = Raise (Exception (py "[Errno 36] File name too long"))
  \/ @Path_exists Demo.platform
       (@joinpath Demo.platform (@MODELS_DIR Demo.platform) Demo.long_name)
     = Raise (Exception (py "[Errno 36] File name too long"))
  \/ exists cfg_path,
       @get_config_path Demo.platform
         (@joinpath Demo.platform (@MODELS_DIR Demo.platform) Demo.long_name)
       = Ret cfg_path
       /\ @Path_exists Demo.platform cfg_path
          = Raise (Exception (py "[Errno 36] File name too long")).
Proof.
  refine (proj2 (@backend_exceptions_are_caught Demo.platform Demo.long_name
                   (py "[Errno 36] File name too long") false _)).
  vm_compute. reflexivity.
Defined.


(** ** [download_voice_model] *)

Section DownloadFacts.
Context {P : Platform}.

(** [download_voice_model] never lets an [Exception] or a [SystemExit] of
    the downloader out: it returns a pair, unless the downloader was
    interrupted by the keyboard. *)
Theorem download_returns (voice_id : str) (fresh : nat) (g : SysGlobals) :
  (exists ok msg, fst (download_voice_model voice_id fresh g) = Ret (ok, msg))
  \/ fst (download_voice_model voice_id fresh g) = Raise KeyboardInterrupt.
Proof.
  unfold download_voice_model; simpl.
  destruct (main_result _) as [u|[e|c|]]; simpl; eauto.
  destruct c as [|n|[|c s]]; simpl; eauto.
  destruct (n =? 0); eauto.
Qed.

(** A downloader that exits with a status other than 0 makes the download
    a failure; the message is what the downloader printed, stripped, and
    "Download failed: <id>" when it printed nothing but white space. *)
Theorem download_exit_status (voice_id : str) (fresh : nat) (g : SysGlobals)
    (n : Z) :
  let run :=
    piper_dl_main
      {| sys_argv := [py "piper.download_voices"; voice_id; py "--data-dir";
                      Path_str MODELS_DIR];
         sys_stdout := StringIO fresh; sys_stderr := StringIO fresh |} in
  main_result run = Raise (SystemExit (CodeInt n)) ->
  (n = 0 ->
   fst (download_voice_model voice_id fresh g)
   = Ret (true, py "Downloaded: " ++ voice_id))
  /\ (n <> 0 -> strip (main_printed run) <> [] ->
      fst (download_voice_model voice_id fresh g)
      = Ret (false, strip (main_printed run)))
  /\ (n <> 0 -> forallb isspace (main_printed run) = true ->
      fst (download_voice_model voice_id fresh g)
      = Ret (false, py "Download failed: " ++ voice_id)).
Proof.
  cbv zeta. intros H. unfold download_voice_model; simpl. rewrite H; simpl.
  split; [|split].
  - intros ->. reflexivity.
  - intros Hn Hs. apply Z.eqb_neq in Hn. rewrite Hn.
    destruct (strip _); [congruence|reflexivity].
  - intros Hn Hs. apply Z.eqb_neq in Hn. rewrite Hn.
    assert (Hl : forall s, forallb isspace s = true -> lstrip s = []).
    { induction s as [|c s IH]; simpl; [reflexivity|].
      intros Hc. apply andb_true_iff in Hc as [-> Hc]. auto. }
    unfold strip, rstrip. rewrite (Hl _ Hs). reflexivity.
Qed.

End DownloadFacts.

(** An instance: a downloader that prints "  No such voice  " and exits
    with status 1. *)
Lemma download_exit_status_witness :
  fst (@download_voice_model Cases.failing_download (py "xx_XX-none-low")
         0%nat Demo.globals)
  = Ret (false, py "No such voice").
Proof.
  refine (proj1 (proj2 (@download_exit_status Cases.failing_download
                          (py "xx_XX-none-low") 0%nat Demo.globals 1 _)) _ _).
  - reflexivity.
  - discriminate.
  - vm_compute. discriminate.
Defined.

(** ** [copy_model_files] *)

Section CopyFacts.
Context {P : Platform}.
Variable FS : Type.
Variable copy2 : FS -> str -> Path -> Res unit * FS.

Lemma copy_loop_spec (file_paths : list str) :
  forall (copied : Z) (fs : FS) (n : Z),
    snd (fst (copy_loop copy2 file_paths copied fs)) = Ret n ->
    copied <= n <= copied + Z.of_nat (List.length file_paths)
    /\ fst (fst (copy_loop copy2 file_paths copied fs))
       = map (fun src => (src, joinpath MODELS_DIR (Path_name (Path_of src))))
           file_paths.
Proof.
  induction file_paths as [|src rest IH]; intros copied fs n.
  - simpl. intros H. injection H as <-. split; [lia|reflexivity].
  - cbn [copy_loop].
    destruct (copy2 fs src _) as [[u|[e|c|]] fs'].
    + destruct (copy_loop copy2 rest (copied + 1) fs') as [[calls r] fs'']
        eqn:E. cbn [fst snd]. intros Hr.
      specialize (IH (copied + 1) fs' n). rewrite E in IH.
      destruct (IH Hr) as [Hb Hc]. cbn [fst] in Hc. rewrite Hc.
      split; [|reflexivity]. cbn [List.length]. lia.
    + destruct (copy_loop copy2 rest copied fs') as [[calls r] fs''] eqn:E.
      cbn [fst snd]. intros Hr.
      specialize (IH copied fs' n). rewrite E in IH.
      destruct (IH Hr) as [Hb Hc]. cbn [fst] in Hc. rewrite Hc.
      split; [|reflexivity]. cbn [List.length]. lia.
    + discriminate.
    + discriminate.
Qed.

(** When [copy_model_files] returns, every file of the list was attempted,
    in order, each to its own base name inside the models directory, also
    after copies that failed; the count it returns lies between 0 and the
    number of files. *)
Theorem copy_model_files_attempts_all (file_paths : list str) (fs : FS)
    (n : Z) :
  snd (fst (copy_model_files copy2 file_paths fs)) = Ret n ->
  0 <= n <= Z.of_nat (List.length file_paths)
  /\ fst (fst (copy_model_files copy2 file_paths fs))
     = map (fun src => (src, joinpath MODELS_DIR (Path_name (Path_of src))))
         file_paths.
Proof. intros H. apply (copy_loop_spec _ _ _ H). Qed.

Lemma copy_loop_all_ok (file_paths : list str) :
  (forall fs src dst, exists fs', copy2 fs src dst = (Ret tt, fs')) ->
  forall copied fs,
    snd (fst (copy_loop copy2 file_paths copied fs))
    = Ret (copied + Z.of_nat (List.length file_paths)).
Proof.
  intros Hok. induction file_paths as [|src rest IH]; intros copied fs.
  - simpl. f_equal. lia.
  - cbn [copy_loop].
    destruct (Hok fs src (joinpath MODELS_DIR (Path_name (Path_of src))))
      as [fs' ->].
    specialize (IH (copied + 1) fs').
    destruct (copy_loop copy2 rest (copied + 1) fs') as [[calls r] fs''].
    cbn [fst snd] in IH |- *. rewrite IH. f_equal. cbn [List.length]. lia.
Qed.

Lemma copy_loop_all_fail (file_paths : list str) :
  (forall fs src dst, exists e fs',
      copy2 fs src dst = (Raise (Exception e), fs')) ->
  forall copied fs,
    snd (fst (copy_loop copy2 file_paths copied fs)) = Ret copied.
Proof.
  intros Hko. induction file_paths as [|src rest IH]; intros copied fs.
  - reflexivity.
  - cbn [copy_loop].
    destruct (Hko fs src (joinpath MODELS_DIR (Path_name (Path_of src))))
      as (e & fs' & ->).
    specialize (IH copied fs').
    destruct (copy_loop copy2 rest copied fs') as [[calls r] fs''].
    cbn [fst snd] in IH |- *. exact IH.
Qed.

(** The count is the number of files when every copy succeeds, and 0 when
    every copy fails with an [Exception]: a failure is swallowed and never
    ends the call. *)
Theorem copy_model_files_count (file_paths : list str) (fs : FS) :
  ((forall fs src dst, exists fs', copy2 fs src dst = (Ret tt, fs')) ->
   snd (fst (copy_model_files copy2 file_paths fs))
   = Ret (Z.of_nat (List.length file_paths)))
  /\ ((forall fs src dst, exists e fs',
          copy2 fs src dst = (Raise (Exception e), fs')) ->
      snd (fst (copy_model_files copy2 file_paths fs)) = Ret 0).
Proof.
  split; intros H.
  - apply (copy_loop_all_ok _ H 0 fs).
  - apply (copy_loop_all_fail _ H 0 fs).
Qed.

End CopyFacts.

(** An instance: three files chosen, the second of which is not there. *)
Lemma copy_model_files_attempts_all_witness :
  0 <= 2 <= 3
  /\ fst (fst (@copy_model_files Demo.platform (list str) Cases.copy2
                 [py "/dl/x.onnx"; py "/dl/gone.onnx"; py "/dl/x.onnx.json"]
                 [py "/dl/x.onnx"; py "/dl/x.onnx.json"]))
     = [(py "/dl/x.onnx", py "models/x.onnx");
        (py "/dl/gone.onnx", py "models/gone.onnx");
        (py "/dl/x.onnx.json", py "models/x.onnx.json")].
Proof.
  refine (@copy_model_files_attempts_all Demo.platform (list str) Cases.copy2
            [py "/dl/x.onnx"; py "/dl/gone.onnx"; py "/dl/x.onnx.json"]
            [py "/dl/x.onnx"; py "/dl/x.onnx.json"] 2 _).
  vm_compute. reflexivity.
Defined.

Lemma copy_model_files_count_witness :
  snd (fst (@copy_model_files Demo.platform (list str)
              (fun fs src dst => (Ret tt, dst :: fs))
              [py "/dl/x.onnx"; py "/dl/x.onnx.json"] []))
  = Ret 2.
Proof.
  refine (proj1 (@copy_model_files_count Demo.platform (list str)
                   (fun fs src dst => (Ret tt, dst :: fs))
                   [py "/dl/x.onnx"; py "/dl/x.onnx.json"] []) _).
  intros fs src dst. eexists. reflexivity.
Defined.

(** ** [synthesize_to_audio_array] and [synthesize_to_wav] *)

Section SynthesisMoreFacts.
Context {P : Platform}.

(** When the engine writes nothing at all (no chunk of audio), closing
    the WAV writer fails for want of a format: the export returns a
    failure with the message of that error and leaves no complete file,
    and the synthesis in memory returns no audio, rate 0 and the same
    error. *)
Theorem synthesis_of_nothing (voice : PiperVoice) (text output_path : str)
    (volume speed noise noise_w : float) (normalize : bool) :
  synthesize_wav voice text
    {| cfg_volume := volume; cfg_length_scale := speed;
       cfg_noise_scale := noise; cfg_noise_w_scale := noise_w;
       cfg_normalize_audio := normalize |}
  = ([], None) ->
  open_wb output_path = Ret tt ->
  synthesize_to_wav (Some voice) text output_path volume speed noise
    noise_w normalize
  = (Ret (false, py "Export error: # channels not specified"), Damaged)
  /\ synthesize_to_audio_array voice text volume speed noise noise_w
       normalize
     = Ret (None, 0, py "Synthesis error: # channels not specified").
Proof.
  intros Hsyn Hopen.
  unfold synthesize_to_wav, synthesize_to_audio_array, call_synthesize_wav.
  rewrite Hsyn, Hopen. split; reflexivity.
Qed.

End SynthesisMoreFacts.

(** An instance: an engine that writes nothing. *)
Lemma synthesis_of_nothing_witness :
  @synthesize_to_audio_array Cases.silent (py "models/a.onnx") (py "...")
    1 1 1 1 false
  = Ret (None, 0, py "Synthesis error: # channels not specified").
Proof.
  refine (proj2 (@synthesis_of_nothing Cases.silent (py "models/a.onnx")
                   (py "...") (py "out.wav") 1 1 1 1 false _ _));
    reflexivity.
Defined.


(** * Further properties of [AudioPlayer] and of [MainWindow] *)

(** ** [AudioPlayer] *)

Section PlayerFacts.
Context {P : Platform}.

Lemma player_call_invariant (c : PlayerCall) (p : AudioPlayer)
    (calls : list SdCall) :
  playing p && stopped p = false ->
  (List.length (filter is_SdStop calls) + (if playing p then 1 else 0)
   <= List.length (filter is_SdPlay calls))%nat ->
  let (p', calls') := player_call c (p, calls) in
  playing p' && stopped p' = false
  /\ (List.length (filter is_SdStop calls') + (if playing p' then 1 else 0)
      <= List.length (filter is_SdPlay calls'))%nat.
Proof.
  intros Hi Hc. destruct p as [pl st]. simpl in Hi, Hc.
  destruct c as [a r| |]; simpl.
  - rewrite !filter_app, !length_app. simpl. split; [reflexivity|].
    destruct pl; lia.
  - unfold AudioPlayer_stop; simpl. destruct pl; simpl.
    + rewrite !filter_app, !length_app. simpl. split; [reflexivity|]. lia.
    + rewrite app_nil_r. auto.
  - unfold AudioPlayer_wait. destruct sd_wait as [u|e]; simpl;
      rewrite !filter_app, !length_app; simpl.
    + split; [reflexivity|]. destruct pl; lia.
    + split; [exact Hi|]. lia.
Qed.

(** Whatever methods of a fresh [AudioPlayer] are called, in whatever
    order: it never says playing and stopped at once, and [sd.stop()] was
    never called more often than [sd.play], not counting a playback that
    is still on. *)
Theorem player_invariant (cs : list PlayerCall) :
  let (p, calls) := player_calls cs (AudioPlayer_init, []) in
  playing p && stopped p = false
  /\ (List.length (filter is_SdStop calls) + (if playing p then 1 else 0)
      <= List.length (filter is_SdPlay calls))%nat.
Proof.
  assert (H : forall cs p calls,
    playing p && stopped p = false ->
    (List.length (filter is_SdStop calls) + (if playing p then 1 else 0)
     <= List.length (filter is_SdPlay calls))%nat ->
    let (p', calls') := player_calls cs (p, calls) in
    playing p' && stopped p' = false
    /\ (List.length (filter is_SdStop calls') + (if playing p' then 1 else 0)
        <= List.length (filter is_SdPlay calls'))%nat).
  { clear cs. induction cs as [|c cs IH]; intros p calls Hi Hc.
    - simpl. auto.
    - unfold player_calls. cbn [fold_left].
      pose proof (@player_call_invariant c p calls Hi Hc) as Hstep.
      destruct (player_call c (p, calls)) as [p1 calls1].
      destruct Hstep as [Hi1 Hc1]. apply (IH p1 calls1 Hi1 Hc1). }
  apply H; [reflexivity|simpl; lia].
Qed.

End PlayerFacts.

(** ** Threads and the window *)

Section ConfinementFacts.
Context {P : Platform}.

(** A worker thread writes nothing of the window but the audio player,
    and only a play thread writes that: the voice, the status, the log,
    the button and the controls change on the interactive thread only. *)
Theorem workers_touch_only_the_player (i : nat) (w : World) :
  win (run_thread i w)
  = set_audio_player (audio_player (win (run_thread i w))) (win w)
  /\ (audio_player (win (run_thread i w)) = audio_player (win w)
      \/ exists v text vol spd nse nsw norm pc,
           nth_error (threads w) i
           = Some (PlayTask v text vol spd nse nsw norm, pc)).
Proof.
  destruct w as [m ts q sd fs g n]; destruct m. unfold run_thread; simpl.
  destruct (nth_error ts i) as [[t pc]|] eqn:E;
    [|split; [reflexivity|left; reflexivity]].
  destruct t, pc; simpl; repeat (break_match; simpl);
    (split; [reflexivity|]);
    first [ left; reflexivity | right; repeat eexists ].
Qed.

Lemma run_thread_voice (i : nat) (w : World) :
  voice (win (run_thread i w)) = voice (win w).
Proof.
  destruct w as [m ts q sd fs g n]; destruct m. unfold run_thread; simpl.
  destruct (nth_error ts i) as [[t pc]|]; [|reflexivity].
  destruct t, pc; simpl; repeat (break_match; simpl); reflexivity.
Qed.

Lemma deliver_voice (w : World) :
  voice (win (deliver w)) <> voice (win w) ->
  exists i v s q model_name use_cuda pc,
    queue w = (i, Emit_finished (LoadResult v s)) :: q
    /\ nth_error (threads w) i = Some (LoadTask model_name use_cuda, pc)
    /\ voice (win (deliver w)) = v.
Proof.
  destruct w as [m ts q sd fs g n]; destruct m.
  unfold deliver; simpl.
  destruct q as [|[i e] q']; [intros H; exfalso; apply H; reflexivity|].
  simpl. destruct (nth_error ts i) as [[t pc]|] eqn:E;
    [|intros H; exfalso; apply H; reflexivity].
  destruct t as [mn uc| | |], e as [[v s|ok msg]|msg|msg]; simpl; intros H;
    try (exfalso; apply H; reflexivity).
  - exists i, v, s, q', mn, uc, pc. auto.
  - exfalso. apply H. unfold _on_download_complete, _refresh_models; simpl.
    repeat (break_match; simpl); reflexivity.
Qed.

Lemma meanwhile_voice (during : list Meanwhile) :
  forall w,
    voice (win (meanwhile during w)) <> voice (win w) ->
    In SignalDelivered during.
Proof.
  induction during as [|s during IH]; intros w H;
    [exfalso; apply H; reflexivity|].
  destruct s as [i|]; [|left; reflexivity].
  right. apply (IH (run_thread i w)). cbn [meanwhile meanwhile_step] in H.
  rewrite run_thread_voice. exact H.
Qed.

(** The current voice is written by one thing only, the delivery of the
    [finished] signal of a load thread, by the event loop of the
    application or, while the save dialog of an export is open, by that
    of the dialog: no other command of the user and no step of a thread
    changes it. *)
Theorem voice_changes_only_on_load_result (a : Action) (w : World) :
  voice (win (do_action a w)) <> voice (win w) ->
  (a = Deliver
   /\ exists i v s q model_name use_cuda pc,
        queue w = (i, Emit_finished (LoadResult v s)) :: q
        /\ nth_error (threads w) i = Some (LoadTask model_name use_cuda, pc)
        /\ voice (win (do_action a w)) = v)
  \/ (exists during file_path,
        a = export_btn_clicked during file_path
        /\ In SignalDelivered during).
Proof.
  destruct a; cbn [do_action]; intros H;
    try (exfalso; apply H;
         destruct w as [m ts q sd fs g n]; destruct m; reflexivity).
  - exfalso. apply H. destruct w as [m ts q sd fs g n]; destruct m.
    unfold _on_cuda_toggled; simpl.
    repeat (break_match; simpl); reflexivity.
  - exfalso. apply H. destruct w as [m ts q sd fs g n]; destruct m.
    unfold _refresh_models; simpl.
    repeat (break_match; simpl); reflexivity.
  - exfalso. apply H. destruct w as [m ts q sd fs g n]; destruct m.
    unfold _download_voice.
    repeat (break_match; simpl); reflexivity.
  - right. exists during, file_path. split; [reflexivity|].
    assert (X : voice (win (_export_wav during file_path w))
                = voice (win w)
                \/ voice (win (_export_wav during file_path w))
                   = voice (win (meanwhile during w))).
    { unfold _export_wav. destruct (voice (win w)) eqn:Hv.
      - destruct (strip (text_edit (win w))).
        + left. simpl. exact Hv.
        + right. destruct file_path; reflexivity.
      - left. simpl. exact Hv. }
    destruct X as [X|X]; [congruence|].
    apply meanwhile_voice with (w := w). rewrite <- X. exact H.
  - exfalso. apply H. destruct w as [m ts q sd fs g n]; destruct m.
    unfold _play_stop, _stop_playback, _play_audio,
      AudioPlayer_is_playing, AudioPlayer_stop; simpl.
    repeat (break_match; simpl); reflexivity.
  - exfalso. apply H. destruct w as [m ts q sd fs g n]; destruct m.
    unfold closeEvent, AudioPlayer_stop; simpl.
    repeat (break_match; simpl); reflexivity.
  - exfalso. apply H. apply run_thread_voice.
  - left. split; [reflexivity|]. apply deliver_voice. exact H.
Qed.

End ConfinementFacts.

(** An instance: the delivery of the first load at start. *)
Lemma voice_changes_only_on_load_result_witness :
  exists i v s q model_name use_cuda pc,
    queue (run [Run 0%nat] Demo.started)
    = (i, Emit_finished (LoadResult v s)) :: q
    /\ nth_error (threads (run [Run 0%nat] Demo.started)) i
       = Some (LoadTask model_name use_cuda, pc)
    /\ voice (win (do_action Deliver (run [Run 0%nat] Demo.started))) = v.
Proof.
  destruct (@voice_changes_only_on_load_result Demo.platform Deliver
              (run [Run 0%nat] Demo.started))
    as [[_ H]|(d & f & E & _)].
  - vm_compute. discriminate.
  - exact H.
  - discriminate E.
Defined.

(** ** Threads and their signals *)

Section SignalFacts.
Context {P : Platform}.

Lemma skipn_exact_app {A} (x y : list A) :
  skipn (List.length x) (x ++ y) = y.
Proof. apply skipn_app_exact. reflexivity. Qed.

Ltac threads_appended :=
  first [ exists []; symmetry; apply app_nil_r | eexists; reflexivity ].

(** A command of the user and the delivery of a signal start threads and
    end none; an export apart, whose save dialog lets threads run. *)
Lemma command_threads (a : Action) (w : World) :
  (forall i, a <> Run i) ->
  (forall during file_path, a <> export_btn_clicked during file_path) ->
  exists l, threads (do_action a w) = threads w ++ l.
Proof.
  intros Ha He. destruct w as [m ts q sd fs g n]; destruct m.
  destruct a; simpl.
  - eexists; reflexivity.
  - unfold _on_cuda_toggled; simpl.
    repeat (break_match; simpl); threads_appended.
  - unfold _refresh_models; simpl.
    repeat (break_match; simpl); threads_appended.
  - unfold _download_voice.
    repeat (break_match; simpl); threads_appended.
  - destruct (He during file_path eq_refl).
  - unfold _play_stop, _stop_playback, _play_audio, AudioPlayer_is_playing,
      AudioPlayer_stop; simpl.
    repeat (break_match; simpl); threads_appended.
  - unfold closeEvent, AudioPlayer_stop; simpl.
    repeat (break_match; simpl); threads_appended.
  - threads_appended.
  - destruct (Ha i eq_refl).
  - unfold deliver; simpl.
    destruct q as [|[i e] q']; [threads_appended|].
    simpl. destruct (nth_error ts i) as [[t pc]|]; [|threads_appended].
    destruct t, e as [[v s|ok msg]|msg|msg]; simpl; try threads_appended.
    unfold _on_download_complete, _refresh_models; simpl.
    repeat (break_match; simpl); threads_appended.
Qed.

(** What a step of thread [i] does to the queue and to the threads. *)
Lemma run_thread_effect (i : nat) (w : World) :
  exists ems,
    queue (run_thread i w) = queue w ++ map (pair i) ems
    /\ (List.length (filter is_finished ems) <= 1)%nat
    /\ (filter is_finished ems <> [] ->
        pc_of i (run_thread i w) = Some Done)
    /\ (pc_of i w = Some Done \/ pc_of i w = None -> ems = [])
    /\ (forall j t pc,
          nth_error (threads w) j = Some (t, pc) ->
          exists pc',
            nth_error (threads (run_thread i w)) j = Some (t, pc')
            /\ (pc = Done -> pc' = Done)
            /\ (j <> i -> pc' = pc)).
Proof.
  assert (Hnone : run_thread i w = w ->
    exists ems,
      queue (run_thread i w) = queue w ++ map (pair i) ems
      /\ (List.length (filter is_finished ems) <= 1)%nat
      /\ (filter is_finished ems <> [] ->
          pc_of i (run_thread i w) = Some Done)
      /\ (pc_of i w = Some Done \/ pc_of i w = None -> ems = [])
      /\ (forall j t pc,
            nth_error (threads w) j = Some (t, pc) ->
            exists pc',
              nth_error (threads (run_thread i w)) j = Some (t, pc')
              /\ (pc = Done -> pc' = Done)
              /\ (j <> i -> pc' = pc))).
  { intros ->. exists []. simpl. rewrite app_nil_r.
    repeat split; auto; try congruence.
    intros j t pc H. exists pc. auto. }
  assert (Hset : forall ts (t : Task) pc0 pc1,
    nth_error ts i = Some (t, pc0) -> pc0 <> Done ->
    forall j t' pc,
      nth_error ts j = Some (t', pc) ->
      exists pc',
        nth_error (set_nth i (t, pc1) ts) j = Some (t', pc')
        /\ (pc = Done -> pc' = Done)
        /\ (j <> i -> pc' = pc)).
  { intros ts t pc0 pc1 E Hp j t' pc H.
    destruct (Nat.eq_dec j i) as [->|Hj].
    - rewrite E in H. injection H as <- <-.
      exists pc1. rewrite (nth_error_set_nth_same _ _ _ E).
      repeat split; congruence.
    - exists pc. rewrite nth_error_set_nth_other by congruence. auto. }
  destruct w as [m ts q sd fs g n].
  unfold pc_of in *. simpl in *.
  destruct (nth_error ts i) as [[t pc]|] eqn:E;
    [|apply Hnone; unfold run_thread; simpl; rewrite E; reflexivity].
  destruct pc;
    try (apply Hnone; unfold run_thread; simpl; rewrite E;
         destruct t; reflexivity).
  - (* Started *)
    clear Hnone. unfold run_thread; simpl; rewrite E.
    destruct t as [mn uc|vid|v txt fp vol spd nse nsw norm
                   |v txt vol spd nse nsw norm]; simpl.
    + eexists. split; [reflexivity|].
      unfold pc_of; simpl. rewrite (nth_error_set_nth_same _ _ _ E).
      repeat split; try (intros [H|H]; discriminate);
        try (eapply Hset; eauto; discriminate).
      unfold run_worker. repeat (break_match; simpl); auto.
    + destruct (download_voice_model vid n g) as [r g'].
      eexists. split; [reflexivity|].
      unfold pc_of; simpl. rewrite (nth_error_set_nth_same _ _ _ E).
      repeat split; try (intros [H|H]; discriminate);
        try (eapply Hset; eauto; discriminate).
      unfold run_worker. repeat (break_match; simpl); auto.
    + destruct (synthesize_to_wav v txt fp vol spd nse nsw norm)
        as [r eff].
      eexists. split; [reflexivity|].
      unfold pc_of; simpl. rewrite (nth_error_set_nth_same _ _ _ E).
      repeat split; try (intros [H|H]; discriminate);
        try (eapply Hset; eauto; discriminate).
      unfold run_worker. repeat (break_match; simpl); auto.
    + destruct (synthesize_to_audio_array v txt vol spd nse nsw norm)
        as [[[[audio|] rate] status]|e]; simpl.
      * destruct (sd_play audio rate) as [[]|e]; simpl.
        -- exists [Emit_status (py "Playing...")].
           split; [reflexivity|]. unfold pc_of; simpl.
           repeat split; auto; try (intros [H|H]; discriminate);
             try (intros H; destruct H; reflexivity);
             try (eapply Hset; eauto; discriminate).
        -- exists (Emit_status (py "Playing...") :: play_except e).
           split; [rewrite <- app_assoc; reflexivity|].
           unfold pc_of; simpl. rewrite (nth_error_set_nth_same _ _ _ E).
           repeat split; try (intros [H|H]; discriminate);
             try (eapply Hset; eauto; discriminate).
           destruct e; simpl; auto.
      * exists [Emit_status (py "Playing...");
                Emit_finished (BoolMsg false status)].
        split; [rewrite <- app_assoc; reflexivity|].
        unfold pc_of; simpl. rewrite (nth_error_set_nth_same _ _ _ E).
        repeat split; auto; try (intros [H|H]; discriminate);
          try (eapply Hset; eauto; discriminate).
      * exists (Emit_status (py "Playing...") :: play_except e).
        split; [rewrite <- app_assoc; reflexivity|].
        unfold pc_of; simpl. rewrite (nth_error_set_nth_same _ _ _ E).
        repeat split; try (intros [H|H]; discriminate);
          try (eapply Hset; eauto; discriminate).
        destruct e; simpl; auto.
  - (* Waiting *)
    clear Hnone. unfold run_thread; simpl; rewrite E.
    destruct t; simpl;
      try (exists []; simpl; rewrite app_nil_r;
           repeat split; auto; try congruence;
           try (intros [H|H]; discriminate);
           intros j t' pc' H; exists pc'; auto).
    unfold AudioPlayer_wait. destruct sd_wait as [[]|e]; simpl.
    + exists [Emit_finished
                (BoolMsg (stopped (audio_player m))
                   (if stopped (audio_player m) then py "Stopped"
                    else py "Playback complete"))].
      split; [reflexivity|].
      unfold pc_of; simpl. rewrite (nth_error_set_nth_same _ _ _ E).
      repeat split; auto; try (intros [H|H]; discriminate);
        try (eapply Hset; eauto; discriminate).
    + exists (play_except e). split; [reflexivity|].
      unfold pc_of; simpl. rewrite (nth_error_set_nth_same _ _ _ E).
      repeat split; try (intros [H|H]; discriminate);
        try (eapply Hset; eauto; discriminate).
      destruct e; simpl; auto.
Qed.

End SignalFacts.

Section TaskFacts.
Context {P : Platform}.

Lemma tasks_kept_refl (w : World) : tasks_kept w w.
Proof. intros j t pc H. exists pc. auto. Qed.

Lemma tasks_kept_trans (w1 w2 w3 : World) :
  tasks_kept w1 w2 -> tasks_kept w2 w3 -> tasks_kept w1 w3.
Proof.
  intros H12 H23 j t pc H.
  destruct (H12 j t pc H) as (pc2 & H2 & Hd2).
  destruct (H23 j t pc2 H2) as (pc3 & H3 & Hd3).
  exists pc3. auto.
Qed.

Lemma tasks_kept_app (w w' : World) (l : list (Task * Pc)) :
  threads w' = threads w ++ l -> tasks_kept w w'.
Proof.
  intros E j t pc H. exists pc. rewrite E.
  rewrite nth_error_app1 by (apply nth_error_Some; congruence). auto.
Qed.

Lemma run_thread_tasks (i : nat) (w : World) : tasks_kept w (run_thread i w).
Proof.
  intros j t pc H.
  destruct (run_thread_effect i w) as (_ & _ & _ & _ & _ & Ht).
  destruct (Ht j t pc H) as (pc' & H' & Hd & _). exists pc'. auto.
Qed.

Lemma deliver_tasks (w : World) : tasks_kept w (deliver w).
Proof.
  destruct (@command_threads P Deliver w) as [l Hl]; try discriminate.
  exact (@tasks_kept_app _ _ _ Hl).
Qed.

Lemma meanwhile_tasks (during : list Meanwhile) :
  forall w, tasks_kept w (meanwhile during w).
Proof.
  induction during as [|s during IH]; intros w; [apply tasks_kept_refl|].
  cbn [meanwhile].
  apply tasks_kept_trans with (meanwhile_step s w); [|apply IH].
  destruct s; [apply run_thread_tasks|apply deliver_tasks].
Qed.

(** After the dialog, and after a guard that fails, [_export_wav] starts
    at most one thread. *)
Lemma export_wav_tasks (during : list Meanwhile) (file_path : str)
    (w : World) :
  tasks_kept (meanwhile during w) (_export_wav during file_path w)
  \/ (_export_wav during file_path w
      = _set_status (py "Load a voice model first") w
      \/ _export_wav during file_path w
         = _set_status (py "Enter text to speak") w).
Proof.
  unfold _export_wav.
  destruct (voice (win w)); [|auto].
  destruct (strip (text_edit (win w))); [auto|].
  left. destruct file_path; [apply tasks_kept_refl|].
  eapply tasks_kept_app. reflexivity.
Qed.

(** No step removes a thread, puts it on other work or starts it again
    once it is over. *)
Lemma step_tasks (a : Action) (w : World) : tasks_kept w (do_action a w).
Proof.
  destruct a;
    try (match goal with
         | |- tasks_kept _ (do_action ?a _) =>
             destruct (@command_threads P a w) as [l Hl];
             [discriminate|discriminate|exact (@tasks_kept_app _ _ _ Hl)]
         end).
  - cbn [do_action].
    destruct (export_wav_tasks during file_path w) as [H|[H|H]].
    + apply tasks_kept_trans with (meanwhile during w);
        [apply meanwhile_tasks|exact H].
    + rewrite H. eapply tasks_kept_app. symmetry. apply app_nil_r.
    + rewrite H. eapply tasks_kept_app. symmetry. apply app_nil_r.
  - apply run_thread_tasks.
Qed.

Lemma done_kept (i : nat) (w w' : World) :
  tasks_kept w w' -> pc_of i w = Some Done -> pc_of i w' = Some Done.
Proof.
  unfold pc_of. intros Hk H.
  destruct (nth_error (threads w) i) as [[t pc]|] eqn:E; [|discriminate].
  simpl in H. injection H as ->.
  destruct (Hk i t Done E) as (pc' & -> & Hp). simpl. rewrite Hp; reflexivity.
Qed.

End TaskFacts.

Section FinishedFacts.
Context {P : Platform}.

Lemma finished_of_app (i : nat) (x y : list (nat * Emission)) :
  finished_of i (x ++ y) = finished_of i x ++ finished_of i y.
Proof. apply filter_app. Qed.

Lemma finished_of_same (i : nat) (ems : list Emission) :
  finished_of i (map (pair i) ems) = map (pair i) (filter is_finished ems).
Proof.
  induction ems as [|e ems IH]; [reflexivity|].
  unfold finished_of in *. simpl. rewrite Nat.eqb_refl. simpl.
  destruct (is_finished e); simpl; congruence.
Qed.

Lemma finished_of_other (i j : nat) (ems : list Emission) :
  j <> i -> finished_of i (map (pair j) ems) = [].
Proof.
  intros H. induction ems as [|e ems IH]; [reflexivity|].
  unfold finished_of in *. simpl.
  destruct (Nat.eqb_spec j i); [contradiction|]. exact IH.
Qed.

(** The [finished] of thread [i] that one step of thread [j] emits: at
    most one; the thread is over when it has emitted one; none when it
    was over. *)
Lemma thread_step_finished (i j : nat) (w : World) :
  (List.length (finished_of i (emitted_by_thread j w)) <= 1)%nat
  /\ (finished_of i (emitted_by_thread j w) <> [] ->
      pc_of i (run_thread j w) = Some Done)
  /\ (pc_of i w = Some Done -> finished_of i (emitted_by_thread j w) = []).
Proof.
  destruct (run_thread_effect j w) as (ems & Hq & Hn & Hd & Hs & _).
  unfold emitted_by_thread. rewrite Hq, skipn_exact_app.
  destruct (Nat.eq_dec j i) as [->|Hj].
  - rewrite finished_of_same, length_map. split; [exact Hn|]. split.
    + intros H. apply Hd. intros E. apply H. rewrite E. reflexivity.
    + intros H. rewrite Hs by auto. reflexivity.
  - rewrite finished_of_other by exact Hj. simpl.
    split; [lia|]. split; [congruence|reflexivity].
Qed.

(** The same for all that happens while a dialog is open. *)
Lemma dialog_finished (i : nat) (during : list Meanwhile) :
  forall w,
    (List.length (finished_of i (emitted_during during w)) <= 1)%nat
    /\ (finished_of i (emitted_during during w) <> [] ->
        pc_of i (meanwhile during w) = Some Done)
    /\ (pc_of i w = Some Done ->
        finished_of i (emitted_during during w) = []).
Proof.
  induction during as [|s during IH]; intros w.
  { simpl. split; [lia|]. split; [congruence|reflexivity]. }
  cbn [emitted_during meanwhile]. rewrite finished_of_app, length_app.
  destruct (IH (meanwhile_step s w)) as (IH1 & IH2 & IH3).
  assert (Hs : (List.length
                  (finished_of i
                     match s with
                     | ThreadRuns j => emitted_by_thread j w
                     | SignalDelivered => []
                     end) <= 1)%nat
               /\ (finished_of i
                     match s with
                     | ThreadRuns j => emitted_by_thread j w
                     | SignalDelivered => []
                     end <> [] ->
                   pc_of i (meanwhile_step s w) = Some Done)
               /\ (pc_of i w = Some Done ->
                   finished_of i
                     match s with
                     | ThreadRuns j => emitted_by_thread j w
                     | SignalDelivered => []
                     end = [])).
  { destruct s as [j|]; [apply thread_step_finished|].
    simpl. split; [lia|]. split; [congruence|reflexivity]. }
  destruct Hs as (S1 & S2 & S3).
  assert (Hk : tasks_kept w (meanwhile_step s w))
    by (destruct s; [apply run_thread_tasks|apply deliver_tasks]).
  destruct (finished_of i
              match s with
              | ThreadRuns j => emitted_by_thread j w
              | SignalDelivered => []
              end) as [|e l] eqn:E.
  - cbn [app List.length Nat.add]. split; [exact IH1|]. split; [exact IH2|].
    intros H. apply IH3. exact (@done_kept P i _ _ Hk H).
  - assert (Hd : pc_of i (meanwhile_step s w) = Some Done)
      by (apply S2; discriminate).
    rewrite (IH3 Hd). rewrite app_nil_r.
    split; [cbn [List.length] in *; lia|]. split.
    + intros _. exact (@done_kept P i _ _ (meanwhile_tasks during _) Hd).
    + intros H. discriminate (S3 H).
Qed.

(** And for one step of a run, whatever the step. *)
Lemma step_finished (i : nat) (a : Action) (w : World) :
  (List.length (finished_of i (emitted_by_step a w)) <= 1)%nat
  /\ (finished_of i (emitted_by_step a w) <> [] ->
      pc_of i (do_action a w) = Some Done)
  /\ (pc_of i w = Some Done -> finished_of i (emitted_by_step a w) = []).
Proof.
  destruct a; try (simpl; split; [lia|]; split; [congruence|reflexivity]).
  - cbn [emitted_by_step do_action]. unfold _export_wav.
    destruct (voice (win w));
      [|simpl; split; [lia|]; split; [congruence|reflexivity]].
    destruct (strip (text_edit (win w)));
      [simpl; split; [lia|]; split; [congruence|reflexivity]|].
    destruct (dialog_finished i during w) as (D1 & D2 & D3).
    split; [exact D1|]. split; [|exact D3].
    intros H. specialize (D2 H).
    destruct file_path; [exact D2|].
    refine (@done_kept P i _ _ _ D2). eapply tasks_kept_app. reflexivity.
  - apply thread_step_finished.
Qed.

(** A thread that is over emits no [finished] any more. *)
Lemma done_silent (i : nat) (acts : list Action) :
  forall w, pc_of i w = Some Done -> finished_of i (emitted acts w) = [].
Proof.
  induction acts as [|a acts IH]; intros w H; [reflexivity|].
  cbn [emitted]. rewrite finished_of_app.
  rewrite (IH _ (@done_kept P i _ _ (step_tasks a w) H)), app_nil_r.
  apply step_finished. exact H.
Qed.

(** Whatever the user does and however the threads are scheduled, a
    thread emits [finished] at most once: the [try] part and the [except]
    part of a [run_worker] never both emit it, and a thread that is over
    emits nothing. *)
Theorem at_most_one_finished (i : nat) (acts : list Action) :
  forall w, (List.length (finished_of i (emitted acts w)) <= 1)%nat.
Proof.
  induction acts as [|a acts IH]; intros w; [simpl; lia|].
  cbn [emitted]. rewrite finished_of_app, length_app.
  destruct (step_finished i a w) as (S1 & S2 & _).
  destruct (finished_of i (emitted_by_step a w)) as [|e l] eqn:E.
  - simpl. apply IH.
  - rewrite (@done_silent i acts (do_action a w))
      by (apply S2; discriminate).
    cbn [List.length] in *. lia.
Qed.

End FinishedFacts.

(** ** The status line and the log *)

Section StatusFacts.
Context {P : Platform}.

Ltac status_kept H :=
  first [ exact H
        | right; simpl; rewrite ?app_assoc; apply last_last ].

Lemma status_shown_thread (i : nat) (w : World) :
  status_shown w -> status_shown (run_thread i w).
Proof.
  destruct w as [m ts q sd fs g n]; destruct m.
  unfold status_shown; simpl. intros H.
  unfold run_thread; simpl.
  destruct (nth_error ts i) as [[t pc]|]; [|status_kept H].
  destruct t, pc; simpl; repeat (break_match; simpl); status_kept H.
Qed.

Lemma status_shown_deliver (w : World) :
  status_shown w -> status_shown (deliver w).
Proof.
  destruct w as [m ts q sd fs g n]; destruct m.
  unfold status_shown; simpl. intros H.
  unfold deliver; simpl.
  destruct q as [|[i e] q']; [status_kept H|].
  simpl. destruct (nth_error ts i) as [[t pc]|]; [|status_kept H].
  destruct t, e as [[v s|ok msg]|msg|msg]; simpl; try status_kept H.
  unfold _on_download_complete, _refresh_models; simpl.
  repeat (break_match; simpl); status_kept H.
Qed.

Lemma status_shown_meanwhile (during : list Meanwhile) :
  forall w, status_shown w -> status_shown (meanwhile during w).
Proof.
  induction during as [|s during IH]; intros w H; [exact H|].
  cbn [meanwhile]. apply IH.
  destruct s; [apply status_shown_thread|apply status_shown_deliver];
    exact H.
Qed.

Lemma status_shown_step (a : Action) (w : World) :
  status_shown w -> status_shown (do_action a w).
Proof.
  intros H. destruct a; cbn [do_action];
    try exact (status_shown_thread _ H);
    try exact (status_shown_deliver H).
  - right. simpl. apply last_last.
  - revert H. destruct w as [m ts q sd fs g n]; destruct m.
    unfold status_shown; simpl. intros H.
    unfold _on_cuda_toggled; simpl.
    repeat (break_match; simpl); status_kept H.
  - revert H. destruct w as [m ts q sd fs g n]; destruct m.
    unfold status_shown; simpl. intros H.
    unfold _refresh_models; simpl.
    repeat (break_match; simpl); status_kept H.
  - revert H. destruct w as [m ts q sd fs g n]; destruct m.
    unfold status_shown; simpl. intros H.
    unfold _download_voice.
    repeat (break_match; simpl); status_kept H.
  - unfold _export_wav.
    destruct (voice (win w)); [|right; simpl; apply last_last].
    destruct (strip (text_edit (win w))); [right; simpl; apply last_last|].
    destruct file_path; [exact (status_shown_meanwhile during H)|].
    right. simpl. apply last_last.
  - revert H. destruct w as [m ts q sd fs g n]; destruct m.
    unfold status_shown; simpl. intros H.
    unfold _play_stop, _stop_playback, _play_audio, AudioPlayer_is_playing,
      AudioPlayer_stop; simpl.
    repeat (break_match; simpl); status_kept H.
  - revert H. destruct w as [m ts q sd fs g n]; destruct m.
    unfold status_shown; simpl. intros H.
    unfold closeEvent, AudioPlayer_stop; simpl.
    repeat (break_match; simpl); status_kept H.
  - exact H.
Qed.

(** The status label and the log are written together: from a state in
    which the label shows the last line of the log (or the log is empty,
    as at start or after [_clear_log]) every run ends in such a state. *)
Theorem status_label_shows_last_log_line (acts : list Action) :
  forall w, status_shown w -> status_shown (run acts w).
Proof.
  induction acts as [|a acts IH]; intros w H; [exact H|].
  simpl. apply IH. apply status_shown_step. exact H.
Qed.

End StatusFacts.

(** An instance: the application started, a model loaded, the log cleared,
    a line typed and Play pressed. *)
Lemma status_label_shows_last_log_line_witness :
  status_shown (_clear_log Demo.ready)
  /\ status_shown
       (run [Edit (SetText (py "Hello")); play_btn_clicked; Run 1%nat;
             Deliver]
          (_clear_log Demo.ready)).
Proof.
  assert (H : status_shown (_clear_log Demo.ready)) by (left; reflexivity).
  split; [exact H|].
  exact (@status_label_shows_last_log_line Demo.platform _ _ H).
Defined.

(** ** Playing *)

Section PlayFacts.
Context {P : Platform}.

Lemma lstrip_blank (s : str) : lstrip s = [] <-> forallb isspace s = true.
Proof.
  induction s as [|c s IH]; simpl; [tauto|].
  destruct (isspace c); simpl; [exact IH|]. split; discriminate.
Qed.

Lemma lstrip_head (s : str) (c : N) (r : str) :
  lstrip s = c :: r -> isspace c = false.
Proof.
  induction s as [|d s IH]; simpl; [discriminate|].
  destruct (isspace d) eqn:E; [exact IH|]. congruence.
Qed.

(** [s.strip()] is empty exactly when [s] is all white space. *)
Lemma strip_blank (s : str) : strip s = [] <-> forallb isspace s = true.
Proof.
  rewrite <- lstrip_blank. unfold strip, rstrip. split.
  - intros H. destruct (lstrip s) as [|c r] eqn:E; [reflexivity|].
    apply (f_equal (@rev N)) in H. rewrite rev_involutive in H. simpl in H.
    apply lstrip_blank in H. rewrite forallb_forall in H.
    pose proof (lstrip_head _ E) as Hc. rewrite (H c) in Hc; [discriminate|].
    apply in_or_app. right. left. reflexivity.
  - intros ->. reflexivity.
Qed.

(** With a voice loaded and nothing playing, a text of white space only
    is refused by Play and by Export alike: the status says so, no thread
    is started, and neither the audio device nor a file is touched. *)
Theorem blank_text_is_refused (w : World) (v : PiperVoice)
    (during : list Meanwhile) (file_path : str) :
  voice (win w) = Some v ->
  forallb isspace (text_edit (win w)) = true ->
  AudioPlayer_is_playing (audio_player (win w)) = false ->
  do_action play_btn_clicked w = _set_status (py "Enter text to speak") w
  /\ do_action (export_btn_clicked during file_path) w
     = _set_status (py "Enter text to speak") w.
Proof.
  intros Hv Ht Hp. apply strip_blank in Ht.
  unfold do_action, _play_stop, _play_audio, _export_wav.
  rewrite Hp, Hv, Ht. split; reflexivity.
Qed.

(** The two steps of a play thread. *)
Lemma play_thread_starts (w : World) (i : nat) (v : PiperVoice) (text : str)
    (vol spd nse nsw : float) (norm : bool) (audio : list Z) (rate : Z)
    (status : str) (played : Res unit) :
  nth_error (threads w) i
  = Some (PlayTask v text vol spd nse nsw norm, Started) ->
  synthesize_to_audio_array v text vol spd nse nsw norm
  = Ret (Some audio, rate, status) ->
  sd_play audio rate = played ->
  run_thread i w
  = {| win := set_audio_player {| playing := true; stopped := false |}
                (win w);
       threads :=
         set_nth i (PlayTask v text vol spd nse nsw norm,
                    match played with Ret _ => Waiting | Raise _ => Done end)
           (threads w);
       queue :=
         queue w
         ++ (i, Emit_status (py "Playing..."))
            :: map (pair i)
                 match played with
                 | Ret _ => []
                 | Raise e => play_except e
                 end;
       sd_calls := sd_calls w ++ [SdPlay audio rate];
       files := files w; sys := sys w; next_id := next_id w |}.
Proof.
  intros Ht Hsyn Hplay. unfold run_thread. rewrite Ht, Hsyn.
  unfold AudioPlayer_play. rewrite Hplay.
  destruct played as [[]|e]; unfold set_pc, emit, with_threads, with_queue,
    with_sd_calls, with_win; simpl; rewrite <- ?app_assoc; reflexivity.
Qed.

Lemma play_thread_ends (w : World) (i : nat) (v : PiperVoice) (text : str)
    (vol spd nse nsw : float) (norm : bool) :
  nth_error (threads w) i
  = Some (PlayTask v text vol spd nse nsw norm, Waiting) ->
  sd_wait = Ret tt ->
  run_thread i w
  = {| win := set_audio_player
                {| playing := false;
                   stopped := stopped (audio_player (win w)) |} (win w);
       threads :=
         set_nth i (PlayTask v text vol spd nse nsw norm, Done) (threads w);
       queue :=
         queue w
         ++ [(i, Emit_finished
                   (BoolMsg (stopped (audio_player (win w)))
                      (if stopped (audio_player (win w)) then py "Stopped"
                       else py "Playback complete")))];
       sd_calls := sd_calls w ++ [SdWait];
       files := files w; sys := sys w; next_id := next_id w |}.
Proof.
  intros Ht Hwait. unfold run_thread. rewrite Ht.
  unfold AudioPlayer_wait. rewrite Hwait. reflexivity.
Qed.

Lemma play_thread_has_no_audio (w : World) (i : nat) (v : PiperVoice)
    (text : str) (vol spd nse nsw : float) (norm : bool) (rate : Z)
    (status : str) :
  nth_error (threads w) i
  = Some (PlayTask v text vol spd nse nsw norm, Started) ->
  synthesize_to_audio_array v text vol spd nse nsw norm
  = Ret (None, rate, status) ->
  run_thread i w
  = {| win := win w;
       threads :=
         set_nth i (PlayTask v text vol spd nse nsw norm, Done) (threads w);
       queue :=
         queue w ++ [(i, Emit_status (py "Playing..."));
                     (i, Emit_finished (BoolMsg false status))];
       sd_calls := sd_calls w; files := files w; sys := sys w;
       next_id := next_id w |}.
Proof.
  intros Ht Hsyn. unfold run_thread. rewrite Ht, Hsyn.
  unfold set_pc, emit, with_threads, with_queue; simpl.
  rewrite <- app_assoc. reflexivity.
Qed.

(** Play pressed while the player is playing. *)
Lemma stop_pressed (w : World) :
  AudioPlayer_is_playing (audio_player (win w)) = true ->
  do_action play_btn_clicked w
  = _set_status (py "Stopping...")
      {| win := set_audio_player {| playing := false; stopped := true |}
                  (win w);
         threads := threads w; queue := queue w;
         sd_calls := sd_calls w ++ [SdStop]; files := files w;
         sys := sys w; next_id := next_id w |}.
Proof.
  intros Hp. unfold do_action, _play_stop. rewrite Hp.
  unfold _stop_playback, AudioPlayer_stop.
  unfold AudioPlayer_is_playing in Hp. rewrite Hp. reflexivity.
Qed.

(** Play pressed with a voice, a text and an idle player. *)
Lemma play_pressed (w : World) (v : PiperVoice) (c : N) (r : str) :
  voice (win w) = Some v ->
  strip (text_edit (win w)) = c :: r ->
  AudioPlayer_is_playing (audio_player (win w)) = false ->
  do_action play_btn_clicked w
  = {| win :=
         set_play_btn btn_stop
           (win (_set_status (py "Synthesizing...") w));
       threads :=
         threads w
         ++ [(PlayTask v (c :: r)
                (value (volume (win w))) (value (speed (win w)))
                (value (noise (win w))) (value (noise_w (win w)))
                (normalize (win w)), Started)];
       queue := queue w; sd_calls := sd_calls w; files := files w;
       sys := sys w; next_id := next_id w |}.
Proof.
  intros Hv Ht Hp. unfold do_action, _play_stop, _play_audio.
  rewrite Hp, Hv, Ht. reflexivity.
Qed.

Variable w : World.
Variable v : PiperVoice.
Variable c : N.
Variable r : str.

Hypothesis Hvoice : voice (win w) = Some v.
Hypothesis Htext : strip (text_edit (win w)) = c :: r.
Hypothesis Hidle : AudioPlayer_is_playing (audio_player (win w)) = false.
Hypothesis Hqueue : queue w = [].

(** The thread the press of Play starts. *)
Let i : nat := List.length (threads w).

Let synthesis : Res (option (list Z) * Z * str) :=
  synthesize_to_audio_array v (c :: r)
    (value (volume (win w))) (value (speed (win w)))
    (value (noise (win w))) (value (noise_w (win w))) (normalize (win w)).

(** Play pressed, the synthesis and the device working, and the sound
    left to end: the device is asked to play and waited for, the log reads
    Synthesizing, Playing, Playback complete, the button says Play again
    and the player is idle. *)
Theorem play_to_completion (audio : list Z) (rate : Z) (status : str) :
  synthesis = Ret (Some audio, rate, status) ->
  sd_play audio rate = Ret tt ->
  sd_wait = Ret tt ->
  let w' := run [play_btn_clicked; Run i; Run i; Deliver; Deliver] w in
  sd_calls w' = sd_calls w ++ [SdPlay audio rate; SdWait]
  /\ log (win w')
     = log (win w) ++ [py "Synthesizing..."; py "Playing...";
                       py "Playback complete"]
  /\ status_label (win w') = py "Playback complete"
  /\ play_btn (win w') = btn_play
  /\ AudioPlayer_is_playing (audio_player (win w')) = false
  /\ pc_of i w' = Some Done
  /\ queue w' = [].
Proof.
  subst synthesis. intros Hsyn Hplay Hwait.
  cbn [run do_action].
  pose proof (play_pressed _ Hvoice Htext Hidle) as E1.
  cbn [do_action] in E1. set (w1 := _play_stop w) in *.
  assert (T1 : nth_error (threads w1) i
               = Some (PlayTask v (c :: r)
                         (value (volume (win w))) (value (speed (win w)))
                         (value (noise (win w))) (value (noise_w (win w)))
                         (normalize (win w)), Started)).
  { rewrite E1. apply nth_error_app_last. }
  pose proof (play_thread_starts _ _ T1 Hsyn Hplay) as E2.
  set (w2 := run_thread i w1) in *.
  assert (T2 : nth_error (threads w2) i
               = Some (PlayTask v (c :: r)
                         (value (volume (win w))) (value (speed (win w)))
                         (value (noise (win w))) (value (noise_w (win w)))
                         (normalize (win w)), Waiting)).
  { rewrite E2, E1. cbn [threads]. unfold i.
    rewrite set_nth_app_last. apply nth_error_app_last. }
  pose proof (play_thread_ends _ _ T2 Hwait) as E3.
  rewrite E3, E2, E1. cbn [threads queue win sd_calls]. rewrite Hqueue.
  unfold i. rewrite !set_nth_app_last.
  unfold deliver, pc_of. simpl.
  repeat (rewrite nth_error_app_last; simpl).
  repeat split; repeat rewrite <- app_assoc; reflexivity.
Qed.

(** The same with Stop pressed while the sound plays: the device is
    stopped between the play and the wait, no second thread is started,
    and the log ends in Stopping, Stopped. *)
Theorem play_then_stop (audio : list Z) (rate : Z) (status : str) :
  synthesis = Ret (Some audio, rate, status) ->
  sd_play audio rate = Ret tt ->
  sd_wait = Ret tt ->
  let w' :=
    run [play_btn_clicked; Run i; Deliver; play_btn_clicked; Run i; Deliver]
      w in
  sd_calls w' = sd_calls w ++ [SdPlay audio rate; SdStop; SdWait]
  /\ log (win w')
     = log (win w) ++ [py "Synthesizing..."; py "Playing...";
                       py "Stopping..."; py "Stopped"]
  /\ status_label (win w') = py "Stopped"
  /\ play_btn (win w') = btn_play
  /\ AudioPlayer_is_playing (audio_player (win w')) = false
  /\ List.length (threads w') = S i
  /\ pc_of i w' = Some Done
  /\ queue w' = [].
Proof.
  subst synthesis. intros Hsyn Hplay Hwait.
  cbn [run do_action].
  pose proof (play_pressed _ Hvoice Htext Hidle) as E1.
  cbn [do_action] in E1. set (w1 := _play_stop w) in *.
  assert (T1 : nth_error (threads w1) i
               = Some (PlayTask v (c :: r)
                         (value (volume (win w))) (value (speed (win w)))
                         (value (noise (win w))) (value (noise_w (win w)))
                         (normalize (win w)), Started)).
  { rewrite E1. apply nth_error_app_last. }
  pose proof (play_thread_starts _ _ T1 Hsyn Hplay) as E2.
  set (w2 := run_thread i w1) in *.
  assert (E3 : deliver w2
               = _set_status (py "Playing...")
                   (with_queue (fun _ => []) w2)).
  { unfold deliver. rewrite E2, E1. cbn [threads queue]. rewrite Hqueue.
    unfold i. rewrite set_nth_app_last. simpl.
    rewrite nth_error_app_last. reflexivity. }
  set (w3 := deliver w2) in *.
  assert (E4 : _play_stop w3
               = _set_status (py "Stopping...")
                   {| win := set_audio_player
                               {| playing := false; stopped := true |}
                               (win w3);
                      threads := threads w3; queue := queue w3;
                      sd_calls := sd_calls w3 ++ [SdStop];
                      files := files w3; sys := sys w3;
                      next_id := next_id w3 |}).
  { apply stop_pressed. rewrite E3, E2. reflexivity. }
  set (w4 := _play_stop w3) in *.
  assert (T4 : nth_error (threads w4) i
               = Some (PlayTask v (c :: r)
                         (value (volume (win w))) (value (speed (win w)))
                         (value (noise (win w))) (value (noise_w (win w)))
                         (normalize (win w)), Waiting)).
  { rewrite E4, E3, E2, E1. cbn [threads]. simpl. unfold i.
    rewrite set_nth_app_last. apply nth_error_app_last. }
  pose proof (play_thread_ends _ _ T4 Hwait) as E5.
  rewrite E5, E4, E3, E2, E1. simpl. unfold i.
  rewrite !set_nth_app_last.
  unfold deliver, pc_of. simpl.
  repeat (rewrite nth_error_app_last; simpl).
  rewrite !length_app. simpl.
  repeat split; repeat rewrite <- app_assoc; try reflexivity; lia.
Qed.

(** The device refuses to play: the error is shown and the button says
    Play again, but the player is left marked as playing, so the next
    press of Play stops a sound that never started and plays nothing. *)
Theorem device_error_leaves_player_playing (audio : list Z) (rate : Z)
    (status msg : str) :
  synthesis = Ret (Some audio, rate, status) ->
  sd_play audio rate = Raise (Exception msg) ->
  let w' := run [play_btn_clicked; Run i; Deliver; Deliver; Deliver] w in
  sd_calls w' = sd_calls w ++ [SdPlay audio rate]
  /\ status_label (win w') = py "Playback error: " ++ msg
  /\ play_btn (win w') = btn_play
  /\ pc_of i w' = Some Done
  /\ queue w' = []
  /\ AudioPlayer_is_playing (audio_player (win w')) = true
  /\ threads (do_action play_btn_clicked w') = threads w'
  /\ sd_calls (do_action play_btn_clicked w') = sd_calls w' ++ [SdStop]
  /\ status_label (win (do_action play_btn_clicked w')) = py "Stopping...".
Proof.
  subst synthesis. intros Hsyn Hplay.
  cbn [run].
  change (do_action Deliver) with deliver.
  change (do_action (Run i)) with (run_thread i).
  pose proof (play_pressed _ Hvoice Htext Hidle) as E1.
  set (w1 := do_action play_btn_clicked w) in *.
  assert (T1 : nth_error (threads w1) i
               = Some (PlayTask v (c :: r)
                         (value (volume (win w))) (value (speed (win w)))
                         (value (noise (win w))) (value (noise_w (win w)))
                         (normalize (win w)), Started)).
  { rewrite E1. apply nth_error_app_last. }
  pose proof (play_thread_starts _ _ T1 Hsyn Hplay) as E2.
  set (w2 := run_thread i w1) in *.
  assert (E3 : deliver (deliver (deliver w2))
               = with_win (set_play_btn btn_play)
                   (_set_status (py "Playback error: " ++ msg)
                      (_set_status (py "Playing...")
                         (with_queue (fun _ => []) w2)))).
  { unfold deliver. rewrite E2, E1. cbn [threads queue]. rewrite Hqueue.
    unfold i. rewrite set_nth_app_last. simpl.
    repeat (rewrite nth_error_app_last; simpl). reflexivity. }
  set (w3 := deliver (deliver (deliver w2))) in *.
  assert (Hp : AudioPlayer_is_playing (audio_player (win w3)) = true).
  { rewrite E3, E2. reflexivity. }
  rewrite (stop_pressed _ Hp). rewrite E3, E2, E1. simpl.
  unfold i, pc_of. simpl. rewrite set_nth_app_last, nth_error_app_last.
  repeat split.
Qed.

(** The synthesis fails: its message is shown, after a log line that
    says Playing although nothing is, the device is not touched and the
    player stays idle. *)
Theorem synthesis_error_plays_nothing (rate : Z) (status : str) :
  synthesis = Ret (None, rate, status) ->
  let w' := run [play_btn_clicked; Run i; Deliver; Deliver] w in
  sd_calls w' = sd_calls w
  /\ log (win w')
     = log (win w) ++ [py "Synthesizing..."; py "Playing..."; status]
  /\ status_label (win w') = status
  /\ play_btn (win w') = btn_play
  /\ AudioPlayer_is_playing (audio_player (win w')) = false
  /\ pc_of i w' = Some Done
  /\ queue w' = [].
Proof.
  subst synthesis. intros Hsyn.
  cbn [run do_action].
  pose proof (play_pressed _ Hvoice Htext Hidle) as E1.
  cbn [do_action] in E1. set (w1 := _play_stop w) in *.
  assert (T1 : nth_error (threads w1) i
               = Some (PlayTask v (c :: r)
                         (value (volume (win w))) (value (speed (win w)))
                         (value (noise (win w))) (value (noise_w (win w)))
                         (normalize (win w)), Started)).
  { rewrite E1. apply nth_error_app_last. }
  rewrite (play_thread_has_no_audio _ _ T1 Hsyn), E1.
  cbn [threads queue win sd_calls]. rewrite Hqueue.
  unfold i. rewrite !set_nth_app_last.
  unfold deliver, pc_of. simpl.
  repeat (rewrite nth_error_app_last; simpl).
  repeat split; repeat rewrite <- app_assoc; try reflexivity.
  exact Hidle.
Qed.

End PlayFacts.

(** Instances.  A text of a space, a tab, a line feed and a no-break
    space is refused. *)
Lemma blank_text_is_refused_witness :
  let w := run [Edit (SetText [32; 9; 10; 160]%N)] Demo.ready in
  do_action play_btn_clicked w = _set_status (py "Enter text to speak") w
  /\ do_action (export_btn_clicked [] (py "speech.wav")) w
     = _set_status (py "Enter text to speak") w.
Proof.
  intros w.
  exact (@blank_text_is_refused Demo.platform w _ [] (py "speech.wav")
           eq_refl eq_refl eq_refl).
Defined.

(** The text the window starts with, played to its end on an engine
    that gives two samples. *)
Lemma play_to_completion_witness :
  let w :=
    @Cases.ready_on (fun _ _ _ => (piper_calls 22050 Cases.even_chunks, None))
      (fun _ _ => Ret tt) Cases.quiet_download in
  let w' :=
    @run Cases.even_engine
      [play_btn_clicked; Run 1%nat; Run 1%nat; Deliver; Deliver] w in
  sd_calls w' = [SdPlay [1; -1] 22050; SdWait]
  /\ status_label (win w') = py "Playback complete"
  /\ play_btn (win w') = btn_play.
Proof.
  intros w w'.
  assert (H1 : voice (win w) = Some (py "models/a.onnx"))
    by (vm_compute; reflexivity).
  assert (H2 : strip (text_edit (win w))
               = 84%N :: py "ype or paste text here.")
    by (vm_compute; reflexivity).
  assert (H3 : AudioPlayer_is_playing
                 (audio_player (win w)) = false)
    by (vm_compute; reflexivity).
  assert (H4 : queue w = []) by (vm_compute; reflexivity).
  assert (H5 : @synthesize_to_audio_array Cases.even_engine
                 (py "models/a.onnx")
                 (84%N :: py "ype or paste text here.")
                 (value (volume (win w))) (value (speed (win w)))
                 (value (noise (win w))) (value (noise_w (win w)))
                 (normalize (win w))
               = Ret (Some [1; -1], 22050, py "Success"))
    by (vm_compute; reflexivity).
  destruct (@play_to_completion Cases.even_engine w _ _ _ H1 H2 H3 H4
              _ _ _ H5 eq_refl eq_refl) as (E1 & _ & E3 & E4 & _).
  split; [exact E1|]. split; [exact E3|exact E4].
Defined.

(** The same, stopped. *)
Lemma play_then_stop_witness :
  let w :=
    @Cases.ready_on (fun _ _ _ => (piper_calls 22050 Cases.even_chunks, None))
      (fun _ _ => Ret tt) Cases.quiet_download in
  let w' :=
    @run Cases.even_engine
      [play_btn_clicked; Run 1%nat; Deliver; play_btn_clicked; Run 1%nat;
       Deliver] w in
  sd_calls w' = [SdPlay [1; -1] 22050; SdStop; SdWait]
  /\ status_label (win w') = py "Stopped"
  /\ play_btn (win w') = btn_play.
Proof.
  intros w w'.
  assert (H1 : voice (win w) = Some (py "models/a.onnx"))
    by (vm_compute; reflexivity).
  assert (H2 : strip (text_edit (win w))
               = 84%N :: py "ype or paste text here.")
    by (vm_compute; reflexivity).
  assert (H3 : AudioPlayer_is_playing
                 (audio_player (win w)) = false)
    by (vm_compute; reflexivity).
  assert (H4 : queue w = []) by (vm_compute; reflexivity).
  assert (H5 : @synthesize_to_audio_array Cases.even_engine
                 (py "models/a.onnx")
                 (84%N :: py "ype or paste text here.")
                 (value (volume (win w))) (value (speed (win w)))
                 (value (noise (win w))) (value (noise_w (win w)))
                 (normalize (win w))
               = Ret (Some [1; -1], 22050, py "Success"))
    by (vm_compute; reflexivity).
  destruct (@play_then_stop Cases.even_engine w _ _ _ H1 H2 H3 H4
              _ _ _ H5 eq_refl eq_refl) as (E1 & _ & E3 & E4 & _).
  split; [exact E1|]. split; [exact E3|exact E4].
Defined.

(** No audio device. *)
Lemma device_error_leaves_player_playing_witness :
  let w :=
    @Cases.ready_on Demo.synthesize
      (fun _ _ => Raise (Exception (py "Error opening OutputStream")))
      Cases.quiet_download in
  let w' :=
    @run Cases.no_device
      [play_btn_clicked; Run 1%nat; Deliver; Deliver; Deliver] w in
  status_label (win w') = py "Playback error: Error opening OutputStream"
  /\ play_btn (win w') = btn_play
  /\ AudioPlayer_is_playing (audio_player (win w')) = true
  /\ threads (@do_action Cases.no_device play_btn_clicked w') = threads w'.
Proof.
  intros w w'.
  assert (H1 : voice (win w) = Some (py "models/a.onnx"))
    by (vm_compute; reflexivity).
  assert (H2 : strip (text_edit (win w))
               = 84%N :: py "ype or paste text here.")
    by (vm_compute; reflexivity).
  assert (H3 : AudioPlayer_is_playing
                 (audio_player (win w)) = false)
    by (vm_compute; reflexivity).
  assert (H4 : queue w = []) by (vm_compute; reflexivity).
  assert (H5 : @synthesize_to_audio_array Cases.no_device
                 (py "models/a.onnx")
                 (84%N :: py "ype or paste text here.")
                 (value (volume (win w))) (value (speed (win w)))
                 (value (noise (win w))) (value (noise_w (win w)))
                 (normalize (win w))
               = Ret (Some (map Z.of_N (py "Type or paste text here.")),
                      22050, py "Success"))
    by (vm_compute; reflexivity).
  destruct (@device_error_leaves_player_playing Cases.no_device w _ _ _
              H1 H2 H3 H4 _ _ _ (py "Error opening OutputStream") H5 eq_refl)
    as (_ & E2 & E3 & _ & _ & E6 & E7 & _).
  split; [exact E2|]. split; [exact E3|]. split; [exact E6|exact E7].
Defined.

(** An engine that writes nothing: closing the WAV writer fails. *)
Lemma synthesis_error_plays_nothing_witness :
  let w :=
    @Cases.ready_on (fun _ _ _ => ([], None)) (fun _ _ => Ret tt)
      Cases.quiet_download in
  let w' :=
    @run Cases.silent [play_btn_clicked; Run 1%nat; Deliver; Deliver] w in
  status_label (win w') = py "Synthesis error: # channels not specified"
  /\ play_btn (win w') = btn_play
  /\ sd_calls w' = [].
Proof.
  intros w w'.
  assert (H1 : voice (win w) = Some (py "models/a.onnx"))
    by (vm_compute; reflexivity).
  assert (H2 : strip (text_edit (win w))
               = 84%N :: py "ype or paste text here.")
    by (vm_compute; reflexivity).
  assert (H3 : AudioPlayer_is_playing
                 (audio_player (win w)) = false)
    by (vm_compute; reflexivity).
  assert (H4 : queue w = []) by (vm_compute; reflexivity).
  assert (H5 : @synthesize_to_audio_array Cases.silent
                 (py "models/a.onnx")
                 (84%N :: py "ype or paste text here.")
                 (value (volume (win w))) (value (speed (win w)))
                 (value (noise (win w))) (value (noise_w (win w)))
                 (normalize (win w))
               = Ret (None, 0,
                      py "Synthesis error: # channels not specified"))
    by (vm_compute; reflexivity).
  destruct (@synthesis_error_plays_nothing Cases.silent w _ _ _
              H1 H2 H3 H4 _ _ H5) as (E1 & _ & E3 & E4 & _).
  split; [exact E3|]. split; [exact E4|exact E1].
Defined.

(** ** The list of models *)

Section ModelListFacts.
Context {P : Platform}.

Lemma in_list_In (x : str) (l : list str) : in_list x l = true <-> In x l.
Proof.
  unfold in_list. rewrite existsb_exists. split.
  - intros (y & Hy & E). apply str_eqb_eq in E. subst. exact Hy.
  - intros H. exists x. split; [exact H|apply str_eqb_refl].
Qed.

Lemma list_models_not_nil : list_models <> [].
Proof. unfold list_models. destruct (sorted glob_onnx_names); discriminate. Qed.

(** A start with no model in the directory: the combo box holds the
    placeholder alone, and the placeholder is loaded like a model, by a
    thread, which ends in the status No models found and no voice.  From
    there a refresh starts no thread and Play asks for a model. *)
Theorem startup_without_models (volume speed noise noise_w : FloatSlider)
    (g : SysGlobals) :
  (forall n, In n MODELS_DIR_entries -> endswith n (py ".onnx") = false) ->
  let w0 := MainWindow_init volume speed noise noise_w g in
  let w := run [Run 0%nat; Deliver] w0 in
  threads w0 = [(LoadTask (py "No models") false, Started)]
  /\ voice (win w) = None
  /\ model_items (win w) = [py "No models"]
  /\ status_label (win w) = py "No models found"
  /\ queue w = []
  /\ threads (do_action refresh_btn_clicked w) = threads w
  /\ do_action play_btn_clicked w
     = _set_status (py "Load a voice model first") w.
Proof.
  intros H.
  assert (L : list_models = [py "No models"]).
  { unfold list_models, glob_onnx_names. rewrite (filter_none _ _ H).
    reflexivity. }
  cbv zeta. unfold MainWindow_init, _load_initial_model, _check_cuda.
  rewrite L. destruct is_cuda_available; simpl;
    unfold _refresh_models, _play_stop, _play_audio; simpl; rewrite L;
    repeat split.
Qed.

Ltac refresh_done :=
  repeat split; auto; try tauto;
  try (left; repeat split; auto; tauto);
  try (right; repeat split; auto; try congruence;
       rewrite <- app_assoc; reflexivity).

(** [_refresh_models]: the combo box takes the models of the directory;
    the selection stays when it is still among them and is the first of
    them otherwise; the selection is loaded again by a new thread, unless
    it is the placeholder or empty; and the status ends as Models
    refreshed, after the line of the load when there is one. *)
Theorem refresh_models_cases (w : World) :
  let w' := _refresh_models w in
  let now := model_current (win w') in
  model_items (win w') = list_models
  /\ In now list_models
  /\ (In (model_current (win w)) list_models ->
      now = model_current (win w))
  /\ (~ In (model_current (win w)) list_models -> now = hd [] list_models)
  /\ status_label (win w') = py "Models refreshed"
  /\ voice (win w') = voice (win w)
  /\ ((now = py "No models" \/ now = [])
      /\ threads w' = threads w
      /\ log (win w') = log (win w) ++ [py "Models refreshed"]
      \/ now <> py "No models" /\ now <> []
         /\ threads w'
            = threads w ++ [(LoadTask now (use_cuda (win w)), Started)]
         /\ log (win w')
            = log (win w) ++ [py "Loading: " ++ now ++ py "...";
                              py "Models refreshed"]).
Proof.
  cbv zeta. destruct w as [m ts q sd fs g n].
  destruct m as [vo ap uc items cur txt vol spd nse nsw norm st lg btn].
  unfold _refresh_models; simpl.
  pose proof list_models_not_nil as Hne.
  assert (Hno : forall x y : str, str_eqb x y = false -> x <> y).
  { intros x y E ->. rewrite str_eqb_refl in E. discriminate. }
  destruct (in_list cur list_models) eqn:Hin.
  - apply in_list_In in Hin.
    destruct (str_eqb cur []) eqn:E1; simpl.
    + apply str_eqb_eq in E1. subst. refresh_done.
    + apply Hno in E1.
      destruct (str_eqb cur (py "No models")) eqn:E2; simpl.
      * apply str_eqb_eq in E2. subst. refresh_done.
      * apply Hno in E2. refresh_done.
  - assert (Hnot : ~ In cur list_models).
    { intros Hi. apply in_list_In in Hi. congruence. }
    destruct list_models as [|x l] eqn:L; [congruence|]. simpl.
    simpl in Hnot.
    destruct (str_eqb x []) eqn:E1; simpl.
    + apply str_eqb_eq in E1. subst. refresh_done.
    + apply Hno in E1.
      destruct (str_eqb x (py "No models")) eqn:E2; simpl.
      * apply str_eqb_eq in E2. subst. refresh_done.
      * apply Hno in E2. refresh_done.
Qed.

End ModelListFacts.

(** Instances. *)
Lemma startup_without_models_witness :
  let s := @Build_FloatSlider Demo.no_models 0 1 1 in
  let w :=
    @run Demo.no_models [Run 0%nat; Deliver]
      (@MainWindow_init Demo.no_models s s s s Demo.globals) in
  voice (win w) = None /\ status_label (win w) = py "No models found".
Proof.
  intros s w.
  destruct (@startup_without_models Demo.no_models s s s s Demo.globals)
    as (_ & H2 & _ & H4 & _).
  - intros n Hn. vm_compute in Hn. destruct Hn as [<-|[]]. reflexivity.
  - split; [exact H2|exact H4].
Defined.

Lemma refresh_models_cases_witness :
  model_current (win (@_refresh_models Demo.platform Demo.ready))
  = model_current (win Demo.ready)
  /\ List.length (threads (@_refresh_models Demo.platform Demo.ready))
     = 2%nat.
Proof.
  pose proof (@refresh_models_cases Demo.platform Demo.ready) as H.
  cbv zeta in H. destruct H as (_ & _ & H3 & _).
  split; [|vm_compute; reflexivity].
  apply H3. vm_compute. left. reflexivity.
Defined.

(** ** Downloading *)

Section DownloadWindowFacts.
Context {P : Platform}.

Lemma download_leaves_sys (voice_id : str) (fresh : nat) (g : SysGlobals) :
  snd (download_voice_model voice_id fresh g) = g.
Proof. destruct g; reflexivity. Qed.

(** What [_refresh_models] leaves alone. *)
Lemma refresh_models_frame (w : World) :
  (exists l, threads (_refresh_models w) = threads w ++ l)
  /\ sys (_refresh_models w) = sys w
  /\ voice (win (_refresh_models w)) = voice (win w)
  /\ status_label (win (_refresh_models w)) = py "Models refreshed"
  /\ (forall w2, win w2 = win w ->
      win (_refresh_models w2) = win (_refresh_models w)).
Proof.
  split; [|split; [|split; [|split]]].
  - apply (@command_threads P refresh_btn_clicked w); discriminate.
  - unfold _refresh_models.
    destruct (negb _); reflexivity.
  - unfold _refresh_models.
    destruct (negb _); reflexivity.
  - unfold _refresh_models.
    destruct (negb _); reflexivity.
  - intros w2 H. unfold _refresh_models.
    cbn [win with_win]. rewrite H.
    destruct (negb _);
      unfold _on_model_changed, _set_status, Thread_start, with_win,
        with_threads; cbn [win]; rewrite ?H; reflexivity.
Qed.

(** The one step of a download thread. *)
Lemma download_thread_runs (w : World) (i : nat) (voice_id msg : str)
    (ok : bool) :
  nth_error (threads w) i = Some (DownloadTask voice_id, Started) ->
  fst (download_voice_model voice_id (next_id w) (sys w)) = Ret (ok, msg) ->
  run_thread i w
  = {| win := win w;
       threads := set_nth i (DownloadTask voice_id, Done) (threads w);
       queue := queue w ++ [(i, Emit_finished (BoolMsg ok msg))];
       sd_calls := sd_calls w; files := files w; sys := sys w;
       next_id := S (next_id w) |}.
Proof.
  intros Ht Hd.
  pose proof (download_leaves_sys voice_id (next_id w) (sys w)) as Hg.
  unfold run_thread. rewrite Ht. revert Hd Hg.
  destruct (download_voice_model voice_id (next_id w) (sys w)) as [res g'].
  cbn [fst snd]. intros -> ->. reflexivity.
Qed.

(** A download from the dialog to the delivery of its result.  The voice
    id is used stripped.  A cancelled dialog does nothing at all (an id
    of white space neither, [blank_voice_id_is_ignored]).  Otherwise one
    thread is started; when the download
    fails its message is the status and the models and the voice are as
    they were; when it succeeds the models are listed again, so the
    status ends as Models refreshed with the message of the download
    before it in the log.  Either way [sys] is as it was. *)
Theorem download_round (w : World) (voice_id : str) (c : N) (r msg : str)
    (ok : bool) :
  queue w = [] ->
  strip voice_id = c :: r ->
  fst (download_voice_model (c :: r) (next_id w) (sys w)) = Ret (ok, msg) ->
  let i := List.length (threads w) in
  let w' := run [dl_btn_clicked voice_id true; Run i; Deliver] w in
  do_action (dl_btn_clicked voice_id false) w = w
  /\ nth_error (threads w') i = Some (DownloadTask (c :: r), Done)
  /\ sys w' = sys w
  /\ voice (win w') = voice (win w)
  /\ (if ok then
        win w'
        = win (_refresh_models
                 (_set_status msg
                    (_set_status (py "Downloading: " ++ c :: r ++ py "...")
                       w)))
        /\ status_label (win w') = py "Models refreshed"
      else
        status_label (win w') = msg
        /\ log (win w')
           = log (win w) ++ [py "Downloading: " ++ c :: r ++ py "..."; msg]
        /\ model_items (win w') = model_items (win w)
        /\ model_current (win w') = model_current (win w)
        /\ List.length (threads w') = S i).
Proof.
  intros Hq Hs Hd. cbv zeta. cbn [run do_action].
  assert (E0 : _download_voice voice_id false w = w) by reflexivity.
  assert (E1 : _download_voice voice_id true w
               = Thread_start (DownloadTask (c :: r))
                   (_set_status (py "Downloading: " ++ c :: r ++ py "...")
                      w)).
  { unfold _download_voice. rewrite Hs. reflexivity. }
  rewrite E0, E1.
  set (w1 := Thread_start (DownloadTask (c :: r))
               (_set_status (py "Downloading: " ++ c :: r ++ py "...") w)).
  assert (T1 : nth_error (threads w1) (List.length (threads w))
               = Some (DownloadTask (c :: r), Started))
    by apply nth_error_app_last.
  rewrite (@download_thread_runs w1 _ _ msg ok T1 Hd).
  subst w1. cbn [threads queue win sd_calls files sys next_id Thread_start
                 _set_status with_threads with_win].
  rewrite Hq, set_nth_app_last.
  unfold deliver.
  cbn [queue threads app with_queue win sd_calls files sys next_id].
  rewrite nth_error_app_last. cbn [slot _on_download_complete].
  split; [reflexivity|].
  destruct ok.
  - match goal with
    | |- context [_refresh_models ?x] =>
        destruct (refresh_models_frame x) as ((l & Ht) & Hsys & Hv & Hst & Hw)
    end.
    rewrite Ht, Hsys, Hv, Hst.
    unfold _set_status at 1 2 3, with_queue, with_win.
    cbn [threads sys win voice].
    rewrite nth_error_app1 by (rewrite length_app; simpl; lia).
    rewrite nth_error_app_last.
    repeat split. symmetry. apply Hw. reflexivity.
  - unfold _set_status, with_win, with_queue.
    cbn [win threads queue sd_calls files sys next_id voice status_label
         model_current model_items log].
    rewrite nth_error_app_last, length_app, <- app_assoc.
    repeat split. simpl. lia.
Qed.

(** An id that is white space only is as good as a cancelled dialog. *)
Lemma blank_voice_id_is_ignored (w : World) (voice_id : str) (ok : bool) :
  forallb isspace voice_id = true ->
  do_action (dl_btn_clicked voice_id ok) w = w.
Proof.
  intros H. apply strip_blank in H. simpl. unfold _download_voice.
  rewrite H. destruct ok; reflexivity.
Qed.

End DownloadWindowFacts.

(** An instance: a downloader that prints a message and exits with
    status 1. *)
Lemma download_round_witness :
  let w :=
    @Cases.ready_on Demo.synthesize (fun _ _ => Ret tt)
      (fun g =>
         {| main_globals :=
              {| sys_argv := []; sys_stdout := sys_stdout g;
                 sys_stderr := sys_stderr g |};
            main_printed := py "  No such voice  ";
            main_result := Raise (SystemExit (CodeInt 1)) |}) in
  let w' :=
    @run Cases.failing_download
      [dl_btn_clicked (py " en_GB-nobody ") true; Run 1%nat; Deliver] w in
  status_label (win w') = py "No such voice"
  /\ sys w' = Demo.globals
  /\ model_items (win w') = model_items (win w).
Proof.
  intros w w'.
  assert (H1 : queue w = []) by (vm_compute; reflexivity).
  assert (H2 : strip (py " en_GB-nobody ") = 101%N :: py "n_GB-nobody")
    by (vm_compute; reflexivity).
  assert (H3 : fst (@download_voice_model Cases.failing_download
                      (101%N :: py "n_GB-nobody") (next_id w) (sys w))
               = Ret (false, py "No such voice"))
    by (vm_compute; reflexivity).
  destruct (@download_round Cases.failing_download w _ _ _ _ _ H1 H2 H3)
    as (_ & _ & E3 & _ & E5 & _ & E7 & _).
  split; [exact E5|]. split; [exact E3|exact E7].
Defined.
